(** * StudioBlood: the random generator, the segmentation engines and the
    channel delay, embedded from the C sources.

  - [Xorgens]   : xorgens.c, the generator [xor4096i] with its static state.
  - [Machine]   : the store the plugins run on (sample buffers reached
                  through pointers, the clock, the generator state, stdout).
  - [Reverse]   : sb_esreveR.c, [run_Reverse].
  - [Kite]      : sb_kite.c, [run_Kite] with [GetRandomNaturalNumber],
                  [ApplyReverse] and [CopySubBlock].
  - [Adt]       : sb_adt.c, [activate_Adt], [run_Adt], [GetOffsetInSamples].
  - [XorgensState], [XorgensReal] : the invariant of the statics of
                  [xor4096i], and [xor4096r].
  - [Plan], [InPlace], [Draw], [Rounding] : what a plan of sub-blocks
                  makes of a buffer, what a draw returns, and rounding to
                  nearest even on integers.

  [unsigned long] is the 64-bit type the sentinel 0xFFFFFFFFFFFFFFFF of
  sb_esreveR.c presupposes; every unsigned operation is written with its
  wrap-around.  [float] and [double] are IEEE 754 binary32 and binary64,
  computed with the operations of the Standard Library's [SpecFloat]. *)

From Stdlib Require Import ZArith Lia Bool List String.
From Stdlib Require Import Floats.SpecFloat.
From stdpp Require Import base list.

Local Open Scope Z_scope.

(** ** Machine integers *)

Module Word.

Definition ULONG_BITS : Z := 64.
Definition ULONG_MOD : Z := 2 ^ ULONG_BITS.
Definition ULONG_MAX : Z := 0xFFFFFFFFFFFFFFFF.

(** The value an [unsigned long] expression has after reduction. *)
Definition wrap (z : Z) : Z := z mod ULONG_MOD.

Definition shl (v n : Z) : Z := wrap (Z.shiftl v n).
Definition shr (v n : Z) : Z := Z.shiftr v n.
Definition xor (u v : Z) : Z := Z.lxor u v.
Definition complement (v : Z) : Z := ULONG_MAX - v.

Definition is_ulong (z : Z) : Prop := 0 <= z < ULONG_MOD.

End Word.

(** ** xorgens.c *)

Module Xorgens.
Import Word.

(** [typedef unsigned long UINT], eight bytes. *)
Definition sizeof_UINT : Z := 8.
Definition UINT64 : Z := Z.shiftr sizeof_UINT 3.
Definition UINT32 : Z := 1 - UINT64.

Definition wlen : Z := 64 * UINT64 + 32 * UINT32.
Definition r : Z := 64 * UINT64 + 128 * UINT32.
Definition s : Z := 53 * UINT64 + 95 * UINT32.
Definition a : Z := 33 * UINT64 + 17 * UINT32.
Definition b : Z := 26 * UINT64 + 12 * UINT32.
Definition c : Z := 27 * UINT64 + 13 * UINT32.
Definition d : Z := 29 * UINT64 + 15 * UINT32.
Definition ws : Z := 27 * UINT64 + 16 * UINT32.

(** The function's static variables: [w], [weyl], the circular array [x]
    and the cursor [i] ([i < 0] until the first call). *)
Record state : Type := mkState {
  w : Z;
  weyl : Z;
  x : list Z;
  i : Z
}.

Definition zero : Z := 0.

(** The statics as the C runtime sets them up. *)
Definition fresh : state :=
  {| w := 0; weyl := 0; x := replicate (Z.to_nat r) 0; i := -1 |}.

Definition get (arr : list Z) (k : Z) : Z := default 0 (arr !! Z.to_nat k).
Definition set (arr : list Z) (k v : Z) : list Z := <[Z.to_nat k := v]> arr.

(** [v ^= v<<10; v ^= v>>15; v ^= v<<4; v ^= v>>13;] *)
Definition scramble (v : Z) : Z :=
  let v := xor v (shl v 10) in
  let v := xor v (shr v 15) in
  let v := xor v (shl v 4) in
  xor v (shr v 13).

(** One turn of [for (w = v, k = 0; k < r; k++)] on [(v, w, x)]. *)
Definition fill_step (wy : Z) (k : nat) (vwx : Z * Z * list Z)
  : Z * Z * list Z :=
  let '(v, w0, arr) := vwx in
  let v := scramble v in
  let w1 := wrap (w0 + wy) in
  (v, w1, set arr (Z.of_nat k) (wrap (v + w1))).

(** One turn of the loop that discards the first [4*r] results. *)
Definition discard_step (ix : Z * list Z) : Z * list Z :=
  let '(i0, arr) := ix in
  let i1 := Z.land (i0 + 1) (r - 1) in
  let t := get arr i1 in
  let t := xor t (shl t a) in
  let t := xor t (shr t b) in
  let v := get arr (Z.land (i1 + (r - s)) (r - 1)) in
  let v := xor v (shl v c) in
  let v := xor v (shr v d) in
  (i1, set arr i1 (xor t v)).

(** The body of [if ((i < 0) || (seed != zero))]. *)
Definition initialise (seed : Z) (st : state) : state :=
  let wy :=
    if UINT32 =? 1 then 0x61c88647
    else wrap (shl (shl 0x61c88646 16) 16 + 0x80b583eb) in
  let v := if negb (seed =? zero) then seed else complement seed in
  let v := Nat.iter (Z.to_nat wlen) scramble v in
  let '(v, w1, arr) :=
    fold_left (fun acc k => fill_step wy k acc)
              (seq 0 (Z.to_nat r)) (v, v, x st) in
  let '(i1, arr) :=
    Nat.iter (Z.to_nat (4 * r)) discard_step (r - 1, arr) in
  {| w := w1; weyl := wy; x := arr; i := i1 |}.

(** "Apart from initialisation (above), this is the generator". *)
Definition generator (st : state) : Z * state :=
  let i1 := Z.land (i st + 1) (r - 1) in
  let t := get (x st) i1 in
  let v := get (x st) (Z.land (i1 + (r - s)) (r - 1)) in
  let t := xor t (shl t a) in
  let t := xor t (shr t b) in
  let v := xor v (shl v c) in
  let v := xor v (shr v d) in
  let v := xor v t in
  let w1 := wrap (w st + weyl st) in
  (wrap (v + xor w1 (shr w1 ws)),
   {| w := w1; weyl := weyl st; x := set (x st) i1 v; i := i1 |}).

Definition xor4096i (seed : Z) (st : state) : Z * state :=
  if (i st <? 0) || negb (seed =? zero)
  then generator (initialise seed st)
  else generator st.

(** The state "exists": a call has been made. *)
Definition initialised (st : state) : Prop := 0 <= i st.

(** [n] further requests for the next value. *)
Fixpoint next_values (n : nat) (st : state) : list Z * state :=
  match n with
  | O => ([], st)
  | S n' =>
      let '(v, st1) := xor4096i zero st in
      let '(vs, st2) := next_values n' st1 in
      (v :: vs, st2)
  end.

Fixpoint generator_values (n : nat) (st : state) : list Z * state :=
  match n with
  | O => ([], st)
  | S n' =>
      let '(v, st1) := generator st in
      let '(vs, st2) := generator_values n' st1 in
      (v :: vs, st2)
  end.

End Xorgens.


(** ** IEEE 754 arithmetic of the C expressions *)

Module Ieee.

(** [float]: binary32, 24 bits of precision. *)
Definition float_prec : Z := 24.
Definition float_emax : Z := 128.
(** [double]: binary64, 53 bits of precision. *)
Definition double_prec : Z := 53.
Definition double_emax : Z := 1024.

(** An integer converted to [float], to [double] (round to nearest even). *)
Definition float_of_Z (z : Z) : spec_float :=
  binary_normalize float_prec float_emax z 0 false.
Definition double_of_Z (z : Z) : spec_float :=
  binary_normalize double_prec double_emax z 0 false.

(** The usual promotion of a [float] operand to [double]; it is exact. *)
Definition double_of_float (f : spec_float) : spec_float :=
  match f with
  | S754_finite sg m e =>
      binary_normalize double_prec double_emax (cond_Zopp sg (Zpos m)) e sg
  | _ => f
  end.

Definition float_mul : spec_float -> spec_float -> spec_float :=
  SFmul float_prec float_emax.
Definition float_div : spec_float -> spec_float -> spec_float :=
  SFdiv float_prec float_emax.
Definition double_mul : spec_float -> spec_float -> spec_float :=
  SFmul double_prec double_emax.

(** The [double] constants of the sources.  [0.2] is the binary64 number
    nearest to one fifth, bit pattern 0x3FC999999999999A. *)
Definition double_0_2 : spec_float := S754_finite false 0x1999999999999A (-55).
Definition double_1_5 : spec_float := S754_finite false 0x18000000000000 (-52).
Definition double_0_25 : spec_float := S754_finite false 0x10000000000000 (-54).

(** The integral part of a floating-point number (C truncates toward
    zero); there is none for an infinity or a NaN. *)
Definition truncate (f : spec_float) : option Z :=
  match f with
  | S754_zero _ => Some 0
  | S754_finite sg m e =>
      Some (cond_Zopp sg
              (if 0 <=? e then Zpos m * 2 ^ e else Zpos m / 2 ^ (- e)))
  | _ => None
  end.

(** [(unsigned long) f] and [(int) f]: defined only when the integral part
    is representable in the target type. *)
Definition to_ulong (f : spec_float) : option Z :=
  match truncate f with
  | Some z => if (0 <=? z) && (z <? Word.ULONG_MOD) then Some z else None
  | None => None
  end.

Definition INT_MIN : Z := - 2 ^ 31.
Definition INT_MAX : Z := 2 ^ 31 - 1.

Definition to_int (f : spec_float) : option Z :=
  match truncate f with
  | Some z => if (INT_MIN <=? z) && (z <=? INT_MAX) then Some z else None
  | None => None
  end.

End Ieee.

(** ** The machine the plugins run on *)

Module Machine.

(** [typedef float LADSPA_Data]. *)
Abbreviation LADSPA_Data := spec_float (only parsing).

(** A pointer to a sample buffer names a block of the heap; two ports
    connected to the same data location hold the same pointer. *)
Abbreviation pointer := nat (only parsing).

Record timeval : Type := mkTimeval { tv_sec : Z; tv_usec : Z }.

Inductive fault : Type :=
| OutOfBounds        (* an access outside the block pointed to *)
| DivisionByZero     (* [%] with a zero right operand *)
| Unrepresentable.   (* a floating-point value converted to an integer type
                        that cannot hold it *)

Inductive outcome (A : Type) : Type :=
| Done (a : A)
| Fault (f : fault)
| OutOfFuel.
Arguments Done {A} a.
Arguments Fault {A} f.
Arguments OutOfFuel {A}.

(** - [heap]: the sample blocks;
    - [stores]: the assignments [p[k] = v] made so far, oldest first;
    - [stdout]: what [printf] has written;
    - [clock], [ticks]: what the successive [gettimeofday] calls return;
    - [rng]: the static state of [xor4096i]. *)
Record world : Type := mkWorld {
  heap : list (list LADSPA_Data);
  stores : list (pointer * Z);
  stdout : list string;
  clock : nat -> timeval;
  ticks : nat;
  rng : Xorgens.state
}.

Definition M (A : Type) : Type := world -> outcome (A * world).

Definition ret {A : Type} (a : A) : M A := fun w => Done (a, w).

Definition bind {A B : Type} (c : M A) (k : A -> M B) : M B :=
  fun w =>
    match c w with
    | Done (a, w') => k a w'
    | Fault f => Fault f
    | OutOfFuel => OutOfFuel
    end.

Definition raise {A : Type} (f : fault) : M A := fun _ => Fault f.
Definition out_of_fuel {A : Type} : M A := fun _ => OutOfFuel.

Definition lift_option {A : Type} (f : fault) (o : option A) : M A :=
  match o with
  | Some a => ret a
  | None => raise f
  end.

Declare Scope machine_scope.
Delimit Scope machine_scope with machine.
Bind Scope machine_scope with M.

Notation "'let*' x ':=' c 'in' k" := (bind c (fun x => k))
  (at level 10, x name, c at level 100, k at level 200) : machine_scope.
Notation "'let*' ' p ':=' c 'in' k" :=
  (bind c (fun x => match x with p => k end))
  (at level 10, p pattern, c at level 100, k at level 200) : machine_scope.
Notation "c ;; k" := (bind c (fun _ => k))
  (at level 100, k at level 200, right associativity) : machine_scope.

Local Open Scope machine_scope.

(** [p[k]] read. *)
Definition load (p : pointer) (k : Z) : M LADSPA_Data :=
  fun w =>
    match heap w !! p with
    | Some blk =>
        if (0 <=? k) && (k <? Z.of_nat (length blk)) then
          match blk !! Z.to_nat k with
          | Some v => Done (v, w)
          | None => Fault OutOfBounds
          end
        else Fault OutOfBounds
    | None => Fault OutOfBounds
    end.

(** [p[k] = v]. *)
Definition store (p : pointer) (k : Z) (v : LADSPA_Data) : M unit :=
  fun w =>
    match heap w !! p with
    | Some blk =>
        if (0 <=? k) && (k <? Z.of_nat (length blk)) then
          Done (tt, {| heap := <[p := <[Z.to_nat k := v]> blk]> (heap w);
                       stores := stores w ++ [(p, k)];
                       stdout := stdout w;
                       clock := clock w;
                       ticks := ticks w;
                       rng := rng w |})
        else Fault OutOfBounds
    | None => Fault OutOfBounds
    end.

Definition printf (text : string) : M unit :=
  fun w =>
    Done (tt, {| heap := heap w;
                 stores := stores w;
                 stdout := stdout w ++ [text];
                 clock := clock w;
                 ticks := ticks w;
                 rng := rng w |}).

Definition gettimeofday : M timeval :=
  fun w =>
    Done (clock w (ticks w),
          {| heap := heap w;
             stores := stores w;
             stdout := stdout w;
             clock := clock w;
             ticks := S (ticks w);
             rng := rng w |}).

Definition call_xor4096i (seed : Z) : M Z :=
  fun w =>
    let '(v, st) := Xorgens.xor4096i seed (rng w) in
    Done (v, {| heap := heap w;
                stores := stores w;
                stdout := stdout w;
                clock := clock w;
                ticks := ticks w;
                rng := st |}).

(** [GetRandomNaturalNumber], the same function in sb_esreveR.c and in
    sb_kite.c: the generator is seeded with [tv_usec * tv_sec] and its value
    reduced modulo [upper_bound - lower_bound + 1]. *)
Definition GetRandomNaturalNumber (lower_bound upper_bound : Z) : M Z :=
  let* current_time := gettimeofday in
  let* rand_num :=
    call_xor4096i (Word.wrap (tv_usec current_time * tv_sec current_time)) in
  let modulus := Word.wrap (upper_bound - lower_bound + 1) in
  if modulus =? 0 then raise DivisionByZero
  else ret (Word.wrap (rand_num mod modulus + lower_bound)).

(** [memset(p, 0, sizeof (LADSPA_Data) * n)]: the first [n] samples of the
    block become +0.0 (all bits zero). *)
Definition memset_zero (p : pointer) (n : Z) : M unit :=
  fun w =>
    match heap w !! p with
    | Some blk =>
        if (0 <=? n) && (n <=? Z.of_nat (length blk)) then
          Done (tt, {| heap :=
                         <[p := replicate (Z.to_nat n) (S754_zero false)
                                  ++ drop (Z.to_nat n) blk]> (heap w);
                       stores := stores w;
                       stdout := stdout w;
                       clock := clock w;
                       ticks := ticks w;
                       rng := rng w |})
        else Fault OutOfBounds
    | None => Fault OutOfBounds
    end.

(** A sub-block of a buffer, both ends included. *)
Definition segment : Type := (Z * Z)%type.

(** The sub-blocks of [plan] follow one another from [lo] to [hi - 1]:
    each starts where the one before ended, none is empty, the last ends
    at [hi - 1]. *)
Fixpoint tiles (plan : list segment) (lo hi : Z) : Prop :=
  match plan with
  | [] => lo = hi
  | (s, e) :: rest => s = lo /\ s <= e /\ tiles rest (e + 1) hi
  end.

(** [w'] is [w] but for what was printed: no sample buffer, no owned
    state and no record of a store differs. *)
Definition only_printed (w w' : world) : Prop :=
  heap w' = heap w /\ stores w' = stores w /\ clock w' = clock w
  /\ ticks w' = ticks w /\ rng w' = rng w.

(** The number of sub-blocks of [plan] that contain the index [k]. *)
Definition covering (k : Z) (plan : list segment) : nat :=
  length (List.filter (fun se => (fst se <=? k) && (k <=? snd se)) plan).

(** The stores made into the block [p], in order. *)
Definition stores_to (p : pointer) (w : world) : list Z :=
  List.map snd (List.filter (fun e => Nat.eqb (fst e) p) (stores w)).

(** [w'] differs from [w] by draws of random numbers only. *)
Definition drew (w w' : world) : Prop :=
  heap w' = heap w /\ stores w' = stores w /\ stdout w' = stdout w
  /\ clock w' = clock w.

(** The number of times [k] is found in a list of indexes. *)
Definition occurrences (k : Z) (l : list Z) : nat :=
  length (List.filter (fun j => j =? k) l).

(** The integers [lo], [lo + 1], ..., [lo + n - 1]. *)
Definition upto (lo : Z) (n : nat) : list Z :=
  map (fun j => lo + Z.of_nat j) (seq 0 n).

End Machine.

(** ** sb_esreveR.c *)

Module Reverse.
Import Word Ieee Machine.
Local Open Scope machine_scope.

Record Reverse : Type := mkReverse {
  sample_rate : LADSPA_Data;
  Input : pointer;
  Output : pointer
}.

(** [const unsigned long MIN_SAMPLES = 0.2 * reverse->sample_rate;] *)
Definition MIN_SAMPLES (rate : LADSPA_Data) : option Z :=
  to_ulong (double_mul double_0_2 (double_of_float rate)).

(** [const unsigned long MAX_SAMPLES = 1.5 * reverse->sample_rate;] *)
Definition MAX_SAMPLES (rate : LADSPA_Data) : option Z :=
  to_ulong (double_mul double_1_5 (double_of_float rate)).

(** The inner loop,
    [while (in_index >= start_position && in_index != 0xFFFFFFFFFFFFFFFF)];
    it returns [in_index] and [out_index] as the loop leaves them. *)
Fixpoint reverse_block (fuel : nat) (input_reader output_writer : pointer)
  (start_position in_index out_index : Z) : M (Z * Z) :=
  match fuel with
  | O => out_of_fuel
  | S fuel' =>
      if (start_position <=? in_index)
         && negb (in_index =? 0xFFFFFFFFFFFFFFFF)
      then
        let* v := load input_reader in_index in
        store output_writer out_index v ;;
        reverse_block fuel' input_reader output_writer start_position
          (wrap (in_index - 1)) (wrap (out_index + 1))
      else ret (in_index, out_index)
  end.

(** The outer loop, [while (out_index < total_sample_count)].  [plan] is
    not a variable of the program: it records, for each turn, the sub-block
    [start_position .. in_index] the turn is about to reverse. *)
Fixpoint reverse_loop (fuel : nat) (input_reader output_writer : pointer)
  (total_sample_count MIN_SAMPLES MAX_SAMPLES : Z)
  (start_position in_index out_index : Z) (plan : list segment)
  : M (list segment) :=
  match fuel with
  | O => out_of_fuel
  | S fuel' =>
      if out_index <? total_sample_count then
        let rand_num_lower_bound := wrap (start_position + MIN_SAMPLES) in
        let rand_num_upper_bound := wrap (start_position + MAX_SAMPLES) in
        let* '(random_num, in_index) :=
          if (total_sample_count <=? MIN_SAMPLES)
             || (wrap (total_sample_count - MIN_SAMPLES)
                   <=? rand_num_lower_bound)
          then ret (0, wrap (total_sample_count - 1))
          else
            let rand_num_upper_bound :=
              if wrap (total_sample_count - MIN_SAMPLES)
                   <? rand_num_upper_bound
              then wrap (total_sample_count - MIN_SAMPLES)
              else rand_num_upper_bound in
            let* random_num :=
              GetRandomNaturalNumber rand_num_lower_bound
                                     rand_num_upper_bound in
            ret (random_num, wrap (random_num - 1)) in
        let* '(in_index', out_index') :=
          reverse_block fuel' input_reader output_writer
                        start_position in_index out_index in
        reverse_loop fuel' input_reader output_writer
          total_sample_count MIN_SAMPLES MAX_SAMPLES
          random_num in_index' out_index'
          (plan ++ [(start_position, in_index)])
      else ret plan
  end.

(** [run_Reverse]; [instance] is [None] for a NULL handle.  The result is
    the plan recorded by [reverse_loop] (empty when the plugin is not
    executed). *)
Definition run_Reverse (fuel : nat) (instance : option Reverse)
  (total_sample_count : Z) : M (list segment) :=
  if total_sample_count <=? 1 then
    printf "\nEither 0, 1, or a negative numer of sample(s) were passed" ;;
    printf " into the plugin.\n" ;;
    printf "\nPlugin not executed.\n" ;;
    ret []
  else
    match instance with
    | None =>
        printf "\nPlugin received NULL pointer for plugin instance.\n" ;;
        printf "\nPlugin not executed.\n" ;;
        ret []
    | Some reverse =>
        if SFltb (sample_rate reverse) (float_of_Z 10) then
          printf "\nThis plugin does not accept sample rates less than 10" ;;
          printf " samples per second.\n" ;;
          printf "\nPlugin not executed.\n" ;;
          ret []
        else
          let input_reader := Input reverse in
          let output_writer := Output reverse in
          let* MIN_SAMPLES :=
            lift_option Unrepresentable (MIN_SAMPLES (sample_rate reverse)) in
          let* MAX_SAMPLES :=
            lift_option Unrepresentable (MAX_SAMPLES (sample_rate reverse)) in
          reverse_loop fuel input_reader output_writer
            total_sample_count MIN_SAMPLES MAX_SAMPLES 0 0 0 []
    end.

(** Both buffers hold at least [N] samples. *)
Definition buffers_hold (input_reader output_writer : pointer) (N : Z)
  (w : world) : Prop :=
  (exists blk, heap w !! input_reader = Some blk
               /\ N <= Z.of_nat (length blk))
  /\ (exists blk, heap w !! output_writer = Some blk
                  /\ N <= Z.of_nat (length blk)).

(** [w'] is [w] after stores into [p] at the indexes [ks], and possibly
    draws of random numbers. *)
Definition stored (p : pointer) (ks : list Z) (w w' : world) : Prop :=
  stores w' = stores w ++ map (fun k => (p, k)) ks
  /\ stdout w' = stdout w /\ clock w' = clock w.

(** The two lengths are what the plugin's comments take them to be: a
    sub-block has at least one sample, at most [MAX] of them, and no
    position of the buffer plus [MAX] leaves the range of
    [unsigned long]. *)
Definition lengths_sane (rate : LADSPA_Data) (N : Z) : Prop :=
  exists MIN MAX,
    MIN_SAMPLES rate = Some MIN /\ MAX_SAMPLES rate = Some MAX
    /\ 1 <= MIN <= MAX
    /\ (forall c, 0 <= c -> c + 2 * MIN < N -> c + MAX < ULONG_MOD).

(** A call that passes the three guards of [run_Reverse], on buffers that
    exist: more than one sample and no more than 2^62 of them, a sample
    rate that is a binary32 number not below 10.0 (the guard is
    [sample_rate < 10]), and a longest sub-block, 1.5 times the rate, that
    the conversion to [unsigned long] can represent. *)
Record valid_call (reverse : Reverse) (N : Z) (w : world) : Prop :=
  mkValidCall {
  count_above_one : 1 < N <= 2 ^ 62;
  rate_is_binary32 :
    valid_binary float_prec float_emax (sample_rate reverse) = true;
  rate_at_least_10 : SFltb (sample_rate reverse) (float_of_Z 10) = false;
  longest_block_fits : is_Some (MAX_SAMPLES (sample_rate reverse));
  buffers_present : buffers_hold (Input reverse) (Output reverse) N w
}.

End Reverse.


(** ** sb_kite.c *)

Module Kite.
Import Word Ieee Machine.
Local Open Scope machine_scope.

Record Kite : Type := mkKite {
  sample_rate : Z;
  Input_Left : pointer;
  Input_Right : pointer;
  Output_Left : pointer;
  Output_Right : pointer
}.

(** [(unsigned long) (0.25 * kite->sample_rate)] *)
Definition MIN_BLOCK_START (rate : Z) : option Z :=
  to_ulong (double_mul double_0_25 (double_of_Z rate)).

(** [MIN_BLOCK_START + (2 * kite->sample_rate)] *)
Definition MAX_BLOCK_END (min_block_start rate : Z) : Z :=
  wrap (min_block_start + wrap (2 * rate)).

(** [(short) n] for an [unsigned long] [n]. *)
Definition to_short (n : Z) : Z :=
  let m := n mod 2 ^ 16 in
  if m <? 2 ^ 15 then m else m - 2 ^ 16.

Fixpoint ApplyReverse (fuel : nat) (buffer : pointer) (start end_ : Z)
  : M unit :=
  match fuel with
  | O => out_of_fuel
  | S fuel' =>
      if start <=? end_ then
        let* holder := load buffer start in
        let* last := load buffer end_ in
        store buffer start last ;;
        store buffer end_ holder ;;
        ApplyReverse fuel' buffer (wrap (start + 1)) (wrap (end_ - 1))
      else ret tt
  end.

(** The [for] loop of [CopySubBlock]. *)
Fixpoint copy_loop (fuel : nat) (destination source : pointer)
  (dest_index src_index src_end : Z) : M unit :=
  match fuel with
  | O => out_of_fuel
  | S fuel' =>
      if src_index <=? src_end then
        let* v := load source src_index in
        store destination dest_index v ;;
        copy_loop fuel' destination source
                  (wrap (dest_index + 1)) (wrap (src_index + 1)) src_end
      else ret tt
  end.

Definition CopySubBlock (fuel : nat) (destination : pointer) (dest_start : Z)
  (source : pointer) (src_start src_end : Z) : M unit :=
  if (dest_start =? src_start) || (src_end <? src_start) then ret tt
  else copy_loop fuel destination source dest_start src_start src_end.

(** Lines 251-267 of [run_Kite]: the bounds between which the random end
    position is drawn, once the start position is known. *)
Definition end_position_bounds
  (MIN_BLOCK_START MAX_BLOCK_END samples_remaining block_start_position : Z)
  : Z * Z :=
  let rand_num_lower_bound :=
    wrap (block_start_position + MIN_BLOCK_START) in
  let rand_num_upper_bound :=
    if samples_remaining
         <? wrap (wrap (block_start_position + MAX_BLOCK_END)
                    - MIN_BLOCK_START)
    then samples_remaining
    else wrap (wrap (wrap (block_start_position + MAX_BLOCK_END)
                       - MIN_BLOCK_START) - 1) in
  (rand_num_lower_bound, rand_num_upper_bound).

(** Lines 210-271 of [run_Kite]: the start and end positions of the
    sub-block to process, out of the [samples_remaining] samples left. *)
Definition choose_block (MIN_BLOCK_START MAX_BLOCK_END samples_remaining : Z)
  : M segment :=
  let rand_num_lower_bound := MIN_BLOCK_START in
  let rand_num_upper_bound := MAX_BLOCK_END in
  if samples_remaining <=? wrap (MIN_BLOCK_START * 2) then
    ret (0, wrap (samples_remaining - 1))
  else if samples_remaining <=? MAX_BLOCK_END then
    let rand_num_upper_bound := wrap (samples_remaining - MIN_BLOCK_START) in
    let* block_start_position :=
      GetRandomNaturalNumber rand_num_lower_bound rand_num_upper_bound in
    ret (block_start_position, wrap (samples_remaining - 1))
  else
    let* block_start_position :=
      GetRandomNaturalNumber rand_num_lower_bound rand_num_upper_bound in
    let '(rand_num_lower_bound, rand_num_upper_bound) :=
      end_position_bounds MIN_BLOCK_START MAX_BLOCK_END samples_remaining
                          block_start_position in
    let* block_end_position :=
      GetRandomNaturalNumber rand_num_lower_bound rand_num_upper_bound in
    ret (block_start_position, block_end_position).

(** Lines 273-341: reverse, append to the output, write over the used
    section; the result is the new [(out_index, samples_remaining)]. *)
Definition process_block (fuel : nat) (kite : Kite)
  (out_index samples_remaining : Z) (block : segment) : M (Z * Z) :=
  let '(block_start_position, block_end_position) := block in
  let* n := GetRandomNaturalNumber 0 2 in
  let reverse := to_short n in
  (if reverse =? 0 then
     ApplyReverse fuel (Input_Left kite)
                  block_start_position block_end_position ;;
     ApplyReverse fuel (Input_Right kite)
                  block_start_position block_end_position
   else ret tt) ;;
  CopySubBlock fuel (Output_Left kite) out_index (Input_Left kite)
               block_start_position block_end_position ;;
  CopySubBlock fuel (Output_Right kite) out_index (Input_Right kite)
               block_start_position block_end_position ;;
  let samples_copied :=
    wrap (wrap (block_end_position - block_start_position) + 1) in
  let source_start :=
    if block_end_position <? wrap (samples_remaining - samples_copied)
    then wrap (samples_remaining - samples_copied)
    else wrap (block_end_position + 1) in
  CopySubBlock fuel (Input_Left kite) block_start_position (Input_Left kite)
               source_start (wrap (samples_remaining - 1)) ;;
  CopySubBlock fuel (Input_Right kite) block_start_position
               (Input_Right kite)
               source_start (wrap (samples_remaining - 1)) ;;
  ret (wrap (out_index + samples_copied),
       wrap (samples_remaining - samples_copied)).

(** [while (out_index < total_samples)].  As in [Reverse.reverse_loop],
    [plan] records the sub-block each turn settles on. *)
Fixpoint kite_loop (fuel : nat) (kite : Kite)
  (total_samples MIN_BLOCK_START MAX_BLOCK_END : Z)
  (out_index samples_remaining : Z) (plan : list segment)
  : M (list segment) :=
  match fuel with
  | O => out_of_fuel
  | S fuel' =>
      if out_index <? total_samples then
        let* block :=
          choose_block MIN_BLOCK_START MAX_BLOCK_END samples_remaining in
        let* '(out_index', samples_remaining') :=
          process_block fuel' kite out_index samples_remaining block in
        kite_loop fuel' kite total_samples MIN_BLOCK_START MAX_BLOCK_END
                  out_index' samples_remaining' (plan ++ [block])
      else ret plan
  end.

Definition run_Kite (fuel : nat) (instance : option Kite)
  (total_samples : Z) : M (list segment) :=
  if total_samples <=? 1 then
    printf "\nA sample count of 0 or 1 was sent to plugin." ;;
    printf "\nPlugin not executed.\n" ;;
    ret []
  else
    match instance with
    | None =>
        printf "\nPlugin received NULL pointer for plugin instance." ;;
        printf "\nPlugin not executed.\n" ;;
        ret []
    | Some kite =>
        if sample_rate kite =? 0 then
          printf "\nA sample rate of 0 was sent to plugin." ;;
          printf "\nPlugin not executed.\n" ;;
          ret []
        else
          let* MIN_BLOCK_START :=
            lift_option Unrepresentable
                        (MIN_BLOCK_START (sample_rate kite)) in
          let MAX_BLOCK_END :=
            MAX_BLOCK_END MIN_BLOCK_START (sample_rate kite) in
          kite_loop fuel kite total_samples MIN_BLOCK_START MAX_BLOCK_END
                    0 total_samples []
    end.

End Kite.

(** ** sb_adt.c *)

Module Adt.
Import Word Ieee Machine.
Local Open Scope machine_scope.

Definition MAX_OFFSET : Z := 200.
Definition MIN_OFFSET : Z := 5.

Definition LIMIT_BETWEEN_5_AND_200 (x : Z) : Z :=
  if x <? 5 then 5 else if 200 <? x then 200 else x.

Record Adt : Type := mkAdt {
  block_run_off : pointer;
  offset : pointer;
  sample_rate : LADSPA_Data;
  Input_Left : pointer;
  Input_Right : pointer;
  Output_Left : pointer;
  Output_Right : pointer
}.

Definition GetOffsetInSamples (sample_rate offset : LADSPA_Data) : option Z :=
  match to_int offset with
  | Some ms =>
      let offset_seconds :=
        float_div (float_of_Z (LIMIT_BETWEEN_5_AND_200 ms))
                  (float_of_Z 1000) in
      to_int (float_mul sample_rate offset_seconds)
  | None => None
  end.

Definition activate_Adt (adt : Adt) : M unit :=
  let* sample_offset :=
    lift_option Unrepresentable
      (GetOffsetInSamples (sample_rate adt) (float_of_Z MAX_OFFSET)) in
  memset_zero (block_run_off adt) sample_offset.

(** The four [for] loops of [run_Adt] have one shape: while [test] holds of
    the two indexes, copy [source[src_index]] to [destination[dest_index]]
    and step both.  The result is the indexes as the loop leaves them. *)
Fixpoint copy_while (fuel : nat) (test : Z -> Z -> bool)
  (destination source : pointer) (dest_index src_index : Z) : M (Z * Z) :=
  match fuel with
  | O => out_of_fuel
  | S fuel' =>
      if test dest_index src_index then
        let* v := load source src_index in
        store destination dest_index v ;;
        copy_while fuel' test destination source
                   (dest_index + 1) (src_index + 1)
      else ret (dest_index, src_index)
  end.

Definition run_Adt (fuel : nat) (instance : option Adt) (total_samples : Z)
  : M unit :=
  if total_samples <=? 1 then
    printf "\nA sample count of 0 or 1 was sent to plugin." ;;
    printf "\nPlugin not executed.\n"
  else
    match instance with
    | None =>
        printf "\nPlugin received NULL pointer for plugin instance." ;;
        printf "\nPlugin not executed.\n"
    | Some adt =>
        if SFltb (sample_rate adt) (float_of_Z 1000) then
          printf
            "\nPlugin received a sample rate below 100 samples per second." ;;
          printf "\nPlugin not executed.\n"
        else
          let* control := load (offset adt) 0 in
          let* SAMPLE_OFFSET :=
            lift_option Unrepresentable
                        (GetOffsetInSamples (sample_rate adt) control) in
          let run_off := block_run_off adt in
          (* left channel: input to output *)
          copy_while fuel (fun _ in_index => in_index <? total_samples)
                     (Output_Left adt) (Input_Left adt) 0 0 ;;
          (* run off buffer to the start of the right channel output *)
          let* '(out_index, _) :=
            copy_while fuel
                       (fun _ run_off_index => run_off_index <? SAMPLE_OFFSET)
                       (Output_Right adt) run_off 0 0 in
          (* right channel input to the rest of the right channel output *)
          let* '(_, in_index) :=
            copy_while fuel (fun out_index _ => out_index <? total_samples)
                       (Output_Right adt) (Input_Right adt) out_index 0 in
          (* left over right channel input to the run off buffer *)
          copy_while fuel (fun _ in_index => in_index <? total_samples)
                     run_off (Input_Right adt) 0 in_index ;;
          ret tt
    end.

(** An instance ready for [run_Adt] on [N] samples: its six pointers name
    different blocks; the control port holds [control]; the audio buffers
    hold [il], [ir], [ol] and [or], at least [N] samples each; the run off
    buffer holds [carry]. *)
Record connected (adt : Adt) (N : Z) (w : world) (control : LADSPA_Data)
  (il ir ol or carry : list LADSPA_Data) : Prop := mkConnected {
  distinct_blocks :
    NoDup [block_run_off adt; offset adt; Input_Left adt; Input_Right adt;
           Output_Left adt; Output_Right adt];
  control_value :
    exists rest, heap w !! offset adt = Some (control :: rest);
  input_left : heap w !! Input_Left adt = Some il;
  input_right : heap w !! Input_Right adt = Some ir;
  output_left : heap w !! Output_Left adt = Some ol;
  output_right : heap w !! Output_Right adt = Some or;
  run_off_block : heap w !! block_run_off adt = Some carry;
  input_left_length : N <= Z.of_nat (length il);
  input_right_length : N <= Z.of_nat (length ir);
  output_left_length : N <= Z.of_nat (length ol);
  output_right_length : N <= Z.of_nat (length or)
}.

End Adt.


(** ** The inputs of the worked scenarios *)

Module Scenario.
Import Word Ieee Machine.

(** A clock whose successive readings make the seeds 1, 2, 3, ... *)
Definition ticking (k : nat) : timeval :=
  {| tv_sec := 1; tv_usec := Z.of_nat (S k) |}.

(** The machine before any call: nothing stored or printed, the generator
    not yet initialised. *)
Definition boot (blocks : list (list LADSPA_Data)) : world :=
  {| heap := blocks; stores := []; stdout := []; clock := ticking;
     ticks := 0; rng := Xorgens.fresh |}.

(** The samples 0.0, 1.0, ..., n-1 and 0.0, -1.0, ..., -(n-1), as the
    unit tests fill their input buffers. *)
Definition ramp (n : nat) : list LADSPA_Data :=
  map (fun k => float_of_Z (Z.of_nat k)) (seq 0 n).
Definition ramp_down (n : nat) : list LADSPA_Data :=
  map (fun k => float_of_Z (- Z.of_nat k)) (seq 0 n).

(** An output buffer as the caller hands it over, filled with a sentinel. *)
Definition sentinel : LADSPA_Data := float_of_Z 77.
Definition untouched (n : nat) : list LADSPA_Data := replicate n sentinel.

(** Kite: ports 0-3 are input left, input right, output left, output right. *)
Definition kite (rate : Z) : Kite.Kite :=
  {| Kite.sample_rate := rate;
     Kite.Input_Left := 0; Kite.Input_Right := 1;
     Kite.Output_Left := 2; Kite.Output_Right := 3 |}.
Definition kite_world (n : nat) : world :=
  boot [ramp n; ramp_down n; untouched n; untouched n].

(** Reverse: input in block 0, output in block 1. *)
Definition reverse (rate : Z) : Reverse.Reverse :=
  {| Reverse.sample_rate := float_of_Z rate;
     Reverse.Input := 0; Reverse.Output := 1 |}.
Definition reverse_world (n : nat) : world :=
  boot [ramp n; untouched n].

(** Adt: the run off buffer (not yet initialised: any content, here the
    sentinel) in block 0, the control port in block 1, then input left,
    input right, output left, output right. *)
Definition adt (rate : Z) : Adt.Adt :=
  {| Adt.block_run_off := 0; Adt.offset := 1;
     Adt.sample_rate := float_of_Z rate;
     Adt.Input_Left := 2; Adt.Input_Right := 3;
     Adt.Output_Left := 4; Adt.Output_Right := 5 |}.
Definition adt_world (capacity : nat) (offset_ms : Z) (n : nat) : world :=
  boot [untouched capacity; [float_of_Z offset_ms];
        ramp_down n; ramp n; untouched n; untouched n].




End Scenario.


(** ** xorgens.c: the state of [xor4096i] between calls, and [xor4096r] *)

Module XorgensState.
Import Word Xorgens.

(** The statics hold values of their C types: [x] has [r] entries, every
    [UINT] is in range, and the cursor is -1 (no call yet) or an index of
    [x]. *)
Record well_formed (st : state) : Prop := mkWellFormed {
  x_length : length (x st) = Z.to_nat r;
  x_entries : Forall is_ulong (x st);
  w_range : is_ulong (w st);
  weyl_range : is_ulong (weyl st);
  i_range : -1 <= i st < r
}.

End XorgensState.

Module XorgensReal.
Import Word Xorgens Ieee.

(** [typedef double UREAL], eight bytes. *)
Definition sizeof_UREAL : Z := 8.
Definition UREAL64 : Z := Z.shiftr sizeof_UREAL 3.
Definition UREAL32 : Z := 1 - UREAL64.

(** The number of bits discarded and the scaling exponent. *)
Definition sr : Z := 11 * UREAL64 + (40 * UINT64 + 8 * UINT32) * UREAL32.
Definition ss : Z := (53 * UINT64 + 21 * UINT32) * UREAL64 + 24 * UREAL32.

Definition double_add : spec_float -> spec_float -> spec_float :=
  SFadd double_prec double_emax.
Definition double_div : spec_float -> spec_float -> spec_float :=
  SFdiv double_prec double_emax.

(** [((UREAL)1/(UREAL)((UINT)1<<ss))] and
    [((UREAL)1/((UREAL)65536*(UREAL)65536))]. *)
Definition SCALE : spec_float :=
  double_div (double_of_Z 1) (double_of_Z (shl 1 ss)).
Definition SC32 : spec_float :=
  double_div (double_of_Z 1)
             (double_mul (double_of_Z 65536) (double_of_Z 65536)).

(** [while (res == (UREAL)0)], entered with the current [res] and [seed];
    the result is [SCALE*res] and the generator state as the loop leaves
    it, or nothing when the fuel does not suffice. *)
Fixpoint xor4096r_loop (fuel : nat) (res : spec_float) (seed : Z)
  (st : state) : option (spec_float * state) :=
  match fuel with
  | O => None
  | S fuel' =>
      if SFeqb res (double_of_Z 0) then
        let '(v, st) := xor4096i seed st in
        let res := double_of_Z (shr v sr) in
        let seed := 0 in
        let '(res, st) :=
          if negb (UINT32 =? 0) && negb (UREAL64 =? 0) then
            let '(v, st) := xor4096i seed st in
            (double_add res (double_mul SC32 (double_of_Z v)), st)
          else (res, st) in
        xor4096r_loop fuel' res seed st
      else Some (double_mul SCALE res, st)
  end.

Definition xor4096r (fuel : nat) (seed : Z) (st : state)
  : option (spec_float * state) :=
  xor4096r_loop fuel (double_of_Z 0) seed st.

End XorgensReal.


(** ** What a plan of sub-blocks says of the buffers *)

Module Plan.
Import Machine.

(** The samples of [blk] in the sub-block [seg]. *)
Definition section (blk : list LADSPA_Data) (seg : segment)
  : list LADSPA_Data :=
  take (Z.to_nat (snd seg - fst seg + 1)) (drop (Z.to_nat (fst seg)) blk).

(** The sub-blocks of [plan], each one backwards, one after the other. *)
Definition reversed_by (plan : list segment) (input : list LADSPA_Data)
  : list LADSPA_Data :=
  concat (map (fun seg => rev (section input seg)) plan).

(** The lengths of the sub-blocks of a plan of [run_Reverse]: every
    sub-block but the last has between [MIN] and [MAX] samples; the last
    has no more than twice [MIN], and no fewer than [MIN] unless it is
    the only one ([first] tells that no sub-block comes before). *)
Fixpoint block_lengths (MIN MAX : Z) (first : bool) (plan : list segment)
  : Prop :=
  match plan with
  | [] => True
  | (s, e) :: rest =>
      match rest with
      | [] => e - s + 1 <= 2 * MIN /\ (first = false -> MIN <= e - s + 1)
      | _ :: _ =>
          MIN <= e - s + 1 <= MAX /\ block_lengths MIN MAX false rest
      end
  end.

End Plan.


(** ** What a draw shows *)

Module Draw.
Import Machine.

(** What a computation returns, with the generator state it leaves. *)
Definition drawn {A : Type} (o : outcome (A * world))
  : outcome (A * Xorgens.state) :=
  match o with
  | Done (a, w) => Done (a, rng w)
  | Fault f => Fault f
  | OutOfFuel => OutOfFuel
  end.

(** The seed [GetRandomNaturalNumber] makes of the next clock reading. *)
Definition next_seed (w : world) : Z :=
  Word.wrap (tv_usec (clock w (ticks w)) * tv_sec (clock w (ticks w))).

End Draw.


(** ** Rounding to nearest and truncation, on integers *)

Module Rounding.

(** [P / 2 ^ s] rounded to the nearest integer, ties to even. *)
Definition nearest_even (P s : Z) : Z :=
  let q := P / 2 ^ s in
  let rem := P mod 2 ^ s in
  let half := 2 ^ (s - 1) in
  if rem <? half then q
  else if rem =? half then (if Z.even q then q else q + 1)
  else q + 1.

(** The integral part of [M * 2 ^ g]. *)
Definition scaled (M g : Z) : Z :=
  if 0 <=? g then M * 2 ^ g else M / 2 ^ (- g).

End Rounding.

(** ** sb_esreveR.c: a sub-block reversed onto itself *)

Module InPlace.
Import Machine Plan.

(** What the copy [output[start + k] = input[end - k]], [k = 0, 1, ...],
    makes of a sub-block when the output is the input's own buffer: the
    second half backwards, then the second half (with the middle sample,
    when the count is odd) as it was. *)
Definition folded (blk : list LADSPA_Data) : list LADSPA_Data :=
  let h := Nat.div2 (length blk) in
  rev (drop (length blk - h) blk) ++ drop h blk.

Definition folded_by (plan : list segment) (input : list LADSPA_Data)
  : list LADSPA_Data :=
  concat (map (fun seg => folded (section input seg)) plan).

End InPlace.

(** * Properties *)

(** ** Machine integers *)

Module WordFacts.
Import Word.

Lemma ULONG_MAX_eq : ULONG_MAX = ULONG_MOD - 1.
Proof. reflexivity. Qed.

Lemma ULONG_MOD_eq : ULONG_MOD = 18446744073709551616.
Proof. reflexivity. Qed.

Lemma wrap_range z : 0 <= wrap z < ULONG_MOD.
Proof. unfold wrap. apply Z.mod_pos_bound. reflexivity. Qed.

Lemma wrap_small z : 0 <= z < ULONG_MOD -> wrap z = z.
Proof. intros H. unfold wrap. now apply Z.mod_small. Qed.

Lemma wrap_minus_one : wrap (0 - 1) = ULONG_MAX.
Proof. reflexivity. Qed.

End WordFacts.

(** ** xorgens.c: a zero seed after initialisation *)

Module XorgensFacts.
Import Word Xorgens.

Lemma cursor_nonneg k : 0 <= Z.land k (r - 1).
Proof. apply Z.land_nonneg. right. discriminate. Qed.

Lemma discard_cursor n p : 0 <= fst (Nat.iter (S n) discard_step p).
Proof.
  rewrite Nat.iter_succ. destruct (Nat.iter n discard_step p) as [i0 arr].
  unfold discard_step. cbn [fst]. apply cursor_nonneg.
Qed.

Lemma initialise_initialised seed st : initialised (initialise seed st).
Proof.
  unfold initialised, initialise.
  destruct (fold_left _ _ _) as [[v w1] arr].
  pose proof (discard_cursor (Z.to_nat (4 * r) - 1) (r - 1, arr)) as H.
  replace (S (Z.to_nat (4 * r) - 1)) with (Z.to_nat (4 * r)) in H
    by reflexivity.
  destruct (Nat.iter _ _ _) as [i1 arr']. exact H.
Qed.

Lemma generator_initialised st : initialised (snd (generator st)).
Proof. unfold initialised, generator. cbn [snd i]. apply cursor_nonneg. Qed.

Lemma xor4096i_initialised seed st : initialised (snd (xor4096i seed st)).
Proof.
  unfold xor4096i. destruct (_ || _); apply generator_initialised.
Qed.

(** With a state that exists and a zero seed the guard of the
    initialisation is false. *)
Lemma xor4096i_zero st :
  initialised st -> xor4096i zero st = generator st.
Proof.
  unfold initialised, xor4096i. intros H.
  replace (i st <? 0) with false by (symmetry; apply Z.ltb_ge; exact H).
  reflexivity.
Qed.

Lemma next_values_initialised n : forall st,
  initialised st -> initialised (snd (next_values n st)).
Proof.
  induction n as [|n IH]; intros st H; cbn [next_values]; [exact H|].
  destruct (xor4096i zero st) as [v st1] eqn:E1.
  specialize (IH st1).
  destruct (next_values n st1) as [vs st2]. cbn [snd] in *.
  apply IH. change st1 with (snd (v, st1)). rewrite <- E1.
  apply xor4096i_initialised.
Qed.

Lemma next_values_generator n : forall st,
  initialised st -> next_values n st = generator_values n st.
Proof.
  induction n as [|n IH]; intros st H; cbn [next_values generator_values];
    [reflexivity|].
  rewrite (xor4096i_zero st H).
  destruct (generator st) as [v st1] eqn:E1.
  rewrite IH; [reflexivity|].
  change st1 with (snd (v, st1)). rewrite <- E1. apply generator_initialised.
Qed.

(** What one generator step does to the static variables. *)
Lemma generator_effect st :
  let st' := snd (generator st) in
  weyl st' = weyl st
  /\ w st' = wrap (w st + weyl st)
  /\ i st' = Z.land (i st + 1) (r - 1)
  /\ length (x st') = length (x st)
  /\ (forall k : nat, Z.of_nat k <> i st' -> x st' !! k = x st !! k).
Proof.
  unfold generator. cbn [snd weyl w i x]. repeat split.
  - unfold set. apply length_insert.
  - intros k Hk. unfold set. apply list_lookup_insert_ne.
    intros E. apply Hk. rewrite <- E. rewrite Z2Nat.id; [reflexivity|].
    apply cursor_nonneg.
Qed.

(** C8. Once a first call with a nonzero seed has been made, in the state
    reached after any number [n] of further zero-seed calls, one more call
    with seed zero is exactly one generator step: the initialisation is
    skipped, [weyl] keeps its value, [w] advances by [weyl], the cursor
    advances by one modulo [r], and the circular array changes at the
    cursor only.  Hence [n] zero-seed calls are [n] generator steps. *)
Theorem xor4096i_zero_seed_only_steps :
  forall (seed0 : Z) (st0 : state) (n : nat),
    seed0 <> zero ->
    let st1 := snd (xor4096i seed0 st0) in
    let st := snd (next_values n st1) in
    let st' := snd (xor4096i zero st) in
    xor4096i zero st = generator st
    /\ next_values n st1 = generator_values n st1
    /\ weyl st' = weyl st
    /\ w st' = wrap (w st + weyl st)
    /\ i st' = Z.land (i st + 1) (r - 1)
    /\ length (x st') = length (x st)
    /\ (forall k : nat, Z.of_nat k <> i st' -> x st' !! k = x st !! k).
Proof.
  intros seed0 st0 n _ st1 st st'.
  assert (H1 : initialised st1) by apply xor4096i_initialised.
  assert (H : initialised st) by (apply next_values_initialised; exact H1).
  split; [apply xor4096i_zero; exact H|].
  split; [apply next_values_generator; exact H1|].
  subst st'. rewrite (xor4096i_zero st H). apply generator_effect.
Qed.

Lemma xor4096i_zero_seed_only_steps_witness :
  let st1 := snd (xor4096i 1 fresh) in
  let st := snd (next_values 2 st1) in
  let st' := snd (xor4096i zero st) in
  1 <> zero
  /\ xor4096i zero st = generator st
  /\ next_values 2 st1 = generator_values 2 st1
  /\ weyl st' = weyl st
  /\ w st' = wrap (w st + weyl st)
  /\ i st' = Z.land (i st + 1) (r - 1)
  /\ length (x st') = length (x st)
  /\ (forall k : nat, Z.of_nat k <> i st' -> x st' !! k = x st !! k).
Proof.
  intros st1 st st'.
  assert (H : 1 <> zero) by discriminate.
  split; [exact H|].
  exact (xor4096i_zero_seed_only_steps 1 fresh 2 H).
Defined.

End XorgensFacts.

(** ** The machine *)

Module MachineFacts.
Import Word Machine WordFacts.
Local Open Scope machine_scope.

Lemma bind_Done {A B : Type} (c : M A) (k : A -> M B) w a w' :
  c w = Done (a, w') -> bind c k w = k a w'.
Proof. unfold bind. intros ->. reflexivity. Qed.

Lemma bind_Fault {A B : Type} (c : M A) (k : A -> M B) w f :
  c w = Fault f -> bind c k w = Fault f.
Proof. unfold bind. intros ->. reflexivity. Qed.


Lemma drew_refl w : drew w w.
Proof. repeat split. Qed.

Lemma load_Done p k w blk v :
  heap w !! p = Some blk -> 0 <= k -> blk !! Z.to_nat k = Some v ->
  load p k w = Done (v, w).
Proof.
  intros Hp Hk Hv. unfold load. rewrite Hp.
  assert (Hlt : (Z.to_nat k < length blk)%nat)
    by (eapply lookup_lt_Some; eauto).
  replace ((0 <=? k) && (k <? Z.of_nat (length blk))) with true.
  - rewrite Hv. reflexivity.
  - symmetry. apply andb_true_iff.
    split; [apply Z.leb_le|apply Z.ltb_lt]; lia.
Qed.

Lemma load_in_range p k w blk :
  heap w !! p = Some blk -> 0 <= k < Z.of_nat (length blk) ->
  exists v, blk !! Z.to_nat k = Some v /\ load p k w = Done (v, w).
Proof.
  intros Hp Hk.
  destruct (lookup_lt_is_Some_2 blk (Z.to_nat k)) as [v Hv]; [lia|].
  exists v. split; [exact Hv|]. eapply load_Done; eauto. lia.
Qed.

Lemma store_Done p k v w blk :
  heap w !! p = Some blk -> 0 <= k < Z.of_nat (length blk) ->
  store p k v w =
    Done (tt, {| heap := <[p := <[Z.to_nat k := v]> blk]> (heap w);
                 stores := stores w ++ [(p, k)];
                 stdout := stdout w;
                 clock := clock w;
                 ticks := ticks w;
                 rng := rng w |}).
Proof.
  intros Hp Hk. unfold store. rewrite Hp.
  replace ((0 <=? k) && (k <? Z.of_nat (length blk))) with true;
    [reflexivity|].
  symmetry. apply andb_true_iff. split; [apply Z.leb_le|apply Z.ltb_lt]; lia.
Qed.

(** With [lower_bound <= upper_bound] (and a range that is not the whole
    type) the number drawn lies between the bounds, whatever the clock and
    the generator state; nothing but the clock's tick and the generator
    state changes. *)
Lemma GetRandomNaturalNumber_between lower upper w :
  0 <= lower <= upper -> upper < ULONG_MOD -> upper - lower + 1 < ULONG_MOD ->
  exists v w',
    GetRandomNaturalNumber lower upper w = Done (v, w')
    /\ lower <= v <= upper /\ drew w w'.
Proof.
  intros Hlu Hu Hm. unfold GetRandomNaturalNumber, gettimeofday, call_xor4096i.
  unfold bind at 1. unfold bind at 1. cbn [heap stores stdout clock ticks rng].
  destruct (Xorgens.xor4096i _ (rng w)) as [rand_num st].
  rewrite (wrap_small (upper - lower + 1)) by lia.
  replace (upper - lower + 1 =? 0) with false by (symmetry; apply Z.eqb_neq; lia).
  pose proof (Z.mod_pos_bound rand_num (upper - lower + 1)) as Hr.
  rewrite wrap_small by lia.
  eexists _, _. split; [reflexivity|]. split; [lia|]. repeat split.
Qed.



Lemma upto_S lo n : upto lo (S n) = lo :: upto (lo + 1) n.
Proof.
  unfold upto. cbn [seq map]. f_equal; [lia|].
  rewrite <- seq_shift, map_map. apply map_ext. intros j. lia.
Qed.

Lemma upto_app lo n m :
  upto lo (n + m) = upto lo n ++ upto (lo + Z.of_nat n) m.
Proof.
  revert lo. induction n as [|n IH]; intros lo.
  - replace (lo + Z.of_nat 0) with lo by lia. reflexivity.
  - change (S n + m)%nat with (S (n + m)). rewrite !upto_S, IH.
    cbn [app]. do 3 f_equal. lia.
Qed.

Lemma occurrences_upto lo n k :
  occurrences k (upto lo n)
  = if (lo <=? k) && (k <? lo + Z.of_nat n) then 1%nat else 0%nat.
Proof.
  revert lo. induction n as [|n IH]; intros lo.
  - cbn. destruct (lo <=? k) eqn:E1, (k <? lo + Z.of_nat 0) eqn:E2;
      try reflexivity.
    apply Z.leb_le in E1. apply Z.ltb_lt in E2. lia.
  - rewrite upto_S. unfold occurrences in *. cbn [List.filter].
    specialize (IH (lo + 1)).
    destruct (lo =? k) eqn:E.
    + apply Z.eqb_eq in E. subst k. cbn [length]. rewrite IH.
      replace (lo + 1 <=? lo) with false by (symmetry; apply Z.leb_gt; lia).
      replace (lo <=? lo) with true by (symmetry; apply Z.leb_le; lia).
      replace (lo <? lo + Z.of_nat (S n)) with true
        by (symmetry; apply Z.ltb_lt; lia).
      reflexivity.
    + apply Z.eqb_neq in E. rewrite IH.
      replace (lo + 1 + Z.of_nat n) with (lo + Z.of_nat (S n)) by lia.
      destruct (lo + 1 <=? k) eqn:E1, (lo <=? k) eqn:E2; try reflexivity;
        apply Z.leb_le in E1 || apply Z.leb_gt in E1;
        apply Z.leb_le in E2 || apply Z.leb_gt in E2; lia.
Qed.

End MachineFacts.

(** ** sb_esreveR.c: the loops of [run_Reverse] *)

Module ReverseFacts.
Import Word Machine Reverse WordFacts MachineFacts.
Local Open Scope machine_scope.

Section Loops.

Variables input_reader output_writer : pointer.
Variable N : Z.
Hypothesis N_ulong : 1 < N < ULONG_MOD.

Lemma store_keeps_buffers k v w w' :
  buffers_hold input_reader output_writer N w ->
  store output_writer k v w = Done (tt, w') ->
  buffers_hold input_reader output_writer N w'.
Proof.
  intros [[bi [Hi Li]] [bo [Ho Lo]]] Hs. unfold store in Hs. rewrite Ho in Hs.
  destruct (_ && _); [|discriminate]. injection Hs as <-.
  unfold buffers_hold. cbn [heap].
  assert (Hlt : (output_writer < length (heap w))%nat)
    by (eapply lookup_lt_Some; eauto).
  split.
  - destruct (decide (input_reader = output_writer)) as [->|Hne].
    + eexists. rewrite list_lookup_insert_eq by exact Hlt.
      split; [reflexivity|]. rewrite length_insert. exact Lo.
    + exists bi. rewrite list_lookup_insert_ne by congruence. auto.
  - eexists. rewrite list_lookup_insert_eq by exact Hlt.
    split; [reflexivity|]. rewrite length_insert. exact Lo.
Qed.

(** The inner loop on a sub-block of [n] samples starting at
    [start_position], entered with [in_index] on the sub-block's last sample
    (for [n = 0]: one before its start, which is the wrapped value
    [ULONG_MAX] when the start is 0).  It stops after [n] copies, with
    [in_index] one before the start. *)
Lemma reverse_block_copies : forall (n : nat) (start_position out_index : Z)
    (fuel : nat) (w : world),
  0 <= start_position -> start_position + Z.of_nat n <= N ->
  0 <= out_index -> out_index + Z.of_nat n <= N ->
  buffers_hold input_reader output_writer N w ->
  (n < fuel)%nat ->
  exists w',
    reverse_block fuel input_reader output_writer start_position
                  (wrap (start_position + Z.of_nat n - 1)) out_index w
    = Done ((wrap (start_position - 1), out_index + Z.of_nat n), w')
    /\ buffers_hold input_reader output_writer N w'
    /\ stored output_writer (upto out_index n) w w'
    /\ ticks w' = ticks w /\ rng w' = rng w.
Proof.
  induction n as [|n IH]; intros start_position out_index fuel w
    Hs Hsn Ho Hon Hb Hf.
  - destruct fuel as [|fuel]; [lia|]. cbn [reverse_block].
    replace (start_position + Z.of_nat 0 - 1) with (start_position - 1) by lia.
    assert (Hexit : (start_position <=? wrap (start_position - 1))
                    && negb (wrap (start_position - 1) =? 0xFFFFFFFFFFFFFFFF)
                    = false).
    { destruct (Z.eq_dec start_position 0) as [->|Hnz].
      - reflexivity.
      - rewrite wrap_small by (unfold ULONG_MOD in *; cbn in *; lia).
        apply andb_false_iff. left. apply Z.leb_gt. lia. }
    rewrite Hexit. exists w. split.
    + unfold ret. do 3 f_equal. lia.
    + split; [exact Hb|]. split; [|split; reflexivity].
      unfold stored, upto. cbn [seq map]. rewrite app_nil_r. repeat split.
  - destruct fuel as [|fuel]; [lia|]. cbn [reverse_block].
    pose proof ULONG_MOD_eq as HM.
    assert (Hidx : wrap (start_position + Z.of_nat (S n) - 1)
                   = start_position + Z.of_nat n)
      by (rewrite wrap_small by lia; lia).
    rewrite Hidx.
    replace ((start_position <=? start_position + Z.of_nat n)
             && negb (start_position + Z.of_nat n =? 0xFFFFFFFFFFFFFFFF))
      with true.
    2:{ symmetry. apply andb_true_iff. split; [apply Z.leb_le; lia|].
        apply negb_true_iff. apply Z.eqb_neq. lia. }
    destruct Hb as [[bi [Hi Li]] [bo [Hob Lo]]].
    destruct (load_in_range input_reader (start_position + Z.of_nat n) w bi Hi)
      as [v [_ Hload]]; [lia|].
    rewrite (bind_Done _ _ _ _ _ Hload).
    pose proof (store_Done output_writer out_index v w bo Hob) as Hstore.
    specialize (Hstore ltac:(lia)).
    rewrite (bind_Done _ _ _ _ _ Hstore).
    set (w1 := mkWorld _ _ _ _ _ _) in *.
    assert (Hb1 : buffers_hold input_reader output_writer N w1).
    { eapply store_keeps_buffers; [|exact Hstore].
      split; [exists bi|exists bo]; auto. }
    rewrite (wrap_small (out_index + 1)) by lia.
    destruct (IH start_position (out_index + 1) fuel w1) as [w' [Hrun [Hb' [Hst [Ht Hr]]]]];
      try lia; [exact Hb1|].
    replace (start_position + Z.of_nat n - 1)
      with (start_position + Z.of_nat n - 1) in Hrun by reflexivity.
    exists w'. split.
    + rewrite Hrun. do 3 f_equal. lia.
    + split; [exact Hb'|]. split; [|split; [rewrite Ht|rewrite Hr]; reflexivity].
      destruct Hst as [Hs1 [Hs2 Hs3]]. unfold stored.
      rewrite Hs1, Hs2, Hs3. subst w1. cbn [stores stdout clock].
      rewrite upto_S. cbn [map]. rewrite <- app_assoc. repeat split.
Qed.

Lemma drew_keeps_buffers w w' :
  drew w w' ->
  buffers_hold input_reader output_writer N w ->
  buffers_hold input_reader output_writer N w'.
Proof. intros [Hh _]. unfold buffers_hold. rewrite Hh. auto. Qed.

Lemma stored_trans p ks1 ks2 w w1 w2 :
  stored p ks1 w w1 -> stored p ks2 w1 w2 -> stored p (ks1 ++ ks2) w w2.
Proof.
  intros [A1 [A2 A3]] [B1 [B2 B3]]. unfold stored.
  rewrite B1, B2, B3, A1, A2, A3, map_app, app_assoc. repeat split.
Qed.

Lemma drew_stored p w w' : drew w w' -> stored p [] w w'.
Proof.
  intros [_ [H1 [H2 H3]]]. unfold stored.
  rewrite H1, H2, H3, app_nil_r. repeat split.
Qed.

Lemma tiles_snoc plan lo mid hi :
  tiles plan lo mid -> mid <= hi -> tiles (plan ++ [(mid, hi)]) lo (hi + 1).
Proof.
  revert lo. induction plan as [|[s e] plan IH]; intros lo H Hle.
  - cbn in *. subst. repeat split. exact Hle.
  - cbn in *. destruct H as [H1 [H2 H3]]. repeat split; auto.
Qed.

Lemma tiles_cons s e plan hi :
  s <= e -> tiles plan (e + 1) hi -> tiles ((s, e) :: plan) s hi.
Proof. intros. cbn. auto. Qed.

Variables MIN MAX : Z.
Hypothesis MIN_pos : 1 <= MIN.
Hypothesis MIN_MAX : MIN <= MAX < ULONG_MOD.
Hypothesis no_wrap :
  forall c, 0 <= c -> c + 2 * MIN < N -> c + MAX < ULONG_MOD.

(** The outer loop entered with [start_position = out_index = c]: it ends,
    and the sub-blocks it goes through tile [c .. N-1]. *)
Lemma reverse_loop_tiles : forall (m : nat) (c j : Z) (plan : list segment)
    (fuel : nat) (w : world),
  N - c <= Z.of_nat m -> 0 <= c < N ->
  c = 0 \/ (MIN < N /\ c <= N - MIN) ->
  buffers_hold input_reader output_writer N w ->
  (Z.to_nat (N - c) + 2 <= fuel)%nat ->
  exists segs w',
    reverse_loop fuel input_reader output_writer N MIN MAX c j c plan w
    = Done (plan ++ segs, w')
    /\ tiles segs c N
    /\ buffers_hold input_reader output_writer N w'
    /\ stored output_writer (upto c (Z.to_nat (N - c))) w w'.
Proof.
  pose proof ULONG_MOD_eq as HM.
  induction m as [|m IH]; intros c j plan fuel w Hm Hc Hinv Hb Hf; [lia|].
  destruct fuel as [|fuel]; [lia|]. cbn [reverse_loop].
  replace (c <? N) with true by (symmetry; apply Z.ltb_lt; lia).
  destruct ((N <=? MIN) || (wrap (N - MIN) <=? wrap (c + MIN))) eqn:Hfinal.
  - (* the sub-block runs to the end of the buffer *)
    unfold bind at 1. unfold ret at 1.
    rewrite (wrap_small (N - 1)) by lia.
    destruct (reverse_block_copies (Z.to_nat (N - c)) c c fuel w)
      as [w1 [Hrun [Hb1 [Hst _]]]]; try lia; [exact Hb|].
    replace (c + Z.of_nat (Z.to_nat (N - c)) - 1) with (N - 1) in Hrun by lia.
    rewrite (wrap_small (N - 1)) in Hrun by lia.
    rewrite (bind_Done _ _ _ _ _ Hrun).
    destruct fuel as [|fuel]; [lia|]. cbn [reverse_loop].
    replace (c + Z.of_nat (Z.to_nat (N - c)) <? N) with false
      by (symmetry; apply Z.ltb_ge; lia).
    exists [(c, N - 1)], w1. split; [reflexivity|].
    split; [|split; [exact Hb1|exact Hst]].
    cbn. repeat split; lia.
  - (* the end of the sub-block is drawn *)
    apply orb_false_iff in Hfinal. destruct Hfinal as [H1 H2].
    apply Z.leb_gt in H1. rewrite (wrap_small (N - MIN)) in * by lia.
    rewrite (wrap_small (c + MIN)) in * by lia.
    apply Z.leb_gt in H2.
    assert (HcM : c + MAX < ULONG_MOD) by (apply no_wrap; lia).
    rewrite (wrap_small (c + MAX)) by lia.
    set (upper := if N - MIN <? c + MAX then N - MIN else c + MAX).
    assert (Hup : c + MIN <= upper <= N - MIN).
    { subst upper. destruct (N - MIN <? c + MAX) eqn:E;
        [apply Z.ltb_lt in E|apply Z.ltb_ge in E]; lia. }
    destruct (GetRandomNaturalNumber_between (c + MIN) upper w)
      as [v [w1 [Hdraw [Hv Hd]]]]; try lia.
    unfold bind at 1. unfold bind at 1. rewrite Hdraw. unfold ret at 1.
    rewrite (wrap_small (v - 1)) by lia.
    destruct (reverse_block_copies (Z.to_nat (v - c)) c c fuel w1)
      as [w2 [Hrun [Hb2 [Hst _]]]]; try lia;
      [eapply drew_keeps_buffers; eauto|].
    replace (c + Z.of_nat (Z.to_nat (v - c)) - 1) with (v - 1) in Hrun by lia.
    rewrite (wrap_small (v - 1)) in Hrun by lia.
    rewrite (bind_Done _ _ _ _ _ Hrun).
    replace (c + Z.of_nat (Z.to_nat (v - c))) with v by lia.
    destruct (IH v (wrap (c - 1)) (plan ++ [(c, v - 1)]) fuel w2)
      as [segs [w3 [Hloop [Ht [Hb3 Hst3]]]]]; try lia; [exact Hb2|].
    exists ((c, v - 1) :: segs), w3. split.
    + rewrite Hloop. rewrite <- app_assoc. reflexivity.
    + split; [|split; [exact Hb3|]].
      * apply tiles_cons; [lia|]. replace (v - 1 + 1) with v by lia. exact Ht.
      * replace (Z.to_nat (N - c))
          with (Z.to_nat (v - c) + Z.to_nat (N - v))%nat by lia.
        rewrite upto_app. replace (c + Z.of_nat (Z.to_nat (v - c))) with v by lia.
        apply (stored_trans _ _ _ w w2 w3); [|exact Hst3].
        replace (upto c (Z.to_nat (v - c)))
          with ([] ++ upto c (Z.to_nat (v - c))) by reflexivity.
        apply (stored_trans _ _ _ w w1 w2); [|exact Hst].
        apply drew_stored. exact Hd.
Qed.

End Loops.
End ReverseFacts.

(** ** The two lengths of [run_Reverse] as IEEE arithmetic gives them *)

Module FloatFacts.
Import Word Ieee.

(** The number of binary digits of a positive number. *)
Lemma digits2_pos_bounds (p : positive) :
  2 ^ (Zpos (digits2_pos p) - 1) <= Zpos p < 2 ^ Zpos (digits2_pos p).
Proof.
  induction p as [p IH|p IH|]; cbn [digits2_pos].
  - rewrite Pos2Z.inj_succ.
    replace (Z.succ (Z.pos (digits2_pos p)) - 1)
      with (Z.succ (Z.pos (digits2_pos p) - 1)) by lia.
    rewrite !Z.pow_succ_r by lia. lia.
  - rewrite Pos2Z.inj_succ.
    replace (Z.succ (Z.pos (digits2_pos p)) - 1)
      with (Z.succ (Z.pos (digits2_pos p) - 1)) by lia.
    rewrite !Z.pow_succ_r by lia. lia.
  - cbn. lia.
Qed.

Lemma digits2_pos_unique (p : positive) (k : Z) :
  2 ^ (k - 1) <= Zpos p < 2 ^ k -> Zpos (digits2_pos p) = k.
Proof.
  intros [Hlo Hhi]. pose proof (digits2_pos_bounds p) as [Blo Bhi].
  set (d := Zpos (digits2_pos p)) in *.
  assert (Hd : 0 < d) by (subst d; lia).
  destruct (Z.lt_trichotomy d k) as [Hlt|[Heq|Hgt]]; [exfalso|exact Heq|exfalso].
  - assert (2 ^ d <= 2 ^ (k - 1)) by (apply Z.pow_le_mono_r; lia). lia.
  - destruct (Z.le_gt_cases 0 k) as [Hk|Hk].
    + assert (2 ^ k <= 2 ^ (d - 1)) by (apply Z.pow_le_mono_r; lia). lia.
    + rewrite (Z.pow_neg_r 2 k) in Hhi by lia. lia.
Qed.

(** [shr_1] halves the mantissa and keeps track of the bits lost. *)
Lemma shr_1_halves (mrs : shr_record) :
  0 <= shr_m mrs ->
  shr_m (shr_1 mrs) = shr_m mrs / 2
  /\ shr_r (shr_1 mrs) = Z.odd (shr_m mrs)
  /\ shr_s (shr_1 mrs) = shr_r mrs || shr_s mrs.
Proof.
  destruct mrs as [m r s]. cbn [shr_m shr_r shr_s]. intros Hm.
  destruct m as [|p|p]; [| |lia].
  - cbn. auto.
  - destruct p as [p|p|]; cbn [shr_1 shr_m shr_r shr_s].
    + split; [|split; reflexivity].
      rewrite Pos2Z.inj_xI.
      apply (Z.div_unique (2 * Z.pos p + 1) 2 (Z.pos p) 1); lia.
    + split; [|split; reflexivity].
      rewrite Pos2Z.inj_xO.
      apply (Z.div_unique (2 * Z.pos p) 2 (Z.pos p) 0); lia.
    + split; [reflexivity|split; reflexivity].
Qed.

Lemma iter_pos_is_iter {A : Type} (f : A -> A) (n : positive) (x : A) :
  SpecFloat.iter_pos f n x = Pos.iter f x n.
Proof.
  revert x. induction n as [n IH|n IH|]; intros x; cbn [SpecFloat.iter_pos Pos.iter].
  - rewrite !IH. rewrite <- !Pos.iter_swap. reflexivity.
  - rewrite !IH. reflexivity.
  - reflexivity.
Qed.

(** [n] steps of [shr_1] divide by [2 ^ n]; nothing is recorded as lost
    when the division is exact. *)
Lemma iter_shr_1 (P : Z) (n : positive) :
  0 <= P ->
  let mrs := SpecFloat.iter_pos shr_1 n (Build_shr_record P false false) in
  shr_m mrs = P / 2 ^ Zpos n
  /\ (P mod 2 ^ Zpos n = 0 -> shr_r mrs = false /\ shr_s mrs = false).
Proof.
  intros HP. cbn zeta. rewrite iter_pos_is_iter.
  induction n as [|n IH] using Pos.peano_ind.
  - cbn [Pos.iter].
    destruct (shr_1_halves (Build_shr_record P false false) HP)
      as [H1 [H2 H3]].
    cbn [shr_m shr_r shr_s] in *. rewrite H1, H2, H3.
    change (2 ^ 1) with 2. split; [reflexivity|].
    intros Hmod. split; [|reflexivity].
    rewrite Zmod_odd in Hmod. destruct (Z.odd P); [discriminate|reflexivity].
  - rewrite Pos.iter_succ. destruct IH as [IHm IHe].
    set (mrs := Pos.iter shr_1 (Build_shr_record P false false) n) in *.
    assert (Hq : 0 <= shr_m mrs).
    { rewrite IHm. apply Z.div_pos; [exact HP|]. apply Z.pow_pos_nonneg; lia. }
    destruct (shr_1_halves mrs Hq) as [H1 [H2 H3]].
    rewrite H1, H2, H3, IHm.
    rewrite Pos2Z.inj_succ, Z.pow_succ_r by lia.
    assert (Hpow : 0 < 2 ^ Z.pos n) by (apply Z.pow_pos_nonneg; lia).
    split.
    + rewrite Z.div_div by lia. f_equal. lia.
    + intros Hmod.
      assert (Hmodn : P mod 2 ^ Z.pos n = 0).
      { apply Z.mod_divide in Hmod; [|lia]. apply Z.mod_divide; [lia|].
        destruct Hmod as [c Hc]. exists (2 * c). lia. }
      destruct (IHe Hmodn) as [Hr Hs]. rewrite Hr, Hs.
      split; [|reflexivity].
      rewrite <- Z.negb_even.
      assert (He : Z.even (P / 2 ^ Z.pos n) = true).
      { apply Z.mod_divide in Hmod; [|lia]. destruct Hmod as [c Hc].
        rewrite Hc. replace (c * (2 * 2 ^ Z.pos n))
          with (2 * c * 2 ^ Z.pos n) by lia.
        rewrite Z.div_mul by lia. rewrite Z.even_mul. reflexivity. }
      rewrite He. reflexivity.
Qed.

(** The first shift of [binary_round_aux] on a mantissa of [d >= 53]
    digits. *)
Lemma shr_to_precision (P : positive) (E d : Z) :
  Zpos (digits2_pos P) = d -> 53 <= d -> -1074 <= d + E - 53 ->
  exists mrs,
    shr_fexp double_prec double_emax (Zpos P) E loc_Exact = (mrs, E + (d - 53))
    /\ shr_m mrs = Zpos P / 2 ^ (d - 53)
    /\ (Zpos P mod 2 ^ (d - 53) = 0 ->
        shr_r mrs = false /\ shr_s mrs = false).
Proof.
  intros Hd H53 Hn. unfold shr_fexp, fexp, emin, double_prec, double_emax.
  cbn [Zdigits2 shr_record_of_loc]. rewrite Hd.
  rewrite Z.max_l by lia.
  replace (d + E - 53 - E) with (d - 53) by lia.
  destruct (d - 53) as [|n|n] eqn:En; [| |lia].
  - cbn [SpecFloat.shr]. eexists. split; [rewrite Z.add_0_r; reflexivity|].
    cbn [shr_m shr_r shr_s]. rewrite Z.pow_0_r, Z.div_1_r. auto.
  - cbn [SpecFloat.shr]. eexists. split; [reflexivity|].
    apply (iter_shr_1 (Zpos P) n). lia.
Qed.

Lemma round_nearest_even_near (q : Z) (l : location) :
  q <= round_nearest_even q l <= q + 1.
Proof.
  unfold round_nearest_even. destruct l as [|[]]; try lia.
  destruct (Z.even q); lia.
Qed.

(** [binary_round_aux] on a product mantissa of [d >= 53] digits, in the
    normal range, followed by the conversion to an integer: the mantissa is
    divided by [2 ^ (d - 53)], rounded to one of its two neighbours (to
    the quotient itself when the division is exact), and the result
    scaled by the exponent is truncated. *)
Lemma round_then_truncate (P : positive) (E d : Z) :
  Zpos (digits2_pos P) = d -> 53 <= d -> -1074 <= d + E - 53 ->
  d + E <= 1023 ->
  exists mz,
    Zpos P / 2 ^ (d - 53) <= mz <= Zpos P / 2 ^ (d - 53) + 1
    /\ (Zpos P mod 2 ^ (d - 53) = 0 -> mz = Zpos P / 2 ^ (d - 53))
    /\ truncate (binary_round_aux double_prec double_emax false
                                  (Zpos P) E loc_Exact)
       = Some (if 0 <=? E + (d - 53) then mz * 2 ^ (E + (d - 53))
               else mz / 2 ^ (- (E + (d - 53)))).
Proof.
  intros Hd H53 Hn Hmax.
  destruct (shr_to_precision P E d Hd H53 Hn) as [mrs [Hshr [Hm Hex]]].
  set (n := d - 53) in *. set (s := E + n) in *.
  set (q := Zpos P / 2 ^ n) in *.
  assert (Hpow : 0 < 2 ^ n) by (apply Z.pow_pos_nonneg; lia).
  (* the quotient has exactly 53 digits *)
  pose proof (digits2_pos_bounds P) as [Blo Bhi]. rewrite Hd in Blo, Bhi.
  assert (Hq : 2 ^ 52 <= q < 2 ^ 53).
  { subst q. split.
    - apply Z.div_le_lower_bound; [lia|].
      rewrite <- Z.pow_add_r by lia. replace (n + 52) with (d - 1) by lia.
      exact Blo.
    - apply Z.div_lt_upper_bound; [lia|].
      rewrite <- Z.pow_add_r by lia. replace (n + 53) with d by lia.
      exact Bhi. }
  set (mz := round_nearest_even (shr_m mrs) (loc_of_shr_record mrs)).
  assert (Hmz : q <= mz <= q + 1)
    by (subst mz; rewrite Hm; apply round_nearest_even_near).
  assert (Hmzex : Zpos P mod 2 ^ n = 0 -> mz = q).
  { intros H0. destruct (Hex H0) as [Hr Hs]. subst mz.
    destruct mrs as [m0 r0 s0]. cbn [shr_m shr_r shr_s] in *. subst r0 s0.
    cbn. exact Hm. }
  exists mz. split; [exact Hmz|]. split; [exact Hmzex|].
  unfold binary_round_aux. rewrite Hshr. fold mz.
  change (2 ^ 52) with 4503599627370496 in Hq.
  change (2 ^ 53) with 9007199254740992 in Hq.
  destruct mz as [|pm|pm] eqn:Emz; [lia| |lia].
  destruct (Z.eq_dec (Zpos pm) 9007199254740992) as [Etop|Hlt].
  - (* the rounding carried into a 54th digit *)
    injection Etop as ->.
    unfold shr_fexp. change (Zdigits2 9007199254740992) with 54.
    unfold fexp, emin, double_prec, double_emax.
    cbn [shr_record_of_loc].
    rewrite Z.max_l by lia.
    replace (54 + s - 53 - s) with 1 by lia.
    cbn [SpecFloat.shr SpecFloat.iter_pos shr_1 shr_m].
    replace (s + 1 <=? 1024 - 53) with true by (symmetry; apply Z.leb_le; lia).
    cbn [truncate cond_Zopp]. f_equal.
    destruct (0 <=? s) eqn:Es; [apply Z.leb_le in Es|apply Z.leb_gt in Es].
    + replace (0 <=? s + 1) with true by (symmetry; apply Z.leb_le; lia).
      rewrite Z.pow_add_r by lia. lia.
    + destruct (Z.eq_dec s (-1)) as [->|Hs1].
      * reflexivity.
      * replace (0 <=? s + 1) with false by (symmetry; apply Z.leb_gt; lia).
        replace (- s) with (1 + - (s + 1)) by lia.
        rewrite Z.pow_add_r by lia.
        change (2 ^ 1) with 2.
        change 9007199254740992 with (2 * 4503599627370496).
        assert (0 < 2 ^ (- (s + 1))) by (apply Z.pow_pos_nonneg; lia).
        rewrite Z.div_mul_cancel_l by lia. reflexivity.
  - assert (Hdig : Zpos (digits2_pos pm) = 53).
    { apply digits2_pos_unique. change (2 ^ (53 - 1)) with 4503599627370496.
      change (2 ^ 53) with 9007199254740992. lia. }
    unfold shr_fexp, fexp, emin, double_prec, double_emax.
    cbn [Zdigits2 shr_record_of_loc]. rewrite Hdig.
    rewrite Z.max_l by lia.
    replace (53 + s - 53 - s) with 0 by lia.
    cbn [SpecFloat.shr shr_m].
    replace (s <=? 1024 - 53) with true by (symmetry; apply Z.leb_le; lia).
    cbn [truncate cond_Zopp]. reflexivity.
Qed.

(** [binary_round_aux] leaves a 53-digit mantissa in range as it is. *)
Lemma round_exact (sx : bool) (P : positive) (E : Z) :
  Zpos (digits2_pos P) = 53 -> -1074 <= E <= 971 ->
  binary_round_aux double_prec double_emax sx (Zpos P) E loc_Exact
  = S754_finite sx P E.
Proof.
  intros Hd HE. unfold binary_round_aux, shr_fexp, fexp, emin.
  unfold double_prec, double_emax.
  cbn [Zdigits2 shr_record_of_loc]. rewrite Hd.
  rewrite Z.max_l by lia. replace (53 + E - 53 - E) with 0 by lia.
  cbn [SpecFloat.shr shr_m loc_of_shr_record round_nearest_even
       Zdigits2 shr_record_of_loc].
  rewrite Hd. rewrite Z.max_l by lia. replace (53 + E - 53 - E) with 0 by lia.
  cbn [SpecFloat.shr shr_m].
  replace (E <=? 1024 - 53) with true by (symmetry; apply Z.leb_le; lia).
  reflexivity.
Qed.

(** A binary32 number that is not below 10.0: its mantissa has 24 digits
    and its exponent is at least -20. *)
Lemma float_at_least_10 (rate : spec_float) :
  valid_binary float_prec float_emax rate = true ->
  SFltb rate (float_of_Z 10) = false ->
  rate = S754_nan \/ rate = S754_infinity false
  \/ exists (m : positive) (e : Z),
       rate = S754_finite false m e
       /\ 8388608 <= Zpos m < 16777216 /\ -20 <= e <= 104
       /\ (e = -20 -> 10485760 <= Zpos m).
Proof.
  intros Hvalid Hlt.
  change (float_of_Z 10) with (S754_finite false 10485760 (-20)) in Hlt.
  destruct rate as [sg|sg| |sg m e].
  - discriminate Hlt.
  - destruct sg; [discriminate Hlt|]. right. left. reflexivity.
  - left. reflexivity.
  - right. right. destruct sg; [discriminate Hlt|].
    unfold SFltb, SFcompare in Hlt.
    cbn [valid_binary] in Hvalid. unfold bounded, canonical_mantissa in Hvalid.
    apply andb_true_iff in Hvalid. destruct Hvalid as [Hcan Hbound].
    apply Z.eqb_eq in Hcan. apply Z.leb_le in Hbound.
    unfold fexp, emin, float_prec, float_emax in *.
    pose proof (digits2_pos_bounds m) as Hdig.
    destruct (Z.compare_spec e (-20)) as [He|He|He]; [| discriminate Hlt|].
    + subst e. assert (Hd : Zpos (digits2_pos m) = 24) by lia.
      rewrite Hd in Hdig. change (2 ^ (24 - 1)) with 8388608 in Hdig.
      change (2 ^ 24) with 16777216 in Hdig.
      exists m, (-20). split; [reflexivity|]. split; [lia|]. split; [lia|].
      intros _.
      rewrite Pos.compare_cont_spec in Hlt.
      destruct (Pos.compare_spec m 10485760) as [Ec|Ec|Ec];
        [subst m; lia|discriminate Hlt|lia].
    + assert (Hd : Zpos (digits2_pos m) = 24) by lia.
      rewrite Hd in Hdig. change (2 ^ (24 - 1)) with 8388608 in Hdig.
      change (2 ^ 24) with 16777216 in Hdig.
      exists m, e. split; [reflexivity|]. split; [lia|]. split; lia.
Qed.

(** The promotion of such a number to [double]. *)
Lemma double_of_float_normal (m : positive) (e : Z) :
  8388608 <= Zpos m < 16777216 -> -1045 <= e <= 1000 ->
  double_of_float (S754_finite false m e)
  = S754_finite false (m * 536870912) (e - 29).
Proof.
  intros Hm He. unfold double_of_float.
  cbn [cond_Zopp binary_normalize]. unfold binary_round.
  assert (Hd : Zpos (digits2_pos m) = 24).
  { apply digits2_pos_unique. change (2 ^ (24 - 1)) with 8388608.
    change (2 ^ 24) with 16777216. exact Hm. }
  rewrite Hd. unfold fexp, emin, double_prec, double_emax.
  rewrite Z.max_l by lia. unfold shl_align.
  replace (24 + e - 53 - e) with (-29) by lia.
  replace (24 + e - 53) with (e - 29) by lia.
  assert (Hshift : Pos.iter xO m 29 = (m * 536870912)%positive).
  { apply Pos2Z.inj. rewrite Pos2Z.inj_mul. cbn [Pos.iter]. lia. }
  rewrite Hshift.
  apply (round_exact false (m * 536870912) (e - 29)); [|lia].
  apply digits2_pos_unique. rewrite Pos2Z.inj_mul.
  change (2 ^ (53 - 1)) with 4503599627370496.
  change (2 ^ 53) with 9007199254740992. lia.
Qed.

End FloatFacts.

Module FloatLengths.
Import Word Ieee Machine Reverse FloatFacts.

(** The mantissa products of [0.2 * rate] and [1.5 * rate]. *)
Lemma MIN_SAMPLES_product (m : positive) (e : Z) :
  8388608 <= Zpos m < 16777216 -> -20 <= e <= 104 ->
  MIN_SAMPLES (S754_finite false m e)
  = to_ulong (binary_round_aux double_prec double_emax false
                (Zpos (7205759403792794 * (m * 536870912)))
                (-55 + (e - 29)) loc_Exact).
Proof.
  intros Hm He. unfold MIN_SAMPLES.
  rewrite double_of_float_normal by lia. reflexivity.
Qed.

Lemma MAX_SAMPLES_product (m : positive) (e : Z) :
  8388608 <= Zpos m < 16777216 -> -20 <= e <= 104 ->
  MAX_SAMPLES (S754_finite false m e)
  = to_ulong (binary_round_aux double_prec double_emax false
                (Zpos (6755399441055744 * (m * 536870912)))
                (-52 + (e - 29)) loc_Exact).
Proof.
  intros Hm He. unfold MAX_SAMPLES.
  rewrite double_of_float_normal by lia. reflexivity.
Qed.

(** The digits of a product of two 53-digit mantissas. *)
Lemma product_digits (P : positive) :
  2 ^ 104 <= Zpos P < 2 ^ 106 ->
  (Zpos P < 2 ^ 105 /\ Zpos (digits2_pos P) = 105)
  \/ (2 ^ 105 <= Zpos P /\ Zpos (digits2_pos P) = 106).
Proof.
  intros H. destruct (Z.lt_ge_cases (Zpos P) (2 ^ 105)) as [Hlt|Hge].
  - left. split; [exact Hlt|]. apply digits2_pos_unique.
    change (105 - 1) with 104. lia.
  - right. split; [exact Hge|]. apply digits2_pos_unique.
    change (106 - 1) with 105. lia.
Qed.

(** Closed powers of two and closed sign tests in [H], evaluated. *)
Ltac evaluate_in H :=
  repeat match type of H with
         | context [2 ^ ?k] =>
             let v := eval vm_compute in (2 ^ k) in
             progress change (2 ^ k) with v in H
         | context [0 <=? ?k] =>
             let v := eval vm_compute in (0 <=? k) in
             progress change (0 <=? k) with v in H
         end;
  cbv iota in H.

(** The two lengths at one exponent [e] of the rate, a closed number: both
    products are rounded to 53 digits and truncated, and what is left is
    linear arithmetic on the mantissa [m]. *)
Ltac lengths_at_exponent e m HMAX :=
  rewrite (MAX_SAMPLES_product m e) in HMAX by lia;
  rewrite (MIN_SAMPLES_product m e) by lia;
  set (P := (7205759403792794 * (m * 536870912))%positive) in *;
  set (P' := (6755399441055744 * (m * 536870912))%positive) in *;
  assert (HP : Zpos P = 7205759403792794 * (Zpos m * 536870912))
    by (subst P; rewrite !Pos2Z.inj_mul; reflexivity);
  assert (HP' : Zpos P' = 6755399441055744 * (Zpos m * 536870912))
    by (subst P'; rewrite !Pos2Z.inj_mul; reflexivity);
  assert (HPr : 2 ^ 104 <= Zpos P < 2 ^ 106)
    by (change (2 ^ 104) with 20282409603651670423947251286016;
        change (2 ^ 106) with 81129638414606681695789005144064; lia);
  assert (HPr' : 2 ^ 104 <= Zpos P' < 2 ^ 106)
    by (change (2 ^ 104) with 20282409603651670423947251286016;
        change (2 ^ 106) with 81129638414606681695789005144064; lia);
  destruct (product_digits P HPr) as [[Hr Hd]|[Hr Hd]];
  destruct (product_digits P' HPr') as [[Hr' Hd']|[Hr' Hd']];
  clear HPr HPr' Hr Hr';
  (destruct (round_then_truncate P (-55 + (e - 29)) _ Hd)
     as [mz [Hmz [_ Ht]]]; [lia|lia|lia|]);
  (destruct (round_then_truncate P' (-52 + (e - 29)) _ Hd')
     as [mz' [Hmz' [Hex' Ht']]]; [lia|lia|lia|]);
  evaluate_in Ht; evaluate_in Ht'; evaluate_in Hmz; evaluate_in Hmz';
  evaluate_in Hex';
  match type of Hex' with
  | Zpos ?Q mod ?c = 0 -> _ =>
      let k := eval vm_compute in (6755399441055744 * 536870912 / c) in
      assert (Hz : Zpos Q mod c = 0)
        by (rewrite HP';
            replace (6755399441055744 * (Z.pos m * 536870912))
              with (k * Z.pos m * c) by lia;
            apply Z_mod_mult);
      specialize (Hex' Hz); clear Hz
  end;
  unfold to_ulong in *; rewrite Ht; rewrite Ht' in HMAX;
  clear Ht Ht' Hd Hd'; clearbody P P';
  unfold ULONG_MOD, ULONG_BITS in *;
  change (2 ^ 64) with 18446744073709551616 in *;
  match type of HMAX with
  | (if (0 <=? ?t') && (?t' <? _) then _ else _) = _ =>
      destruct ((0 <=? t') && (t' <? 18446744073709551616)) eqn:Erange;
      [|discriminate HMAX];
      injection HMAX as <-;
      apply andb_true_iff in Erange; destruct Erange as [E1 E2];
      apply Z.leb_le in E1; apply Z.ltb_lt in E2
  end;
  match goal with
  | |- exists MIN, (if (0 <=? ?t) && (?t <? _) then _ else _) = _
                    /\ _ <= _ <= ?M /\ _ =>
      exists t;
      assert (Ht2 : 2 <= t <= M /\ 4 * M <= 31 * (t + 1));
      [|split; [|exact Ht2];
        replace ((0 <=? t) && (t <? 18446744073709551616)) with true;
        [reflexivity
        |symmetry; apply andb_true_iff;
         split; [apply Z.leb_le|apply Z.ltb_lt]; lia]]
  end;
  Z.to_euclidean_division_equations; lia.

(** One case for each exponent from [k] to [hi]. *)
Ltac for_each_exponent e k hi Hlo tac :=
  lazymatch eval vm_compute in (k <=? hi) with
  | true =>
      let Hne := fresh "Hne" in
      destruct (Z.eq_dec e k) as [->|Hne];
      [clear Hlo; tac k
      |let k' := eval vm_compute in (k + 1) in
       let Hlo' := fresh "Hlo" in
       assert (Hlo' : k' <= e) by lia; clear Hlo Hne;
       for_each_exponent e k' hi Hlo' tac]
  | false => exfalso; lia
  end.

Lemma lengths_of_normal_rate (m : positive) (e : Z) (MAX : Z) :
  8388608 <= Zpos m < 16777216 -> -20 <= e -> e <= 104 ->
  (e = -20 -> 10485760 <= Zpos m) ->
  MAX_SAMPLES (S754_finite false m e) = Some MAX ->
  exists MIN, MIN_SAMPLES (S754_finite false m e) = Some MIN
     /\ 2 <= MIN <= MAX /\ 4 * MAX <= 31 * (MIN + 1).
Proof.
  intros Hm Hlo Hhi H10 HMAX.
  for_each_exponent e (-20) 104 Hlo
    ltac:(fun k => clear Hhi; lengths_at_exponent k m HMAX).
Qed.

(** The lengths of every call whose rate is a binary32 number not below
    10.0, whose longest sub-block fits [unsigned long] and whose sample
    count is at most 2^62: the shortest sub-block has at least two samples
    and no more than the longest, and no addition of the longest length to
    a position of the buffer wraps. *)
Lemma lengths_sane_of_rate (rate : LADSPA_Data) (N : Z) :
  valid_binary float_prec float_emax rate = true ->
  SFltb rate (float_of_Z 10) = false ->
  is_Some (MAX_SAMPLES rate) ->
  N <= 2 ^ 62 ->
  lengths_sane rate N.
Proof.
  intros Hvalid Hrate [MAX HMAX] HN.
  destruct (float_at_least_10 rate Hvalid Hrate)
    as [->|[->|[m [e [-> [Hm [He H10]]]]]]].
  - discriminate HMAX.
  - discriminate HMAX.
  - destruct (lengths_of_normal_rate m e MAX Hm (proj1 He) (proj2 He) H10
                HMAX) as [MIN [HMIN [HMM H31]]].
    exists MIN, MAX. split; [exact HMIN|]. split; [exact HMAX|].
    split; [lia|]. intros c Hc Hlt.
    unfold ULONG_MOD, ULONG_BITS.
    change (2 ^ 64) with 18446744073709551616.
    change (2 ^ 62) with 4611686018427387904 in HN. lia.
Qed.

(** A valid call has sane lengths and a sample count in the range of
    [unsigned long]. *)
Lemma valid_call_lengths (reverse : Reverse) (N : Z) (w : world) :
  valid_call reverse N w ->
  1 < N < ULONG_MOD /\ lengths_sane (sample_rate reverse) N.
Proof.
  intros [HN Hvalid Hrate Hfits _]. split.
  - unfold ULONG_MOD, ULONG_BITS.
    change (2 ^ 64) with 18446744073709551616.
    change (2 ^ 62) with 4611686018427387904 in HN. lia.
  - apply lengths_sane_of_rate; [exact Hvalid|exact Hrate|exact Hfits|lia].
Qed.

End FloatLengths.


(** ** [run_Reverse] as a whole *)

Module ReverseRun.
Import Word Ieee Machine Reverse WordFacts MachineFacts ReverseFacts.
Import FloatLengths.
Local Open Scope machine_scope.

Lemma to_ulong_range f z : to_ulong f = Some z -> 0 <= z < ULONG_MOD.
Proof.
  unfold to_ulong. destruct (truncate f) as [t|]; [|discriminate].
  destruct ((0 <=? t) && (t <? ULONG_MOD)) eqn:E; [|discriminate].
  intros [= <-]. apply andb_true_iff in E. destruct E as [E1 E2].
  apply Z.leb_le in E1. apply Z.ltb_lt in E2. lia.
Qed.

(** [run_Reverse] on a call that passes its three guards, with the two
    lengths as the conversions give them. *)
Lemma run_Reverse_executes (reverse : Reverse) (N MIN MAX : Z) (w : world)
  (fuel : nat) :
  1 < N < ULONG_MOD ->
  SFltb (sample_rate reverse) (float_of_Z 10) = false ->
  MIN_SAMPLES (sample_rate reverse) = Some MIN ->
  MAX_SAMPLES (sample_rate reverse) = Some MAX ->
  1 <= MIN <= MAX ->
  (forall c, 0 <= c -> c + 2 * MIN < N -> c + MAX < ULONG_MOD) ->
  buffers_hold (Input reverse) (Output reverse) N w ->
  (Z.to_nat N + 2 <= fuel)%nat ->
  exists plan w',
    run_Reverse fuel (Some reverse) N w = Done (plan, w')
    /\ tiles plan 0 N
    /\ buffers_hold (Input reverse) (Output reverse) N w'
    /\ stored (Output reverse) (upto 0 (Z.to_nat N)) w w'.
Proof.
  intros HN Hrate Hmin Hmax HMM Hnw Hb Hf. unfold run_Reverse.
  replace (N <=? 1) with false by (symmetry; apply Z.leb_gt; lia).
  rewrite Hrate, Hmin, Hmax. cbn [lift_option].
  unfold bind at 1. unfold ret at 1. unfold bind at 1. unfold ret at 1.
  pose proof (to_ulong_range _ _ Hmax) as HMAX.
  destruct (reverse_loop_tiles (Input reverse) (Output reverse) N HN MIN MAX
              ltac:(lia) ltac:(lia) Hnw (Z.to_nat N) 0 0 [] fuel w)
    as [segs [w' [Hrun [Ht [Hb' Hst]]]]]; try lia; try exact Hb.
  exists segs, w'. replace (N - 0) with N in Hst by lia.
  rewrite Hrun. auto.
Qed.

(** Sub-blocks that tile [lo .. hi-1] lie inside that range, and each
    index of the range is in exactly one of them. *)
Lemma tiles_inside plan : forall lo hi s e,
  tiles plan lo hi -> (s, e) ∈ plan -> lo <= s /\ s <= e /\ e < hi.
Proof.
  induction plan as [|[s0 e0] plan IH]; intros lo hi s e Ht Hin.
  - apply elem_of_nil in Hin. contradiction.
  - cbn in Ht. destruct Ht as [-> [Hle Ht]].
    assert (Hmono : forall p l h, tiles p l h -> l <= h).
    { clear. induction p as [|[a b] p IHp]; intros l h H; cbn in H.
      - lia.
      - destruct H as [-> [H1 H2]]. apply IHp in H2. lia. }
    pose proof (Hmono _ _ _ Ht) as Hhi.
    apply elem_of_cons in Hin. destruct Hin as [[= -> ->]|Hin].
    + lia.
    + destruct (IH _ _ _ _ Ht Hin) as [H1 [H2 H3]]. lia.
Qed.

Lemma covering_cons k s e plan :
  covering k ((s, e) :: plan)
  = Nat.add (if (s <=? k) && (k <=? e) then 1%nat else 0%nat)
            (covering k plan).
Proof.
  unfold covering. cbn [List.filter fst snd].
  destruct ((s <=? k) && (k <=? e)); reflexivity.
Qed.

Lemma tiles_covering plan : forall lo hi k,
  tiles plan lo hi ->
  covering k plan = if (lo <=? k) && (k <? hi) then 1%nat else 0%nat.
Proof.
  induction plan as [|[s e] plan IH]; intros lo hi k Ht.
  - cbn in Ht. subst hi. cbn.
    destruct (lo <=? k) eqn:E1, (k <? lo) eqn:E2; try reflexivity.
    apply Z.leb_le in E1. apply Z.ltb_lt in E2. lia.
  - cbn in Ht. destruct Ht as [-> [Hle Ht]].
    assert (Hhi : e + 1 <= hi).
    { clear - Ht. revert Ht. generalize (e + 1). revert hi.
      induction plan as [|[a b] p IHp]; intros h l H; cbn in H.
      - lia.
      - destruct H as [-> [H1 H2]]. apply IHp in H2. lia. }
    rewrite covering_cons, (IH _ _ k Ht).
    destruct (lo <=? k) eqn:A, (k <=? e) eqn:B, (e + 1 <=? k) eqn:C,
             (k <? hi) eqn:D; cbn; try reflexivity; exfalso;
      repeat match goal with
             | H : (_ <=? _) = true |- _ => apply Z.leb_le in H
             | H : (_ <=? _) = false |- _ => apply Z.leb_gt in H
             | H : (_ <? _) = true |- _ => apply Z.ltb_lt in H
             | H : (_ <? _) = false |- _ => apply Z.ltb_ge in H
             end; lia.
Qed.

(** [run_Reverse] on a valid call: it ends, whatever the clock and the
    generator state; its sub-blocks tile the buffer; the stores it makes
    are one into each index of the output, in increasing order. *)
Lemma run_Reverse_valid (reverse : Reverse) (N : Z) (w : world) (fuel : nat) :
  valid_call reverse N w -> (Z.to_nat N + 2 <= fuel)%nat ->
  exists plan w',
    run_Reverse fuel (Some reverse) N w = Done (plan, w')
    /\ tiles plan 0 N
    /\ buffers_hold (Input reverse) (Output reverse) N w'
    /\ stored (Output reverse) (upto 0 (Z.to_nat N)) w w'.
Proof.
  intros Hv Hf.
  destruct (valid_call_lengths reverse N w Hv)
    as [HN [MIN [MAX [Hmin [Hmax [HMM Hnw]]]]]].
  destruct Hv as [_ _ Hrate _ Hb].
  eapply run_Reverse_executes; eauto.
Qed.

(** C1, as amended. For every valid call of [run_Reverse], whatever the
    clock readings and the generator state (that is, for every sequence of
    random draws), the run ends and the sub-blocks it reverses are
    contiguous, non-overlapping and cover exactly [0 .. N-1]: each starts
    where the one before ended, every index of the buffer lies in exactly
    one of them, and none reaches outside the buffer. *)
Theorem reverse_plan_covers_the_buffer :
  forall (reverse : Reverse) (N : Z) (w : world),
    valid_call reverse N w ->
    exists (fuel : nat) (plan : list segment) (w' : world),
      run_Reverse fuel (Some reverse) N w = Done (plan, w')
      /\ tiles plan 0 N
      /\ (forall k, 0 <= k < N -> covering k plan = 1%nat)
      /\ (forall k, k < 0 \/ N <= k -> covering k plan = 0%nat)
      /\ (forall s e, (s, e) ∈ plan -> 0 <= s /\ s <= e /\ e <= N - 1).
Proof.
  intros reverse N w Hv.
  destruct (run_Reverse_valid reverse N w (Z.to_nat N + 2) Hv (le_n _))
    as [plan [w' [Hrun [Ht _]]]].
  exists (Z.to_nat N + 2)%nat, plan, w'. split; [exact Hrun|].
  split; [exact Ht|]. split; [|split].
  - intros k Hk. rewrite (tiles_covering plan 0 N k Ht).
    replace (0 <=? k) with true by (symmetry; apply Z.leb_le; lia).
    replace (k <? N) with true by (symmetry; apply Z.ltb_lt; lia).
    reflexivity.
  - intros k Hk. rewrite (tiles_covering plan 0 N k Ht).
    destruct Hk as [Hk|Hk].
    + replace (0 <=? k) with false by (symmetry; apply Z.leb_gt; lia).
      reflexivity.
    + replace (k <? N) with false by (symmetry; apply Z.ltb_ge; lia).
      rewrite andb_false_r. reflexivity.
  - intros s e Hin. destruct (tiles_inside plan 0 N s e Ht Hin) as [A [B C]].
    lia.
Qed.

(** C9. In a valid call of [run_Reverse]: (1) the inner loop, entered on
    any sub-block [start .. last] of the buffer, ends after exactly
    [last - start + 1] copies, leaving [in_index] one before the start;
    when the start is 0 that is the wrapped value 0xFFFFFFFFFFFFFFFF, which
    the loop condition takes as the sign that the start was reached;
    (2) the whole run ends, whatever the clock readings and the generator
    state. *)
Theorem reverse_loops_terminate :
  forall (reverse : Reverse) (N : Z) (w : world),
    valid_call reverse N w ->
    (forall (start_position last out_index : Z) (w1 : world),
        0 <= start_position <= last -> last < N ->
        0 <= out_index -> out_index + (last - start_position + 1) <= N ->
        buffers_hold (Input reverse) (Output reverse) N w1 ->
        exists (fuel : nat) (w2 : world),
          reverse_block fuel (Input reverse) (Output reverse)
                        start_position last out_index w1
          = Done ((wrap (start_position - 1),
                   out_index + (last - start_position + 1)), w2)
          /\ stored (Output reverse)
                    (upto out_index (Z.to_nat (last - start_position + 1)))
                    w1 w2
          /\ (start_position = 0 ->
              wrap (start_position - 1) = 0xFFFFFFFFFFFFFFFF))
    /\ (exists (fuel : nat) (plan : list segment) (w' : world),
          run_Reverse fuel (Some reverse) N w = Done (plan, w')
          /\ stored (Output reverse) (upto 0 (Z.to_nat N)) w w').
Proof.
  intros reverse N w Hv. split.
  - intros start_position last out_index w1 Hs Hl Ho Hon Hb.
    destruct (valid_call_lengths reverse N w Hv) as [HN _].
    set (n := Z.to_nat (last - start_position + 1)).
    destruct (reverse_block_copies (Input reverse) (Output reverse) N HN n
                start_position out_index (S n) w1)
      as [w2 [Hrun [_ [Hst _]]]]; try lia; [exact Hb|].
    exists (S n), w2.
    replace (start_position + Z.of_nat n - 1) with last in Hrun by lia.
    pose proof ULONG_MOD_eq.
    rewrite (wrap_small last) in Hrun by lia.
    replace (out_index + Z.of_nat n)
      with (out_index + (last - start_position + 1)) in Hrun by lia.
    split; [exact Hrun|]. split; [exact Hst|].
    intros ->. reflexivity.
  - destruct (run_Reverse_valid reverse N w (Z.to_nat N + 2) Hv (le_n _))
      as [plan [w' [Hrun [_ [_ Hst]]]]].
    exists (Z.to_nat N + 2)%nat, plan, w'. auto.
Qed.

End ReverseRun.

(** ** sb_adt.c: the copies of [run_Adt] *)

Module AdtFacts.
Import Word Ieee Machine Adt WordFacts MachineFacts.
Local Open Scope machine_scope.

(** One loop of [run_Adt] between two different blocks: [n] samples of
    [source] from index [sn] on go to [destination] from index [dn] on. *)
Lemma copy_while_copies (destination source : pointer)
    (test : Z -> Z -> bool) (bs : list LADSPA_Data) :
  destination <> source ->
  forall (n dn sn fuel : nat) (w : world) (bd : list LADSPA_Data),
  heap w !! destination = Some bd -> heap w !! source = Some bs ->
  (dn + n <= length bd)%nat -> (sn + n <= length bs)%nat ->
  (forall j : nat, (j < n)%nat ->
     test (Z.of_nat (dn + j)) (Z.of_nat (sn + j)) = true) ->
  test (Z.of_nat (dn + n)) (Z.of_nat (sn + n)) = false ->
  (n < fuel)%nat ->
  exists w',
    copy_while fuel test destination source (Z.of_nat dn) (Z.of_nat sn) w
    = Done ((Z.of_nat (dn + n), Z.of_nat (sn + n)), w')
    /\ heap w' = <[destination :=
                     take dn bd ++ take n (drop sn bs) ++ drop (dn + n) bd]>
                 (heap w)
    /\ stores w' = stores w ++ map (fun k => (destination, k))
                                   (upto (Z.of_nat dn) n)
    /\ stdout w' = stdout w /\ clock w' = clock w
    /\ ticks w' = ticks w /\ rng w' = rng w.
Proof.
  intros Hne. induction n as [|n IH]; intros dn sn fuel w bd Hd Hs Ld Ls Ht Hf Hfuel.
  - destruct fuel as [|fuel]; [lia|]. cbn [copy_while].
    rewrite !Nat.add_0_r in *. rewrite Hf. exists w. split; [reflexivity|].
    split.
    + rewrite take_0, app_nil_l, take_drop. symmetry. apply list_insert_id.
      exact Hd.
    + cbn [upto seq map]. rewrite app_nil_r. repeat split.
  - destruct fuel as [|fuel]; [lia|]. cbn [copy_while].
    pose proof (Ht 0%nat ltac:(lia)) as Ht0. rewrite !Nat.add_0_r in Ht0.
    rewrite Ht0.
    destruct (load_in_range source (Z.of_nat sn) w bs Hs) as [v [Hv Hload]];
      [lia|].
    rewrite Nat2Z.id in Hv.
    rewrite (bind_Done _ _ _ _ _ Hload).
    pose proof (store_Done destination (Z.of_nat dn) v w bd Hd ltac:(lia))
      as Hstore.
    rewrite (bind_Done _ _ _ _ _ Hstore). rewrite Nat2Z.id in *.
    set (w1 := mkWorld _ _ _ _ _ _) in *.
    assert (Hlt : (destination < length (heap w))%nat)
      by (eapply lookup_lt_Some; eauto).
    replace (Z.of_nat dn + 1) with (Z.of_nat (S dn)) by lia.
    replace (Z.of_nat sn + 1) with (Z.of_nat (S sn)) by lia.
    destruct (IH (S dn) (S sn) fuel w1 (<[dn := v]> bd))
      as [w' [Hrun [Hh [Hst [H1 [H2 [H3 H4]]]]]]].
    + subst w1. cbn [heap]. apply list_lookup_insert_eq. exact Hlt.
    + subst w1. cbn [heap]. rewrite list_lookup_insert_ne by exact Hne.
      exact Hs.
    + rewrite length_insert. lia.
    + lia.
    + intros j Hj. specialize (Ht (S j) ltac:(lia)).
      replace (S dn + j)%nat with (dn + S j)%nat by lia.
      replace (S sn + j)%nat with (sn + S j)%nat by lia. exact Ht.
    + replace (S dn + n)%nat with (dn + S n)%nat by lia.
      replace (S sn + n)%nat with (sn + S n)%nat by lia. exact Hf.
    + lia.
    + exists w'. split.
      * rewrite Hrun. do 3 f_equal; lia.
      * split; [|split; [|subst w1; cbn in *; auto]].
        -- rewrite Hh. subst w1. cbn [heap]. rewrite list_insert_insert_eq.
           f_equal.
           rewrite (take_S_r (<[dn:=v]> bd) dn v)
             by (apply list_lookup_insert_eq; lia).
           rewrite take_insert_ge by lia.
           rewrite drop_insert_lt by lia.
           rewrite (drop_S bs v sn Hv). cbn [take].
           rewrite <- app_assoc. cbn [app].
           replace (S dn + n)%nat with (dn + S n)%nat by lia. reflexivity.
        -- rewrite Hst. subst w1. cbn [stores]. rewrite upto_S.
           cbn [map]. rewrite <- app_assoc.
           replace (Z.of_nat (S dn)) with (Z.of_nat dn + 1) by lia.
           reflexivity.
Qed.

Lemma NoDup_ne (l : list pointer) (i j : nat) (p q : pointer) :
  NoDup l -> l !! i = Some p -> l !! j = Some q -> i <> j -> p <> q.
Proof. intros Hnd Hi Hj Hij ->. apply Hij. eapply NoDup_lookup; eauto. Qed.

(** Two of the six pointers of a [NoDup] list differ. *)
Ltac differ Hnd :=
  let go i j :=
    exact (NoDup_ne _ i j _ _ Hnd eq_refl eq_refl ltac:(discriminate)) in
  first [ go 0%nat 1%nat | go 0%nat 2%nat | go 0%nat 3%nat | go 0%nat
         4%nat | go 0%nat 5%nat | go 1%nat 0%nat | go 1%nat 2%nat | go
         1%nat 3%nat | go 1%nat 4%nat | go 1%nat 5%nat | go 2%nat 0%nat |
         go 2%nat 1%nat | go 2%nat 3%nat | go 2%nat 4%nat | go 2%nat
         5%nat | go 3%nat 0%nat | go 3%nat 1%nat | go 3%nat 2%nat | go
         3%nat 4%nat | go 3%nat 5%nat | go 4%nat 0%nat | go 4%nat 1%nat |
         go 4%nat 2%nat | go 4%nat 3%nat | go 4%nat 5%nat | go 5%nat
         0%nat | go 5%nat 1%nat | go 5%nat 2%nat | go 5%nat 3%nat | go
         5%nat 4%nat ].

Lemma insert_lookups (h h' : list (list LADSPA_Data)) (p : pointer) b b0 :
  h' = <[p := b]> h -> h !! p = Some b0 ->
  h' !! p = Some b /\ forall q, q <> p -> h' !! q = h !! q.
Proof.
  intros -> Hp. split.
  - apply list_lookup_insert_eq. eapply lookup_lt_Some; eauto.
  - intros q Hq. apply list_lookup_insert_ne. congruence.
Qed.


End AdtFacts.

Module AdtDelay.
Import Word Ieee Machine Adt WordFacts MachineFacts AdtFacts.
Local Open Scope machine_scope.

(** [activate_Adt] zero-fills the run off buffer over the length the
    maximum offset gives. *)
Lemma activate_Adt_zeroes (adt : Adt) (w w' : world) (cap : Z)
    (blk : list LADSPA_Data) :
  GetOffsetInSamples (sample_rate adt) (float_of_Z MAX_OFFSET) = Some cap ->
  heap w !! block_run_off adt = Some blk ->
  activate_Adt adt w = Done (tt, w') ->
  0 <= cap <= Z.of_nat (length blk)
  /\ heap w' !! block_run_off adt
     = Some (replicate (Z.to_nat cap) (S754_zero false)
               ++ drop (Z.to_nat cap) blk).
Proof.
  intros Hcap Hblk. unfold activate_Adt. rewrite Hcap. cbn [lift_option].
  unfold bind at 1. unfold ret at 1. unfold memset_zero. rewrite Hblk.
  destruct ((0 <=? cap) && (cap <=? Z.of_nat (length blk))) eqn:E;
    [|discriminate].
  intros [= <-]. cbn [heap]. apply andb_true_iff in E. destruct E as [E1 E2].
  apply Z.leb_le in E1. apply Z.leb_le in E2. split; [lia|].
  apply list_lookup_insert_eq. eapply lookup_lt_Some; eauto.
Qed.


End AdtDelay.

(** ** Worked scenarios and the guards of the three run functions *)

Module Scenarios.
Import Word Ieee Machine Scenario WordFacts MachineFacts.
Local Open Scope machine_scope.

(** C6. [run_Reverse] with a sample rate of 10 on four samples: the
    minimum length is 2, so the first test of the loop sends the whole
    buffer to the inner loop as one sub-block, and the output is the input
    reversed.  No random number is drawn: the result is the same for every
    clock, every generator state and every previous content of the output
    buffer, and the generator state is left as it was. *)
Theorem reverse_four_samples_scenario :
  forall (clk : nat -> timeval) (t : nat) (g : Xorgens.state)
         (a b c d : LADSPA_Data) (printed : list string),
    let input := map float_of_Z [0; 1; 2; 3] in
    let w := {| heap := [input; [a; b; c; d]]; stores := [];
                stdout := printed; clock := clk; ticks := t; rng := g |} in
    Reverse.MIN_SAMPLES (float_of_Z 10) = Some 2
    /\ exists w',
         Reverse.run_Reverse 6 (Some (reverse 10)) 4 w = Done ([(0, 3)], w')
         /\ heap w' = [input; map float_of_Z [3; 2; 1; 0]]
         /\ ticks w' = t /\ rng w' = g.
Proof.
  intros clk t g a b c d printed input w. split; [reflexivity|].
  eexists. split; [vm_compute; reflexivity|]. repeat split.
Qed.

(** C5. Sample rate 1000, ten samples, control offset 5 ms: the offset is
    5 samples (and the run off buffer has the 200 samples of the maximum
    offset).  On a freshly activated instance with right-channel input
    0, 1, ..., 9 the right-channel output is 0,0,0,0,0,0,1,2,3,4 and the
    run off buffer then starts with 5,6,7,8,9 (the rest of it is zero). *)
Theorem delay_scenario :
  Adt.GetOffsetInSamples (float_of_Z 1000) (float_of_Z 5) = Some 5
  /\ Adt.GetOffsetInSamples (float_of_Z 1000) (float_of_Z Adt.MAX_OFFSET)
     = Some 200
  /\ heap (adt_world 200 5 10) !! Adt.Input_Right (adt 1000)
     = Some (map float_of_Z [0; 1; 2; 3; 4; 5; 6; 7; 8; 9])
  /\ exists w',
       (Adt.activate_Adt (adt 1000) ;; Adt.run_Adt 11 (Some (adt 1000)) 10)
         (adt_world 200 5 10) = Done (tt, w')
       /\ heap w' !! Adt.Output_Right (adt 1000)
          = Some (map float_of_Z [0; 0; 0; 0; 0; 0; 1; 2; 3; 4])
       /\ heap w' !! Adt.block_run_off (adt 1000)
          = Some (map float_of_Z [5; 6; 7; 8; 9]
                    ++ replicate 195 (S754_zero false)).
Proof.
  split; [reflexivity|]. split; [reflexivity|]. split; [reflexivity|].
  eexists. split; [vm_compute; reflexivity|]. split; reflexivity.
Qed.

(** C7. An invalid call of a run function -- a sample count of 0 or 1, a
    NULL instance, or a sample rate below the floor (10 for [run_Reverse],
    1 for [run_Kite], 1000 for [run_Adt]) -- returns without a store and
    without touching a sample buffer, the run off buffer, the clock or the
    generator: only the diagnostic is printed. *)
Theorem invalid_call_is_a_no_op :
  (forall (fuel : nat) (instance : option Reverse.Reverse) (N : Z) (w : world),
      N <= 1 \/ instance = None
      \/ (exists r, instance = Some r
                    /\ SFltb (Reverse.sample_rate r) (float_of_Z 10) = true) ->
      exists w', Reverse.run_Reverse fuel instance N w = Done ([], w')
                 /\ only_printed w w')
  /\ (forall (fuel : nat) (instance : option Kite.Kite) (N : Z) (w : world),
         N <= 1 \/ instance = None
         \/ (exists k, instance = Some k /\ 0 <= Kite.sample_rate k < 1) ->
         exists w', Kite.run_Kite fuel instance N w = Done ([], w')
                    /\ only_printed w w')
  /\ (forall (fuel : nat) (instance : option Adt.Adt) (N : Z) (w : world),
         N <= 1 \/ instance = None
         \/ (exists a, instance = Some a
                       /\ SFltb (Adt.sample_rate a) (float_of_Z 1000) = true) ->
         exists w', Adt.run_Adt fuel instance N w = Done (tt, w')
                    /\ only_printed w w').
Proof.
  split; [|split].
  - intros fuel instance N w H. unfold Reverse.run_Reverse.
    destruct (N <=? 1) eqn:E.
    + eexists. split; [reflexivity|]. repeat split.
    + destruct H as [H|[->|[r [-> Hr]]]].
      * apply Z.leb_gt in E. lia.
      * eexists. split; [reflexivity|]. repeat split.
      * rewrite Hr. eexists. split; [reflexivity|]. repeat split.
  - intros fuel instance N w H. unfold Kite.run_Kite.
    destruct (N <=? 1) eqn:E.
    + eexists. split; [reflexivity|]. repeat split.
    + destruct H as [H|[->|[k [-> Hk]]]].
      * apply Z.leb_gt in E. lia.
      * eexists. split; [reflexivity|]. repeat split.
      * replace (Kite.sample_rate k =? 0) with true
          by (symmetry; apply Z.eqb_eq; lia).
        eexists. split; [reflexivity|]. repeat split.
  - intros fuel instance N w H. unfold Adt.run_Adt.
    destruct (N <=? 1) eqn:E.
    + eexists. split; [reflexivity|]. repeat split.
    + destruct H as [H|[->|[a [-> Ha]]]].
      * apply Z.leb_gt in E. lia.
      * eexists. split; [reflexivity|]. repeat split.
      * rewrite Ha. eexists. split; [reflexivity|]. repeat split.
Qed.

Lemma invalid_call_is_a_no_op_witness :
  (exists w', Reverse.run_Reverse 0 (Some (reverse 9)) 4 (reverse_world 4)
              = Done ([], w') /\ only_printed (reverse_world 4) w')
  /\ (exists w', Kite.run_Kite 0 None 4 (kite_world 4) = Done ([], w')
                 /\ only_printed (kite_world 4) w')
  /\ (exists w', Adt.run_Adt 0 (Some (adt 1000)) 1 (adt_world 200 5 10)
                 = Done (tt, w') /\ only_printed (adt_world 200 5 10) w').
Proof.
  destruct invalid_call_is_a_no_op as [HR [HK HA]].
  split; [|split].
  - apply HR. right. right. exists (reverse 9). split; reflexivity.
  - apply HK. right. left. reflexivity.
  - apply HA. left. lia.
Defined.

End Scenarios.

(** ** sb_kite.c evaluated *)

Module KiteFacts.
Import Word Ieee Machine Kite Scenario WordFacts MachineFacts.
Local Open Scope machine_scope.

(** C1, as stated, fails for [run_Kite]: at 4 samples per second
    ([MIN_BLOCK_START] = 1, [MAX_BLOCK_END] = 9) on 12 samples, with the
    seeds 1, 2, 3, ... the run ends with the sub-blocks (3,10), (1,3),
    (0,0).  They are positions in the input buffer as it is after each
    overwrite of the used section, and they do not tile [0 .. 11]: index 3
    lies in two of them, index 11 in none. *)
Lemma kite_plan_does_not_cover :
  MIN_BLOCK_START 4 = Some 1 /\ MAX_BLOCK_END 1 4 = 9
  /\ exists w',
       run_Kite 20 (Some (kite 4)) 12 (kite_world 12)
       = Done ([(3, 10); (1, 3); (0, 0)], w')
       /\ ~ tiles [(3, 10); (1, 3); (0, 0)] 0 12
       /\ covering 3 [(3, 10); (1, 3); (0, 0)] = 2%nat
       /\ covering 11 [(3, 10); (1, 3); (0, 0)] = 0%nat.
Proof.
  split; [reflexivity|]. split; [reflexivity|].
  eexists. split; [vm_compute; reflexivity|].
  split; [|split; reflexivity].
  cbn. intros [H _]. discriminate H.
Qed.

(** C3 at its failing input.  At 44100 samples per second a buffer of 4
    samples is one sub-block starting at 0; [out_index] is 0 too, and
    [CopySubBlock] returns at once when [dest_start == src_start]: the run
    ends without a single store into either output buffer, which keep what
    the caller left in them. *)
Theorem kite_leaves_output_unwritten :
  exists plan w',
    run_Kite 10 (Some (kite 44100)) 4 (kite_world 4) = Done (plan, w')
    /\ plan = [(0, 3)]
    /\ stores_to (Output_Left (kite 44100)) w' = []
    /\ stores_to (Output_Right (kite 44100)) w' = []
    /\ heap w' !! Output_Left (kite 44100) = Some (untouched 4)
    /\ heap w' !! Output_Right (kite 44100) = Some (untouched 4).
Proof.
  eexists _, _. split; [vm_compute; reflexivity|]. repeat split.
Qed.

(** The same guard, whatever the lengths: appending a sub-block that
    starts at the output position copies nothing. *)
Lemma CopySubBlock_same_start fuel destination source start end_ w :
  CopySubBlock fuel destination start source start end_ w = Done (tt, w).
Proof. unfold CopySubBlock. rewrite Z.eqb_refl. reflexivity. Qed.

(** C4 at its failing input.  With [MIN_BLOCK_START] = 1,
    [MAX_BLOCK_END] = 9 and 10 samples remaining (more than the window), a
    start position of 3 gives the bounds 4 and 10 for the end position: the
    upper bound is [samples_remaining] itself, not
    [samples_remaining - 1].  With the seeds 1 and 2 the start drawn is 3
    and the end drawn is 10, and the run reads the input at index 10. *)
Theorem kite_end_position_reaches_remaining :
  end_position_bounds 1 9 10 3 = (4, 10)
  /\ (exists w', choose_block 1 9 10 (kite_world 10) = Done ((3, 10), w'))
  /\ run_Kite 20 (Some (kite 4)) 10 (kite_world 10) = Fault OutOfBounds.
Proof.
  split; [reflexivity|]. split.
  - eexists. vm_compute. reflexivity.
  - vm_compute. reflexivity.
Qed.

(** The upper bound of the end position in general (no wrap-around): it
    is [samples_remaining] whenever that is below
    [start + MAX_BLOCK_END - MIN_BLOCK_START]. *)
Lemma end_position_upper_bound MIN MAX remaining start :
  0 <= MIN <= MAX -> 0 <= start -> start + MAX < ULONG_MOD ->
  0 <= remaining < ULONG_MOD -> MIN < start + MAX ->
  snd (end_position_bounds MIN MAX remaining start)
  = Z.min remaining (start + MAX - MIN - 1).
Proof.
  intros HM Hs Hw Hr Hlt. unfold end_position_bounds. cbn [snd].
  rewrite (wrap_small (start + MAX)) by lia.
  rewrite (wrap_small (start + MAX - MIN)) by lia.
  rewrite (wrap_small (start + MAX - MIN - 1)) by lia.
  destruct (remaining <? start + MAX - MIN) eqn:E;
    [apply Z.ltb_lt in E|apply Z.ltb_ge in E]; lia.
Qed.

(** C10 at its failing input.  At 8 samples per second
    ([MIN_BLOCK_START] = 2, [MAX_BLOCK_END] = 18) on 19 samples the start
    position is drawn between 2 and 18; with the seed 1 it is 18.  The
    bounds of the end position are then 20 and 19: the lower bound exceeds
    the upper bound, [upper_bound - lower_bound + 1] is 0, and the [%] of
    [GetRandomNaturalNumber] divides by zero. *)
Theorem kite_draw_divides_by_zero :
  MIN_BLOCK_START 8 = Some 2 /\ MAX_BLOCK_END 2 8 = 18
  /\ (exists w1,
        GetRandomNaturalNumber 2 18 (kite_world 19) = Done (18, w1)
        /\ end_position_bounds 2 18 19 18 = (20, 19)
        /\ wrap (19 - 20 + 1) = 0
        /\ GetRandomNaturalNumber 20 19 w1 = Fault DivisionByZero)
  /\ run_Kite 20 (Some (kite 8)) 19 (kite_world 19) = Fault DivisionByZero.
Proof.
  split; [reflexivity|]. split; [reflexivity|]. split.
  - eexists. split; [vm_compute; reflexivity|].
    split; [reflexivity|]. split; [reflexivity|]. vm_compute. reflexivity.
  - vm_compute. reflexivity.
Qed.

End KiteFacts.

(** ** The theorems with hypotheses, at concrete inputs *)

Module Witnesses.
Import Word Ieee Machine Scenario WordFacts MachineFacts.
Local Open Scope machine_scope.

Lemma reverse_plan_covers_the_buffer_witness :
  Reverse.valid_call (reverse 10) 12 (reverse_world 12)
  /\ exists (fuel : nat) (plan : list segment) (w' : world),
       Reverse.run_Reverse fuel (Some (reverse 10)) 12 (reverse_world 12)
       = Done (plan, w')
       /\ tiles plan 0 12.
Proof.
  assert (Hv : Reverse.valid_call (reverse 10) 12 (reverse_world 12)).
  { constructor.
    - change (2 ^ 62) with 4611686018427387904. lia.
    - reflexivity.
    - reflexivity.
    - exists 15. reflexivity.
    - split; eexists; (split; [reflexivity|]); vm_compute; discriminate. }
  split; [exact Hv|].
  destruct (ReverseRun.reverse_plan_covers_the_buffer _ _ _ Hv)
    as [fuel [plan [w' [Hrun [Ht _]]]]].
  exists fuel, plan, w'. split; assumption.
Defined.

Lemma reverse_loops_terminate_witness :
  Reverse.valid_call (reverse 10) 12 (reverse_world 12)
  /\ (exists (fuel : nat) (w2 : world),
        Reverse.reverse_block fuel (Reverse.Input (reverse 10))
                              (Reverse.Output (reverse 10))
                              0 3 0 (reverse_world 12)
        = Done ((0xFFFFFFFFFFFFFFFF, 4), w2))
  /\ (exists (fuel : nat) (plan : list segment) (w' : world),
        Reverse.run_Reverse fuel (Some (reverse 10)) 12 (reverse_world 12)
        = Done (plan, w')).
Proof.
  assert (Hv : Reverse.valid_call (reverse 10) 12 (reverse_world 12)).
  { constructor.
    - change (2 ^ 62) with 4611686018427387904. lia.
    - reflexivity.
    - reflexivity.
    - exists 15. reflexivity.
    - split; eexists; (split; [reflexivity|]); vm_compute; discriminate. }
  split; [exact Hv|].
  destruct (ReverseRun.reverse_loops_terminate _ _ _ Hv) as [Hinner Hrun].
  split.
  - destruct (Hinner 0 3 0 (reverse_world 12)) as [fuel [w2 [H _]]];
      try lia.
    + split; eexists; (split; [reflexivity|]); vm_compute; discriminate.
    + exists fuel, w2. exact H.
  - destruct Hrun as [fuel [plan [w' [H _]]]]. exists fuel, plan, w'. exact H.
Defined.


End Witnesses.

(** ** xorgens.c: what a call does to the state *)

Module XorgensInvariant.
Import Word Xorgens XorgensState WordFacts XorgensFacts.

Lemma xor_range u v : is_ulong u -> is_ulong v -> is_ulong (xor u v).
Proof.
  unfold is_ulong, xor, ULONG_MOD, ULONG_BITS. intros [Hu0 Hu] [Hv0 Hv].
  split; [apply Z.lxor_nonneg; lia|].
  destruct (Z.eq_dec (Z.lxor u v) 0) as [->|Hne]; [reflexivity|].
  assert (Hpos : 0 < Z.lxor u v).
  { assert (0 <= Z.lxor u v) by (apply Z.lxor_nonneg; lia). lia. }
  apply Z.log2_lt_pow2; [exact Hpos|].
  pose proof (Z.log2_lxor u v Hu0 Hv0) as Hl.
  assert (Z.log2 u < 64).
  { destruct (Z.eq_dec u 0) as [->|]; [reflexivity|].
    apply Z.log2_lt_pow2; lia. }
  assert (Z.log2 v < 64).
  { destruct (Z.eq_dec v 0) as [->|]; [reflexivity|].
    apply Z.log2_lt_pow2; lia. }
  lia.
Qed.

Lemma shl_range v n : is_ulong (shl v n).
Proof. unfold shl. apply wrap_range. Qed.

Lemma shr_range v n : is_ulong v -> 0 <= n -> is_ulong (shr v n).
Proof.
  unfold is_ulong, shr. intros [H0 H1] Hn. rewrite Z.shiftr_div_pow2 by lia.
  assert (0 < 2 ^ n) by (apply Z.pow_pos_nonneg; lia).
  split; [apply Z.div_pos; lia|].
  apply Z.div_lt_upper_bound; [lia|]. nia.
Qed.

Lemma complement_range v : is_ulong v -> is_ulong (complement v).
Proof.
  unfold is_ulong, complement. rewrite ULONG_MAX_eq. lia.
Qed.

Lemma scramble_range v : is_ulong v -> is_ulong (scramble v).
Proof.
  intros H. unfold scramble.
  repeat first [ apply xor_range | apply shl_range
               | apply shr_range; [|lia] | exact H ].
Qed.

Lemma iter_scramble_range n v :
  is_ulong v -> is_ulong (Nat.iter n scramble v).
Proof.
  intros H. induction n as [|n IH]; [exact H|].
  rewrite Nat.iter_succ. apply scramble_range, IH.
Qed.

Lemma get_range arr k : Forall is_ulong arr -> is_ulong (get arr k).
Proof.
  intros H. unfold get. destruct (arr !! Z.to_nat k) as [v|] eqn:E.
  - cbn. eapply Forall_lookup_1; eauto.
  - cbn. unfold is_ulong. rewrite ULONG_MOD_eq. lia.
Qed.

Lemma set_range arr k v :
  Forall is_ulong arr -> is_ulong v -> Forall is_ulong (set arr k v).
Proof. intros Ha Hv. unfold set. apply Forall_insert; assumption. Qed.

Lemma set_length arr k v : length (set arr k v) = length arr.
Proof. unfold set. apply length_insert. Qed.

Lemma cursor_range k : 0 <= Z.land k (r - 1) < r.
Proof.
  change (r - 1) with (Z.ones 6). rewrite Z.land_ones by lia.
  change r with (2 ^ 6). apply Z.mod_pos_bound. reflexivity.
Qed.

(** The filling loop writes the entries [0 .. n-1] of the array: what it
    leaves depends on the array it was given only beyond [n]. *)
Lemma fill_loop wy : forall (n : nat) (v w0 : Z),
  is_ulong v -> is_ulong w0 ->
  exists v' w' pre,
    length pre = n /\ Forall is_ulong pre /\ is_ulong v' /\ is_ulong w'
    /\ forall arr, (n <= length arr)%nat ->
         fold_left (fun acc k => fill_step wy k acc) (seq 0 n) (v, w0, arr)
         = (v', w', pre ++ drop n arr).
Proof.
  induction n as [|n IH]; intros v w0 Hv Hw.
  - exists v, w0, []. split; [reflexivity|]. split; [constructor|].
    split; [exact Hv|]. split; [exact Hw|]. intros arr _. reflexivity.
  - destruct (IH v w0 Hv Hw) as [v1 [w1 [pre [Hlen [Hall [Hv1 Hw1]]]]]].
    destruct Hw1 as [Hw1 Hfold].
    exists (scramble v1), (wrap (w1 + wy)),
           (pre ++ [wrap (scramble v1 + wrap (w1 + wy))]).
    split; [rewrite length_app, Hlen; cbn; lia|].
    split; [apply Forall_app; split;
            [exact Hall|repeat constructor; apply wrap_range]|].
    split; [apply scramble_range, Hv1|]. split; [apply wrap_range|].
    intros arr Harr. rewrite seq_S, fold_left_app, Hfold by lia.
    cbn [fold_left Nat.add fill_step]. f_equal.
    unfold set. rewrite Nat2Z.id.
    rewrite insert_app_r_alt by lia. rewrite Hlen, Nat.sub_diag.
    destruct (lookup_lt_is_Some_2 arr n ltac:(lia)) as [a Ha].
    rewrite (drop_S _ _ _ Ha). cbn. rewrite <- app_assoc. reflexivity.
Qed.

(** The discarding loop keeps the cursor and the entries in range. *)
Lemma discard_loop : forall (n : nat) (i0 : Z) (arr : list Z),
  0 <= i0 < r -> Forall is_ulong arr ->
  let '(i1, arr') := Nat.iter n discard_step (i0, arr) in
  0 <= i1 < r /\ Forall is_ulong arr' /\ length arr' = length arr.
Proof.
  induction n as [|n IH]; intros i0 arr Hi Harr.
  - cbn. auto.
  - rewrite Nat.iter_succ. specialize (IH i0 arr Hi Harr).
    destruct (Nat.iter n discard_step (i0, arr)) as [i1 arr1].
    destruct IH as [Hi1 [Hall Hlen]]. unfold discard_step.
    split; [apply cursor_range|]. split.
    + apply set_range; [exact Hall|].
      repeat first [ apply xor_range | apply shl_range
                   | apply shr_range; [|discriminate]
                   | apply get_range; exact Hall ].
    + rewrite set_length. exact Hlen.
Qed.

Lemma initialise_well_formed seed st :
  is_ulong seed -> length (x st) = Z.to_nat r ->
  well_formed (initialise seed st) /\ 0 <= i (initialise seed st).
Proof.
  intros Hseed Hlen. unfold initialise.
  set (v0 := Nat.iter (Z.to_nat wlen) scramble _).
  assert (Hv0 : is_ulong v0).
  { apply iter_scramble_range. destruct (negb (seed =? zero));
      [exact Hseed|apply complement_range, Hseed]. }
  set (wy := if UINT32 =? 1 then _ else _).
  destruct (fill_loop wy (Z.to_nat r) v0 v0 Hv0 Hv0)
    as [v1 [w1 [pre [Hpre [Hall [Hv1 [Hw1 Hfold]]]]]]].
  rewrite (Hfold (x st)) by (rewrite Hlen; apply Nat.le_refl).
  rewrite drop_ge by (rewrite Hlen; apply Nat.le_refl). rewrite app_nil_r.
  pose proof (discard_loop (Z.to_nat (4 * r)) (r - 1) pre
                ltac:(change (0 <= 63 < 64); lia) Hall) as Hd.
  destruct (Nat.iter _ discard_step _) as [i1 arr1].
  destruct Hd as [Hi1 [Hall1 Hlen1]].
  split; [|cbn; lia].
  constructor; cbn [x w weyl i].
  - rewrite Hlen1. exact Hpre.
  - exact Hall1.
  - exact Hw1.
  - subst wy. unfold is_ulong. vm_compute. split; [discriminate|reflexivity].
  - lia.
Qed.

(** A new seed makes the state anew: nothing of the state before it is
    left. *)
Lemma initialise_forgets seed st1 st2 :
  length (x st1) = Z.to_nat r -> length (x st2) = Z.to_nat r ->
  initialise seed st1 = initialise seed st2.
Proof.
  intros H1 H2. unfold initialise.
  set (v0 := Nat.iter (Z.to_nat wlen) scramble _).
  set (wy := if UINT32 =? 1 then _ else _).
  assert (Hfill : forall n v w0, exists v' w' pre,
             length pre = n
             /\ forall arr, (n <= length arr)%nat ->
                  fold_left (fun acc k => fill_step wy k acc) (seq 0 n)
                            (v, w0, arr)
                  = (v', w', pre ++ drop n arr)).
  { induction n as [|n IH]; intros v w0.
    - exists v, w0, []. split; [reflexivity|]. intros arr _. reflexivity.
    - destruct (IH v w0) as [v1 [w1 [pre [Hlen Hfold]]]].
      exists (scramble v1), (wrap (w1 + wy)),
             (pre ++ [wrap (scramble v1 + wrap (w1 + wy))]).
      split; [rewrite length_app, Hlen; cbn; lia|].
      intros arr Harr. rewrite seq_S, fold_left_app, Hfold by lia.
      cbn [fold_left Nat.add fill_step]. f_equal.
      unfold set. rewrite Nat2Z.id.
      rewrite insert_app_r_alt by lia. rewrite Hlen, Nat.sub_diag.
      destruct (lookup_lt_is_Some_2 arr n ltac:(lia)) as [a Ha].
      rewrite (drop_S _ _ _ Ha). cbn. rewrite <- app_assoc. reflexivity. }
  destruct (Hfill (Z.to_nat r) v0 v0) as [v1 [w1 [pre [Hpre Hfold]]]].
  rewrite (Hfold (x st1)) by (rewrite H1; apply Nat.le_refl).
  rewrite (Hfold (x st2)) by (rewrite H2; apply Nat.le_refl).
  rewrite (drop_ge (x st1)) by (rewrite H1; apply Nat.le_refl).
  rewrite (drop_ge (x st2)) by (rewrite H2; apply Nat.le_refl).
  reflexivity.
Qed.

Lemma generator_well_formed st :
  well_formed st ->
  is_ulong (fst (generator st)) /\ well_formed (snd (generator st))
  /\ 0 <= i (snd (generator st)).
Proof.
  intros [Hlen Hall Hw Hweyl Hi]. unfold generator. cbn [fst snd].
  split; [apply wrap_range|].
  pose proof (cursor_range (i st + 1)) as Hc.
  split; [|cbn; lia].
  constructor; cbn [x w weyl i].
  - rewrite set_length. exact Hlen.
  - apply set_range; [exact Hall|].
    repeat first [ apply xor_range | apply shl_range
                 | apply shr_range; [|discriminate]
                 | apply get_range; exact Hall ].
  - apply wrap_range.
  - exact Hweyl.
  - lia.
Qed.

(** X1. Every call of [xor4096i], first or later, with any seed, returns
    a value of the 64-bit type and leaves the statics well formed: [x]
    keeps its [r] entries, all in range, and the cursor is an index of
    [x]. *)
Theorem xor4096i_keeps_the_state_well_formed :
  forall (seed : Z) (st : state),
    is_ulong seed -> well_formed st ->
    let '(v, st') := xor4096i seed st in
    is_ulong v /\ well_formed st' /\ 0 <= i st' < r.
Proof.
  intros seed st Hseed Hwf.
  destruct (xor4096i seed st) as [v st'] eqn:E. unfold xor4096i in E.
  assert (Hgen : forall st0, well_formed st0 -> generator st0 = (v, st') ->
                   is_ulong v /\ well_formed st' /\ 0 <= i st' < r).
  { intros st0 Hwf0 Eg. destruct (generator_well_formed st0 Hwf0)
      as [Hv [Hwf' Hi']]. rewrite Eg in Hv, Hwf', Hi'. cbn [fst snd] in *.
    split; [exact Hv|]. split; [exact Hwf'|].
    pose proof (i_range _ Hwf'). lia. }
  destruct ((i st <? 0) || negb (seed =? zero)).
  - apply (Hgen (initialise seed st)); [|exact E].
    apply initialise_well_formed; [exact Hseed|apply (x_length _ Hwf)].
  - apply (Hgen st); assumption.
Qed.

Lemma xor4096i_keeps_the_state_well_formed_witness :
  is_ulong 1 /\ well_formed fresh
  /\ let '(v, st') := xor4096i 1 fresh in
     is_ulong v /\ well_formed st' /\ 0 <= i st' < r.
Proof.
  assert (H1 : is_ulong 1) by (unfold is_ulong; rewrite ULONG_MOD_eq; lia).
  assert (Hf : well_formed fresh).
  { constructor; cbn.
    - reflexivity.
    - apply Forall_forall. intros z Hz. apply elem_of_replicate in Hz.
      destruct Hz as [-> _]. unfold is_ulong. rewrite ULONG_MOD_eq. lia.
    - unfold is_ulong. rewrite ULONG_MOD_eq. lia.
    - unfold is_ulong. rewrite ULONG_MOD_eq. lia.
    - change (-1 <= -1 < 64). lia. }
  split; [exact H1|]. split; [exact Hf|].
  exact (xor4096i_keeps_the_state_well_formed 1 fresh H1 Hf).
Defined.

Lemma xor4096i_reseeded (seed : Z) (st1 st2 : state) :
  seed <> zero ->
  length (x st1) = Z.to_nat r -> length (x st2) = Z.to_nat r ->
  xor4096i seed st1 = xor4096i seed st2.
Proof.
  intros Hseed H1 H2. unfold xor4096i.
  replace (seed =? zero) with false by (symmetry; apply Z.eqb_neq; exact Hseed).
  rewrite !orb_true_r. rewrite (initialise_forgets seed st1 st2 H1 H2).
  reflexivity.
Qed.

(** X2. A call with a nonzero seed does not depend on the calls made
    before it: from any two states (with the array [x] of the C
    declaration) it returns the same value and leaves the same state. *)
Theorem xor4096i_nonzero_seed_forgets_the_past :
  forall (seed : Z) (st1 st2 : state),
    seed <> zero ->
    length (x st1) = Z.to_nat r -> length (x st2) = Z.to_nat r ->
    xor4096i seed st1 = xor4096i seed st2.
Proof.
  intros seed st1 st2 Hseed H1 H2. apply xor4096i_reseeded; assumption.
Qed.

Lemma xor4096i_nonzero_seed_forgets_the_past_witness :
  xor4096i 7 fresh = xor4096i 7 (snd (xor4096i 3 fresh)).
Proof.
  apply xor4096i_nonzero_seed_forgets_the_past.
  - discriminate.
  - reflexivity.
  - vm_compute. reflexivity.
Defined.

End XorgensInvariant.

(** ** sb_kite.c: [ApplyReverse] and [CopySubBlock] *)

Module KiteBlocks.
Import Word Machine Kite WordFacts MachineFacts.
Local Open Scope machine_scope.

(** Two stores into the same block, one after the other. *)
Lemma store_store p (k1 k2 : nat) v1 v2 w blk :
  heap w !! p = Some blk ->
  (k1 < length blk)%nat -> (k2 < length blk)%nat ->
  exists w',
    (store p (Z.of_nat k1) v1 ;; store p (Z.of_nat k2) v2) w = Done (tt, w')
    /\ heap w' = <[p := <[k2 := v2]> (<[k1 := v1]> blk)]> (heap w)
    /\ stores w' = stores w ++ [(p, Z.of_nat k1); (p, Z.of_nat k2)]
    /\ stdout w' = stdout w /\ clock w' = clock w
    /\ ticks w' = ticks w /\ rng w' = rng w.
Proof.
  intros Hp H1 H2.
  pose proof (store_Done p (Z.of_nat k1) v1 w blk Hp ltac:(lia)) as S1.
  rewrite (bind_Done _ _ _ _ _ S1). rewrite Nat2Z.id.
  set (w1 := mkWorld _ _ _ _ _ _).
  assert (Hlt : (p < length (heap w))%nat) by (eapply lookup_lt_Some; eauto).
  assert (Hp1 : heap w1 !! p = Some (<[k1 := v1]> blk))
    by (subst w1; cbn [heap]; apply list_lookup_insert_eq; exact Hlt).
  pose proof (store_Done p (Z.of_nat k2) v2 w1 _ Hp1
                ltac:(rewrite length_insert; lia)) as S2.
  rewrite S2. rewrite Nat2Z.id. eexists. split; [reflexivity|].
  subst w1. cbn [heap stores stdout clock ticks rng].
  rewrite list_insert_insert_eq. rewrite <- app_assoc. repeat split.
Qed.

(** [ApplyReverse] on the section [mid] of a block [pre ++ mid ++ post]. *)
Lemma ApplyReverse_section (buffer : pointer) :
  forall (n : nat) (mid pre post : list LADSPA_Data) (fuel : nat) (w : world),
  (length mid <= n)%nat ->
  heap w !! buffer = Some (pre ++ mid ++ post) ->
  pre <> [] \/ (2 <= length mid)%nat ->
  Z.of_nat (length pre + length mid) < ULONG_MOD ->
  (length mid < fuel)%nat ->
  exists w',
    ApplyReverse fuel buffer (Z.of_nat (length pre))
                 (Z.of_nat (length pre + length mid) - 1) w = Done (tt, w')
    /\ heap w' = <[buffer := pre ++ rev mid ++ post]> (heap w)
    /\ (exists ks, stores w' = stores w ++ map (fun k => (buffer, k)) ks)
    /\ stdout w' = stdout w /\ clock w' = clock w
    /\ ticks w' = ticks w /\ rng w' = rng w.
Proof.
  induction n as [|n IH]; intros mid pre post fuel w Hn Hb Hne Hmax Hfuel.
  - destruct mid as [|a mid]; [|cbn in Hn; lia].
    destruct Hne as [Hne|Hne]; [|cbn in Hne; lia].
    destruct fuel as [|fuel]; [lia|]. cbn [ApplyReverse length].
    replace (Z.of_nat (length pre) <=? Z.of_nat (length pre + 0) - 1)
      with false by (symmetry; apply Z.leb_gt; lia).
    exists w. split; [reflexivity|]. split.
    + cbn [rev app]. symmetry. apply list_insert_id. exact Hb.
    + split; [exists []; cbn; rewrite app_nil_r; reflexivity|auto].
  - destruct mid as [|a mid].
    { apply (IH [] pre post fuel w); auto. cbn. lia. }
    destruct fuel as [|fuel]; [lia|].
    assert (Hlt : (buffer < length (heap w))%nat)
      by (eapply lookup_lt_Some; eauto).
    pose proof ULONG_MOD_eq as HM.
    destruct (exists_last (l := a :: mid) ltac:(discriminate))
      as [body [b Hlast]].
    destruct body as [|a' mid'].
    + (* one sample: it is swapped with itself *)
      destruct mid as [|? ?]; [|destruct mid; discriminate Hlast].
      destruct Hne as [Hne|Hne]; [|cbn in Hne; lia].
      assert (Hpre : (0 < length pre)%nat) by (destruct pre; [easy|cbn; lia]).
      cbn [ApplyReverse length]. cbn [length] in Hmax, Hfuel.
      set (s := length pre) in *.
      replace (Z.of_nat (s + 1) - 1) with (Z.of_nat s) by lia.
      rewrite Z.leb_refl.
      assert (Hs : (pre ++ [a] ++ post) !! s = Some a).
      { subst s. rewrite lookup_app_r by lia. rewrite Nat.sub_diag.
        reflexivity. }
      assert (Hload : load buffer (Z.of_nat s) w = Done (a, w)).
      { apply (load_Done _ _ _ _ _ Hb); [lia|]. rewrite Nat2Z.id. exact Hs. }
      rewrite (bind_Done _ _ _ _ _ Hload).
      rewrite (bind_Done _ _ _ _ _ Hload).
      assert (Hlen : (s < length (pre ++ [a] ++ post))%nat)
        by (eapply lookup_lt_Some; eauto).
      destruct (store_store buffer s s a a w _ Hb Hlen Hlen)
        as [w2 [Hst [Hh [Hsto [H1 [H2 [H3 H4]]]]]]].
      assert (Hst' : (store buffer (Z.of_nat s) a ;;
                      (store buffer (Z.of_nat s) a ;;
                       ApplyReverse fuel buffer (wrap (Z.of_nat s + 1))
                                    (wrap (Z.of_nat s - 1)))) w
                     = ApplyReverse fuel buffer (wrap (Z.of_nat s + 1))
                                    (wrap (Z.of_nat s - 1)) w2).
      { revert Hst. unfold bind.
        destruct (store buffer (Z.of_nat s) a w) as [[[] w1]| |];
          [|discriminate|discriminate].
        destruct (store buffer (Z.of_nat s) a w1) as [[[] w1']| |];
          [|discriminate|discriminate].
        intros [= ->]. reflexivity. }
      rewrite Hst'. destruct fuel as [|fuel]; [lia|]. cbn [ApplyReverse].
      rewrite !wrap_small by lia.
      replace (Z.of_nat s + 1 <=? Z.of_nat s - 1)
        with false by (symmetry; apply Z.leb_gt; lia).
      exists w2. split; [reflexivity|]. split.
      * rewrite Hh, !(list_insert_id _ s a Hs). reflexivity.
      * split; [|auto]. exists [Z.of_nat s; Z.of_nat s]. exact Hsto.
    + (* two samples or more: the ends are exchanged *)
      injection Hlast as <- Hmid. subst mid.
      cbn [ApplyReverse]. cbn [length] in Hn, Hmax, Hfuel.
      rewrite length_app in Hn, Hmax, Hfuel. cbn [length] in Hn, Hmax, Hfuel.
      set (s := length pre) in *. set (m := length mid') in *.
      cbn [length]. rewrite length_app. cbn [length]. fold m.
      replace (Z.of_nat (s + S (m + 1)) - 1) with (Z.of_nat (s + m + 1)) by lia.
      replace (Z.of_nat s <=? Z.of_nat (s + m + 1))
        with true by (symmetry; apply Z.leb_le; lia).
      assert (Hnf : pre ++ (a :: mid' ++ [b]) ++ post
                    = pre ++ a :: mid' ++ b :: post)
        by (cbn [app]; rewrite <- !app_assoc; reflexivity).
      rewrite Hnf in Hb. clear Hnf.
      set (blk := pre ++ a :: mid' ++ b :: post) in *.
      assert (Hs : blk !! s = Some a).
      { subst blk s. rewrite lookup_app_r by lia. rewrite Nat.sub_diag.
        reflexivity. }
      assert (He : blk !! (s + m + 1)%nat = Some b).
      { subst blk s m.
        replace (pre ++ a :: mid' ++ b :: post)
          with ((pre ++ a :: mid') ++ b :: post)
          by (rewrite <- app_assoc; reflexivity).
        rewrite lookup_app_r by (rewrite length_app; cbn [length]; lia).
        rewrite length_app. cbn [length].
        replace (length pre + length mid' + 1
                 - (length pre + S (length mid')))%nat with 0%nat by lia.
        reflexivity. }
      assert (Hload1 : load buffer (Z.of_nat s) w = Done (a, w)).
      { apply (load_Done _ _ _ _ _ Hb); [lia|]. rewrite Nat2Z.id. exact Hs. }
      assert (Hload2 : load buffer (Z.of_nat (s + m + 1)) w = Done (b, w)).
      { apply (load_Done _ _ _ _ _ Hb); [lia|]. rewrite Nat2Z.id. exact He. }
      rewrite (bind_Done _ _ _ _ _ Hload1).
      rewrite (bind_Done _ _ _ _ _ Hload2).
      assert (Hl1 : (s < length blk)%nat) by (eapply lookup_lt_Some; eauto).
      assert (Hl2 : (s + m + 1 < length blk)%nat)
        by (eapply lookup_lt_Some; eauto).
      destruct (store_store buffer s (s + m + 1) b a w _ Hb Hl1 Hl2)
        as [w2 [Hst [Hh [Hsto [H1 [H2 [H3 H4]]]]]]].
      assert (Hst' : forall k : M unit,
                 (store buffer (Z.of_nat s) b ;;
                  (store buffer (Z.of_nat (s + m + 1)) a ;; k)) w = k w2).
      { intros k. revert Hst. unfold bind.
        destruct (store buffer (Z.of_nat s) b w) as [[[] w1]| |];
          [|discriminate|discriminate].
        destruct (store buffer (Z.of_nat (s + m + 1)) a w1) as [[[] w1']| |];
          [|discriminate|discriminate].
        intros [= ->]. reflexivity. }
      rewrite Hst'. rewrite !wrap_small by lia.
      assert (Hblk2 : <[(s + m + 1)%nat := a]> (<[s := b]> blk)
                      = (pre ++ [b]) ++ mid' ++ (a :: post)).
      { subst blk s m.
        rewrite (insert_app_r_alt pre _ (length pre)) by lia.
        rewrite Nat.sub_diag.
        change (<[0%nat := b]> (a :: mid' ++ b :: post))
          with (b :: mid' ++ b :: post).
        replace (pre ++ b :: mid' ++ b :: post)
          with ((pre ++ b :: mid') ++ b :: post)
          by (rewrite <- app_assoc; reflexivity).
        replace (length pre + length mid' + 1)%nat
          with (length (pre ++ b :: mid') + 0)%nat
          by (rewrite length_app; cbn [length]; lia).
        rewrite insert_app_r.
        change (<[0%nat := a]> (b :: post)) with (a :: post).
        rewrite <- !app_assoc. reflexivity. }
      destruct (IH mid' (pre ++ [b]) (a :: post) fuel w2)
        as [w' [Hrun [Hh' [[ks Hks] [G1 [G2 [G3 G4]]]]]]].
      * fold m. lia.
      * rewrite Hh. rewrite list_lookup_insert_eq by exact Hlt.
        rewrite Hblk2. reflexivity.
      * left. destruct pre; discriminate.
      * rewrite length_app. cbn [length]. fold s m. lia.
      * fold m. lia.
      * rewrite length_app in Hrun. cbn [length] in Hrun. fold s m in Hrun.
        replace (Z.of_nat (s + 1)) with (Z.of_nat s + 1) in Hrun by lia.
        replace (Z.of_nat (s + 1 + m) - 1)
          with (Z.of_nat (s + m + 1) - 1) in Hrun by lia.
        exists w'. split; [exact Hrun|]. split.
        -- rewrite Hh', Hh. rewrite list_insert_insert_eq. f_equal.
           cbn [rev]. rewrite rev_app_distr. cbn [rev app].
           rewrite <- !app_assoc. reflexivity.
        -- split.
           ++ exists (Z.of_nat s :: Z.of_nat (s + m + 1) :: ks).
              rewrite Hks, Hsto. rewrite <- app_assoc. reflexivity.
           ++ rewrite G1, G2, G3, G4. auto.
Qed.

(** [ApplyReverse] on a section [start .. end] with [0 < end]: the section is
    reversed in place, the rest of the buffer and of the state stays. *)
Lemma ApplyReverse_in_place :
  forall (buffer : pointer) (blk : list LADSPA_Data) (start end_ : Z)
         (fuel : nat) (w : world),
    heap w !! buffer = Some blk ->
    0 <= start <= end_ -> 0 < end_ ->
    end_ < Z.of_nat (length blk) -> end_ < ULONG_MAX ->
    (Z.to_nat (end_ - start + 1) < fuel)%nat ->
    exists w',
      ApplyReverse fuel buffer start end_ w = Done (tt, w')
      /\ heap w'
         = <[buffer := take (Z.to_nat start) blk
                         ++ rev (take (Z.to_nat (end_ - start + 1))
                                      (drop (Z.to_nat start) blk))
                         ++ drop (Z.to_nat (end_ + 1)) blk]> (heap w)
      /\ (exists ks, stores w' = stores w ++ map (fun k => (buffer, k)) ks)
      /\ stdout w' = stdout w /\ clock w' = clock w
      /\ ticks w' = ticks w /\ rng w' = rng w.
Proof.
  intros buffer blk start end_ fuel w Hb Hse Hpos Hlen Hmax Hfuel.
  set (s := Z.to_nat start). set (n := Z.to_nat (end_ - start + 1)).
  set (pre := take s blk). set (mid := take n (drop s blk)).
  set (post := drop (Z.to_nat (end_ + 1)) blk).
  assert (Hpre : length pre = s) by (subst pre; rewrite length_take; lia).
  assert (Hmid : length mid = n)
    by (subst mid; rewrite length_take, length_drop; lia).
  assert (Hblk : blk = pre ++ mid ++ post).
  { subst pre mid post.
    replace (Z.to_nat (end_ + 1)) with (s + n)%nat by lia.
    rewrite <- (take_drop s blk) at 1. f_equal.
    rewrite <- (take_drop n (drop s blk)) at 1. f_equal.
    rewrite drop_drop. reflexivity. }
  rewrite ULONG_MAX_eq in Hmax.
  destruct (ApplyReverse_section buffer n mid pre post fuel w)
    as [w' [Hrun H]].
  - lia.
  - rewrite <- Hblk. exact Hb.
  - destruct (Z.eq_dec start 0) as [H0|H0].
    + right. lia.
    + left. intros E. rewrite E in Hpre. cbn in Hpre. lia.
  - lia.
  - lia.
  - exists w'. split; [|exact H].
    rewrite Hpre, Hmid in Hrun.
    replace (Z.of_nat s) with start in Hrun by lia.
    replace (Z.of_nat (s + n) - 1) with end_ in Hrun by lia.
    exact Hrun.
Qed.


(** X9. [ApplyReverse] reverses the section [start .. end] of the buffer in
    place and leaves the rest of the buffer as it was, for every section
    but the one made of the first sample alone. *)
Theorem ApplyReverse_reverses_the_section :
  forall (buffer : pointer) (blk : list LADSPA_Data) (start end_ : Z)
         (fuel : nat) (w : world),
    heap w !! buffer = Some blk ->
    0 <= start <= end_ -> 0 < end_ ->
    end_ < Z.of_nat (length blk) -> end_ < ULONG_MAX ->
    (Z.to_nat (end_ - start + 1) < fuel)%nat ->
    exists w',
      ApplyReverse fuel buffer start end_ w = Done (tt, w')
      /\ heap w'
         = <[buffer := take (Z.to_nat start) blk
                         ++ rev (take (Z.to_nat (end_ - start + 1))
                                      (drop (Z.to_nat start) blk))
                         ++ drop (Z.to_nat (end_ + 1)) blk]> (heap w)
      /\ (exists ks, stores w' = stores w ++ map (fun k => (buffer, k)) ks)
      /\ stdout w' = stdout w /\ clock w' = clock w
      /\ ticks w' = ticks w /\ rng w' = rng w.
Proof.
  exact ApplyReverse_in_place.
Qed.

(** [ApplyReverse] on [start = end = 0]: after the first swap [end] is
    0xFFFFFFFFFFFFFFFF and the second turn reads outside the buffer. *)
Lemma ApplyReverse_first_sample :
  forall (buffer : pointer) (blk : list LADSPA_Data) (fuel : nat) (w : world),
    heap w !! buffer = Some blk ->
    Z.of_nat (length blk) <= ULONG_MAX ->
    (2 <= fuel)%nat ->
    ApplyReverse fuel buffer 0 0 w = Fault OutOfBounds.
Proof.
  intros buffer blk fuel w Hb Hlen Hfuel.
  destruct fuel as [|[|fuel]]; [lia|lia|].
  rewrite ULONG_MAX_eq, ULONG_MOD_eq in Hlen.
  cbn [ApplyReverse]. rewrite Z.leb_refl.
  destruct blk as [|a blk].
  { apply bind_Fault. unfold load. rewrite Hb. reflexivity. }
  assert (Hload : load buffer 0 w = Done (a, w)).
  { apply (load_Done _ _ _ _ _ Hb); [lia|]. reflexivity. }
  rewrite (bind_Done _ _ _ _ _ Hload). rewrite (bind_Done _ _ _ _ _ Hload).
  destruct (store_store buffer 0 0 a a w _ Hb) as [w2 [Hst [Hh _]]];
    [cbn; lia|cbn; lia|].
  change (Z.of_nat 0) with 0 in Hst.
  assert (Hst' : forall k : M unit,
             (store buffer 0 a ;; (store buffer 0 a ;; k)) w = k w2).
  { intros k. revert Hst. unfold bind.
    destruct (store buffer 0 a w) as [[[] w1]| |];
      [|discriminate|discriminate].
    destruct (store buffer 0 a w1) as [[[] w1']| |];
      [|discriminate|discriminate].
    intros [= ->]. reflexivity. }
  rewrite Hst'.
  change (wrap (0 + 1)) with 1. change (wrap (0 - 1)) with 18446744073709551615.
  cbn [ApplyReverse].
  change (1 <=? 18446744073709551615) with true. cbv iota.
  assert (Hb2 : heap w2 !! buffer = Some (a :: blk)).
  { rewrite Hh. apply list_lookup_insert_eq. eapply lookup_lt_Some; eauto. }
  assert (Hlast : load buffer 18446744073709551615 w2 = Fault OutOfBounds).
  { unfold load. rewrite Hb2.
    replace (18446744073709551615 <? Z.of_nat (length (a :: blk)))
      with false by (symmetry; apply Z.ltb_ge; lia).
    rewrite andb_false_r. reflexivity. }
  unfold bind at 1. destruct (load buffer 1 w2) as [[v w3]| |] eqn:E1;
    [|unfold load in E1; rewrite Hb2 in E1;
      destruct (_ && _) in E1; [destruct (_ !! _) in E1|];
      congruence
     |unfold load in E1; rewrite Hb2 in E1;
      destruct (_ && _) in E1; [destruct (_ !! _) in E1|];
      discriminate].
  assert (w3 = w2).
  { unfold load in E1. rewrite Hb2 in E1.
    destruct (_ && _) in E1; [destruct (_ !! _) in E1|]; congruence. }
  subst w3. apply bind_Fault. exact Hlast.
Qed.

(** X10. On the section made of the first sample alone, [start = end = 0],
    [--end] wraps to 0xFFFFFFFFFFFFFFFF, the loop goes on and the second
    turn reads outside the buffer. *)
Theorem ApplyReverse_runs_off_after_the_first_sample :
  forall (buffer : pointer) (blk : list LADSPA_Data) (fuel : nat) (w : world),
    heap w !! buffer = Some blk ->
    Z.of_nat (length blk) <= ULONG_MAX ->
    (2 <= fuel)%nat ->
    ApplyReverse fuel buffer 0 0 w = Fault OutOfBounds.
Proof.
  exact ApplyReverse_first_sample.
Qed.

(** The loop of [CopySubBlock] between two different blocks. *)
Lemma copy_loop_between (destination source : pointer)
    (bs : list LADSPA_Data) :
  destination <> source ->
  Z.of_nat (length bs) < ULONG_MOD ->
  forall (n dn sn fuel : nat) (w : world) (bd : list LADSPA_Data),
  heap w !! destination = Some bd -> heap w !! source = Some bs ->
  Z.of_nat (length bd) < ULONG_MOD ->
  (dn + n <= length bd)%nat -> (sn + n <= length bs)%nat ->
  (n < fuel)%nat ->
  exists w',
    copy_loop fuel destination source (Z.of_nat dn) (Z.of_nat sn)
              (Z.of_nat (sn + n) - 1) w = Done (tt, w')
    /\ heap w' = <[destination :=
                     take dn bd ++ take n (drop sn bs) ++ drop (dn + n) bd]>
                 (heap w)
    /\ stores w' = stores w ++ map (fun k => (destination, k))
                                   (upto (Z.of_nat dn) n)
    /\ stdout w' = stdout w /\ clock w' = clock w
    /\ ticks w' = ticks w /\ rng w' = rng w.
Proof.
  intros Hne HLs. pose proof ULONG_MOD_eq as HM.
  induction n as [|n IH]; intros dn sn fuel w bd Hd Hs HLd Ld Ls Hfuel.
  - destruct fuel as [|fuel]; [lia|]. cbn [copy_loop].
    replace (Z.of_nat sn <=? Z.of_nat (sn + 0) - 1)
      with false by (symmetry; apply Z.leb_gt; lia).
    exists w. split; [reflexivity|]. split.
    + rewrite Nat.add_0_r, take_0, app_nil_l, take_drop. symmetry.
      apply list_insert_id. exact Hd.
    + cbn [upto seq map]. rewrite app_nil_r. repeat split.
  - destruct fuel as [|fuel]; [lia|]. cbn [copy_loop].
    replace (Z.of_nat sn <=? Z.of_nat (sn + S n) - 1)
      with true by (symmetry; apply Z.leb_le; lia).
    destruct (load_in_range source (Z.of_nat sn) w bs Hs) as [v [Hv Hload]];
      [lia|].
    rewrite Nat2Z.id in Hv.
    rewrite (bind_Done _ _ _ _ _ Hload).
    pose proof (store_Done destination (Z.of_nat dn) v w bd Hd ltac:(lia))
      as Hstore.
    rewrite (bind_Done _ _ _ _ _ Hstore). rewrite Nat2Z.id in *.
    set (w1 := mkWorld _ _ _ _ _ _) in *.
    assert (Hlt : (destination < length (heap w))%nat)
      by (eapply lookup_lt_Some; eauto).
    rewrite !wrap_small by lia.
    replace (Z.of_nat dn + 1) with (Z.of_nat (S dn)) by lia.
    replace (Z.of_nat sn + 1) with (Z.of_nat (S sn)) by lia.
    replace (Z.of_nat (sn + S n) - 1) with (Z.of_nat (S sn + n) - 1) by lia.
    destruct (IH (S dn) (S sn) fuel w1 (<[dn := v]> bd))
      as [w' [Hrun [Hh [Hst [H1 [H2 [H3 H4]]]]]]].
    + subst w1. cbn [heap]. apply list_lookup_insert_eq. exact Hlt.
    + subst w1. cbn [heap]. rewrite list_lookup_insert_ne by exact Hne.
      exact Hs.
    + rewrite length_insert. lia.
    + rewrite length_insert. lia.
    + lia.
    + lia.
    + exists w'. split; [exact Hrun|].
      split; [|split; [|subst w1; cbn in *; auto]].
      * rewrite Hh. subst w1. cbn [heap]. rewrite list_insert_insert_eq.
        f_equal.
        rewrite (take_S_r (<[dn:=v]> bd) dn v)
          by (apply list_lookup_insert_eq; lia).
        rewrite take_insert_ge by lia.
        rewrite drop_insert_lt by lia.
        rewrite (drop_S bs v sn Hv). cbn [take].
        rewrite <- app_assoc. cbn [app].
        replace (S dn + n)%nat with (dn + S n)%nat by lia. reflexivity.
      * rewrite Hst. subst w1. cbn [stores]. rewrite upto_S.
        cbn [map]. rewrite <- app_assoc.
        replace (Z.of_nat (S dn)) with (Z.of_nat dn + 1) by lia.
        reflexivity.
Qed.

(** The loop of [CopySubBlock] inside one block, toward lower indexes:
    every sample is read before the loop writes over it. *)
Lemma copy_loop_within (buffer : pointer) :
  forall (n dn sn fuel : nat) (w : world) (blk : list LADSPA_Data),
  heap w !! buffer = Some blk ->
  Z.of_nat (length blk) < ULONG_MOD ->
  (dn < sn)%nat -> (sn + n <= length blk)%nat ->
  (n < fuel)%nat ->
  exists w',
    copy_loop fuel buffer buffer (Z.of_nat dn) (Z.of_nat sn)
              (Z.of_nat (sn + n) - 1) w = Done (tt, w')
    /\ heap w' = <[buffer :=
                     take dn blk ++ take n (drop sn blk) ++ drop (dn + n) blk]>
                 (heap w)
    /\ stores w' = stores w ++ map (fun k => (buffer, k))
                                   (upto (Z.of_nat dn) n)
    /\ stdout w' = stdout w /\ clock w' = clock w
    /\ ticks w' = ticks w /\ rng w' = rng w.
Proof.
  pose proof ULONG_MOD_eq as HM.
  induction n as [|n IH]; intros dn sn fuel w blk Hb HL Hds Ls Hfuel.
  - destruct fuel as [|fuel]; [lia|]. cbn [copy_loop].
    replace (Z.of_nat sn <=? Z.of_nat (sn + 0) - 1)
      with false by (symmetry; apply Z.leb_gt; lia).
    exists w. split; [reflexivity|]. split.
    + rewrite Nat.add_0_r, take_0, app_nil_l, take_drop. symmetry.
      apply list_insert_id. exact Hb.
    + cbn [upto seq map]. rewrite app_nil_r. repeat split.
  - destruct fuel as [|fuel]; [lia|]. cbn [copy_loop].
    replace (Z.of_nat sn <=? Z.of_nat (sn + S n) - 1)
      with true by (symmetry; apply Z.leb_le; lia).
    destruct (load_in_range buffer (Z.of_nat sn) w blk Hb) as [v [Hv Hload]];
      [lia|].
    rewrite Nat2Z.id in Hv.
    rewrite (bind_Done _ _ _ _ _ Hload).
    pose proof (store_Done buffer (Z.of_nat dn) v w blk Hb ltac:(lia))
      as Hstore.
    rewrite (bind_Done _ _ _ _ _ Hstore). rewrite Nat2Z.id in *.
    set (w1 := mkWorld _ _ _ _ _ _) in *.
    assert (Hlt : (buffer < length (heap w))%nat)
      by (eapply lookup_lt_Some; eauto).
    rewrite !wrap_small by lia.
    replace (Z.of_nat dn + 1) with (Z.of_nat (S dn)) by lia.
    replace (Z.of_nat sn + 1) with (Z.of_nat (S sn)) by lia.
    replace (Z.of_nat (sn + S n) - 1) with (Z.of_nat (S sn + n) - 1) by lia.
    destruct (IH (S dn) (S sn) fuel w1 (<[dn := v]> blk))
      as [w' [Hrun [Hh [Hst [H1 [H2 [H3 H4]]]]]]].
    + subst w1. cbn [heap]. apply list_lookup_insert_eq. exact Hlt.
    + rewrite length_insert. lia.
    + lia.
    + rewrite length_insert. lia.
    + lia.
    + exists w'. split; [exact Hrun|].
      split; [|split; [|subst w1; cbn in *; auto]].
      * rewrite Hh. subst w1. cbn [heap]. rewrite list_insert_insert_eq.
        f_equal.
        rewrite (take_S_r (<[dn:=v]> blk) dn v)
          by (apply list_lookup_insert_eq; lia).
        rewrite take_insert_ge by lia.
        rewrite !drop_insert_lt by lia.
        rewrite (drop_S blk v sn Hv). cbn [take].
        rewrite <- app_assoc. cbn [app].
        replace (S dn + n)%nat with (dn + S n)%nat by lia. reflexivity.
      * rewrite Hst. subst w1. cbn [stores]. rewrite upto_S.
        cbn [map]. rewrite <- app_assoc.
        replace (Z.of_nat (S dn)) with (Z.of_nat dn + 1) by lia.
        reflexivity.
Qed.

(** X11. [CopySubBlock] from one buffer to another: the samples
    [src_start .. src_end] of the source go to the destination from
    [dest_start] on, in increasing order, and nothing else changes, unless
    [dest_start = src_start]: then nothing is copied, the buffers being
    different or not. *)
Theorem CopySubBlock_between_buffers :
  forall (destination source : pointer) (bd bs : list LADSPA_Data)
         (dest_start src_start src_end : Z) (fuel : nat) (w : world),
    destination <> source ->
    heap w !! destination = Some bd -> heap w !! source = Some bs ->
    Z.of_nat (length bd) < ULONG_MOD -> Z.of_nat (length bs) < ULONG_MOD ->
    0 <= dest_start -> 0 <= src_start <= src_end ->
    src_end < Z.of_nat (length bs) ->
    dest_start + (src_end - src_start + 1) <= Z.of_nat (length bd) ->
    (Z.to_nat (src_end - src_start + 1) < fuel)%nat ->
    let n := Z.to_nat (src_end - src_start + 1) in
    (dest_start <> src_start ->
     exists w',
       CopySubBlock fuel destination dest_start source src_start src_end w
       = Done (tt, w')
       /\ heap w'
          = <[destination :=
                take (Z.to_nat dest_start) bd
                  ++ take n (drop (Z.to_nat src_start) bs)
                  ++ drop (Z.to_nat dest_start + n) bd]> (heap w)
       /\ stores w' = stores w ++ map (fun k => (destination, k))
                                      (upto dest_start n)
       /\ stdout w' = stdout w /\ clock w' = clock w
       /\ ticks w' = ticks w /\ rng w' = rng w)
    /\ (dest_start = src_start ->
        CopySubBlock fuel destination dest_start source src_start src_end w
        = Done (tt, w)).
Proof.
  intros destination source bd bs dest_start src_start src_end fuel w
    Hne Hd Hs HLd HLs Hd0 Hse Hend Hroom Hfuel n. split.
  - intros Hdiff. unfold CopySubBlock.
    replace (dest_start =? src_start) with false
      by (symmetry; apply Z.eqb_neq; exact Hdiff).
    replace (src_end <? src_start) with false
      by (symmetry; apply Z.ltb_ge; lia).
    cbn [orb].
    destruct (copy_loop_between destination source bs Hne HLs n
                (Z.to_nat dest_start) (Z.to_nat src_start) fuel w bd)
      as [w' [Hrun H]]; try assumption; try lia.
    replace (Z.of_nat (Z.to_nat dest_start)) with dest_start in Hrun, H
      by lia.
    exists w'. split; [|exact H].
    replace (Z.of_nat (Z.to_nat src_start)) with src_start in Hrun by lia.
    replace (Z.of_nat (Z.to_nat src_start + n) - 1) with src_end in Hrun
      by lia.
    exact Hrun.
  - intros ->. unfold CopySubBlock. rewrite Z.eqb_refl. reflexivity.
Qed.

(** X12. [CopySubBlock] inside one buffer, toward lower indexes
    ([dest_start < src_start], the way [run_Kite] writes over the section
    it has used): the samples [src_start .. src_end] as they were before
    the call are found from [dest_start] on, also when the two sections
    overlap. *)
Theorem CopySubBlock_moves_a_section_down :
  forall (buffer : pointer) (blk : list LADSPA_Data)
         (dest_start src_start src_end : Z) (fuel : nat) (w : world),
    heap w !! buffer = Some blk ->
    Z.of_nat (length blk) < ULONG_MOD ->
    0 <= dest_start < src_start -> src_start <= src_end ->
    src_end < Z.of_nat (length blk) ->
    (Z.to_nat (src_end - src_start + 1) < fuel)%nat ->
    let n := Z.to_nat (src_end - src_start + 1) in
    exists w',
      CopySubBlock fuel buffer dest_start buffer src_start src_end w
      = Done (tt, w')
      /\ heap w'
         = <[buffer :=
               take (Z.to_nat dest_start) blk
                 ++ take n (drop (Z.to_nat src_start) blk)
                 ++ drop (Z.to_nat dest_start + n) blk]> (heap w)
      /\ stdout w' = stdout w /\ clock w' = clock w
      /\ ticks w' = ticks w /\ rng w' = rng w.
Proof.
  intros buffer blk dest_start src_start src_end fuel w
    Hb HL Hds Hse Hend Hfuel n. unfold CopySubBlock.
  replace (dest_start =? src_start) with false
    by (symmetry; apply Z.eqb_neq; lia).
  replace (src_end <? src_start) with false
    by (symmetry; apply Z.ltb_ge; lia).
  cbn [orb].
  destruct (copy_loop_within buffer n (Z.to_nat dest_start)
              (Z.to_nat src_start) fuel w blk)
    as [w' [Hrun [Hh [_ H]]]]; try assumption; try lia.
  exists w'. split; [|split; [exact Hh|exact H]].
  replace (Z.of_nat (Z.to_nat dest_start)) with dest_start in Hrun by lia.
  replace (Z.of_nat (Z.to_nat src_start)) with src_start in Hrun by lia.
  replace (Z.of_nat (Z.to_nat src_start + n) - 1) with src_end in Hrun
    by lia.
  exact Hrun.
Qed.

End KiteBlocks.

Module KiteShort.
Import Word Ieee Machine Kite WordFacts MachineFacts KiteBlocks.
Local Open Scope machine_scope.

Lemma to_short_small v : 0 <= v <= 2 -> to_short v = v.
Proof.
  intros H. unfold to_short.
  change (2 ^ 16) with 65536. change (2 ^ 15) with 32768.
  rewrite Z.mod_small by lia.
  replace (v <? 32768) with true by (symmetry; apply Z.ltb_lt; lia).
  reflexivity.
Qed.

Lemma stores_into (b : pointer) (ks : list Z) (p : pointer) (k : Z) :
  (p, k) ∈ map (fun j => (b, j)) ks -> p = b.
Proof.
  rewrite list_elem_of_In, in_map_iff. intros [j [[= <- _] _]]. reflexivity.
Qed.

(** X15. A buffer of no more than twice [MIN_BLOCK_START] samples is one
    sub-block for [run_Kite]: the call ends after one turn with the
    sub-block [0 .. N-1], both input buffers are either left as they were
    or reversed in place over their first [N] samples, and no sample is
    stored anywhere but in the two input buffers: the output buffers are
    never written. *)
Theorem run_Kite_short_buffer :
  forall (kite : Kite) (N MIN : Z) (il ir : list LADSPA_Data)
         (fuel : nat) (w : world),
    1 < N -> N < ULONG_MAX ->
    sample_rate kite <> 0 ->
    MIN_BLOCK_START (sample_rate kite) = Some MIN ->
    N <= wrap (MIN * 2) ->
    Input_Left kite <> Input_Right kite ->
    heap w !! Input_Left kite = Some il ->
    heap w !! Input_Right kite = Some ir ->
    N <= Z.of_nat (length il) -> N <= Z.of_nat (length ir) ->
    (Z.to_nat N + 2 <= fuel)%nat ->
    exists w',
      run_Kite fuel (Some kite) N w = Done ([(0, N - 1)], w')
      /\ (heap w' = heap w
          \/ heap w'
             = <[Input_Right kite :=
                   rev (take (Z.to_nat N) ir) ++ drop (Z.to_nat N) ir]>
               (<[Input_Left kite :=
                    rev (take (Z.to_nat N) il) ++ drop (Z.to_nat N) il]>
                (heap w)))
      /\ (forall p k, (p, k) ∈ stores w' ->
            (p, k) ∈ stores w
            \/ p = Input_Left kite \/ p = Input_Right kite)
      /\ stdout w' = stdout w.
Proof.
  intros kite N MIN il ir fuel w HN HNmax Hrate HMIN Hshort Hne Hil Hir
    Lil Lir Hfuel.
  pose proof ULONG_MOD_eq as HM. rewrite ULONG_MAX_eq in HNmax.
  unfold run_Kite.
  replace (N <=? 1) with false by (symmetry; apply Z.leb_gt; lia).
  replace (sample_rate kite =? 0) with false
    by (symmetry; apply Z.eqb_neq; exact Hrate).
  rewrite HMIN. cbn [lift_option]. unfold bind at 1. unfold ret at 1.
  set (MAX := MAX_BLOCK_END MIN (sample_rate kite)).
  destruct fuel as [|f1]; [lia|]. cbn [kite_loop].
  replace (0 <? N) with true by (symmetry; apply Z.ltb_lt; lia).
  unfold choose_block.
  replace (N <=? wrap (MIN * 2)) with true
    by (symmetry; apply Z.leb_le; exact Hshort).
  unfold bind at 1. unfold ret at 1.
  rewrite (wrap_small (N - 1)) by lia.
  assert (Hpb : exists w2,
             process_block f1 kite 0 N (0, N - 1) w = Done ((N, 0), w2)
             /\ (heap w2 = heap w
                 \/ heap w2
                    = <[Input_Right kite :=
                          rev (take (Z.to_nat N) ir) ++ drop (Z.to_nat N) ir]>
                      (<[Input_Left kite :=
                           rev (take (Z.to_nat N) il) ++ drop (Z.to_nat N) il]>
                       (heap w)))
             /\ (forall p k, (p, k) ∈ stores w2 ->
                   (p, k) ∈ stores w
                   \/ p = Input_Left kite \/ p = Input_Right kite)
             /\ stdout w2 = stdout w).
  2:{ destruct Hpb as [w2 [Hpb Hpost]]. rewrite (bind_Done _ _ _ _ _ Hpb).
      destruct f1 as [|f2]; [lia|]. cbn [kite_loop].
      replace (N <? N) with false by (symmetry; apply Z.ltb_ge; lia).
      exists w2. split; [reflexivity|exact Hpost]. }
  (* the draw that decides on the reversal *)
  unfold process_block.
  destruct (GetRandomNaturalNumber_between 0 2 w)
    as [v [w1 [Hg [Hv [Hh1 [Hs1 [Ho1 Hc1]]]]]]]; [lia|lia|lia|].
  rewrite (bind_Done _ _ _ _ _ Hg). rewrite (to_short_small v Hv).
  assert (Hil1 : heap w1 !! Input_Left kite = Some il) by (rewrite Hh1; exact Hil).
  assert (Hir1 : heap w1 !! Input_Right kite = Some ir) by (rewrite Hh1; exact Hir).
  assert (Hrev : exists w2,
             (if v =? 0
              then ApplyReverse f1 (Input_Left kite) 0 (N - 1) ;;
                   ApplyReverse f1 (Input_Right kite) 0 (N - 1)
              else ret tt) w1 = Done (tt, w2)
             /\ (heap w2 = heap w
                 \/ heap w2
                    = <[Input_Right kite :=
                          rev (take (Z.to_nat N) ir) ++ drop (Z.to_nat N) ir]>
                      (<[Input_Left kite :=
                           rev (take (Z.to_nat N) il) ++ drop (Z.to_nat N) il]>
                       (heap w)))
             /\ (forall p k, (p, k) ∈ stores w2 ->
                   (p, k) ∈ stores w
                   \/ p = Input_Left kite \/ p = Input_Right kite)
             /\ stdout w2 = stdout w).
  { destruct (v =? 0).
    - destruct (ApplyReverse_in_place (Input_Left kite) il 0 (N - 1)
                  f1 w1 Hil1)
        as [w2 [Hr2 [Hh2 [[ks2 Hs2] [Ho2 _]]]]]; try lia.
      { rewrite ULONG_MAX_eq. lia. }
      assert (Hir2 : heap w2 !! Input_Right kite = Some ir).
      { rewrite Hh2. rewrite list_lookup_insert_ne by exact Hne. exact Hir1. }
      destruct (ApplyReverse_in_place (Input_Right kite) ir 0 (N - 1)
                  f1 w2 Hir2)
        as [w3 [Hr3 [Hh3 [[ks3 Hs3] [Ho3 _]]]]]; try lia.
      { rewrite ULONG_MAX_eq. lia. }
      exists w3. split; [rewrite (bind_Done _ _ _ _ _ Hr2); exact Hr3|].
      split; [|split].
      + right. rewrite Hh3, Hh2, Hh1.
        change (Z.to_nat 0) with 0%nat. rewrite !take_0, !drop_0.
        replace (N - 1 - 0 + 1) with N by lia.
        replace (N - 1 + 1) with N by lia. reflexivity.
      + intros p k Hin. rewrite Hs3, Hs2, Hs1 in Hin.
        apply elem_of_app in Hin. destruct Hin as [Hin|Hin].
        * apply elem_of_app in Hin. destruct Hin as [Hin|Hin]; [auto|].
          apply stores_into in Hin. auto.
        * apply stores_into in Hin. auto.
      + rewrite Ho3, Ho2, Ho1. reflexivity.
    - exists w1. split; [reflexivity|]. split; [left; exact Hh1|].
      split; [|exact Ho1]. intros p k Hin. rewrite Hs1 in Hin. auto. }
  destruct Hrev as [w2 [Hrun2 Hpost]].
  rewrite (bind_Done _ _ _ _ _ Hrun2).
  rewrite !(bind_Done _ _ _ _ _ (KiteFacts.CopySubBlock_same_start _ _ _ _ _ _)).
  replace (wrap (wrap (N - 1 - 0) + 1)) with N
    by (rewrite (wrap_small (N - 1 - 0)) by lia; rewrite wrap_small by lia; lia).
  replace (wrap (N - N)) with 0 by (rewrite Z.sub_diag; reflexivity).
  replace (N - 1 <? 0) with false by (symmetry; apply Z.ltb_ge; lia).
  replace (wrap (N - 1 + 1)) with N by (rewrite wrap_small by lia; lia).
  assert (Hnone : forall p, CopySubBlock f1 p 0 p N (wrap (N - 1)) w2
                            = Done (tt, w2)).
  { intros p. unfold CopySubBlock. rewrite (wrap_small (N - 1)) by lia.
    replace (N - 1 <? N) with true by (symmetry; apply Z.ltb_lt; lia).
    rewrite orb_true_r. reflexivity. }
  rewrite !(bind_Done _ _ _ _ _ (Hnone _)).
  unfold ret at 1. rewrite (wrap_small (0 + N)) by lia.
  exists w2. split; [reflexivity|exact Hpost].
Qed.

End KiteShort.

(** ** Exact conversions and products in binary64 *)

Module FloatExact.
Import Word Ieee FloatFacts.

Lemma iter_xO (p k : positive) :
  Zpos (Pos.iter xO p k) = Zpos p * 2 ^ Zpos k.
Proof.
  induction k as [|k IH] using Pos.peano_ind.
  - cbn [Pos.iter]. rewrite Pos2Z.inj_xO. change (2 ^ 1) with 2. lia.
  - rewrite Pos.iter_succ, Pos2Z.inj_xO, IH, Pos2Z.inj_succ.
    rewrite Z.pow_succ_r by lia. lia.
Qed.

(** An integer below 2^53 converts to [double] without rounding: the
    mantissa is the integer shifted to 53 digits. *)
Lemma double_of_positive (p : positive) (d : Z) :
  Zpos (digits2_pos p) = d -> d <= 53 ->
  exists M : positive,
    Zpos M = Zpos p * 2 ^ (53 - d)
    /\ Zpos (digits2_pos M) = 53
    /\ double_of_Z (Zpos p) = S754_finite false M (d - 53).
Proof.
  intros Hd H53. pose proof (digits2_pos_bounds p) as Hb. rewrite Hd in Hb.
  assert (Hd1 : 1 <= d) by (subst d; lia).
  unfold double_of_Z, binary_normalize, binary_round.
  rewrite Hd. unfold fexp, emin, double_prec, double_emax.
  rewrite Z.max_l by lia. unfold shl_align.
  destruct (d + 0 - 53 - 0) as [|k|k] eqn:Ek.
  - assert (E53 : d = 53) by lia. exists p.
    split; [replace (53 - d) with 0 by lia; lia|].
    split; [rewrite Hd; exact E53|].
    replace (d - 53) with 0 by lia.
    apply round_exact; [rewrite Hd; exact E53|lia].
  - lia.
  - assert (Hk : Zpos k = 53 - d) by lia.
    assert (HM : Zpos (Pos.iter xO p k) = Zpos p * 2 ^ (53 - d)).
    { rewrite iter_xO, Hk. reflexivity. }
    assert (Hdig : Zpos (digits2_pos (Pos.iter xO p k)) = 53).
    { apply digits2_pos_unique. rewrite HM.
      assert (E1 : 2 ^ (53 - 1) = 2 ^ (d - 1) * 2 ^ (53 - d))
        by (rewrite <- Z.pow_add_r by lia; f_equal; lia).
      assert (E2 : 2 ^ 53 = 2 ^ d * 2 ^ (53 - d))
        by (rewrite <- Z.pow_add_r by lia; f_equal; lia).
      rewrite E1, E2.
      assert (0 < 2 ^ (53 - d)) by (apply Z.pow_pos_nonneg; lia). nia. }
    exists (Pos.iter xO p k). split; [exact HM|]. split; [exact Hdig|].
    replace (d + 0 - 53) with (d - 53) by lia.
    apply round_exact; [exact Hdig|lia].
Qed.

(** A product whose mantissa is a 53-digit number times a power of two is
    exact. *)
Lemma round_shifted (M P : positive) (k E : Z) :
  Zpos (digits2_pos M) = 53 -> 0 <= k -> Zpos P = Zpos M * 2 ^ k ->
  -1074 <= E + k <= 971 ->
  binary_round_aux double_prec double_emax false (Zpos P) E loc_Exact
  = S754_finite false M (E + k).
Proof.
  intros HdM Hk HP HE.
  pose proof (digits2_pos_bounds M) as HbM. rewrite HdM in HbM.
  assert (Hpow : 0 < 2 ^ k) by (apply Z.pow_pos_nonneg; lia).
  assert (HdP : Zpos (digits2_pos P) = 53 + k).
  { apply digits2_pos_unique. rewrite HP.
    replace (53 + k - 1) with ((53 - 1) + k) by lia.
    rewrite !Z.pow_add_r by lia. nia. }
  destruct (shr_to_precision P E (53 + k) HdP ltac:(lia) ltac:(lia))
    as [mrs [Hshr [Hm Hex]]].
  replace (53 + k - 53) with k in * by lia.
  assert (Hq : Zpos P / 2 ^ k = Zpos M) by (rewrite HP; apply Z.div_mul; lia).
  assert (Hz : Zpos P mod 2 ^ k = 0) by (rewrite HP; apply Z.mod_mul; lia).
  destruct (Hex Hz) as [Hr Hs]. rewrite Hq in Hm.
  unfold binary_round_aux. rewrite Hshr.
  destruct mrs as [m0 r0 s0]. cbn [shr_m shr_r shr_s] in *. subst m0 r0 s0.
  cbn [loc_of_shr_record round_nearest_even].
  unfold shr_fexp, fexp, emin, double_prec, double_emax.
  cbn [Zdigits2 shr_record_of_loc]. rewrite HdM.
  rewrite Z.max_l by lia.
  replace (53 + (E + k) - 53 - (E + k)) with 0 by lia.
  cbn [SpecFloat.shr shr_m].
  replace (E + k <=? 1024 - 53) with true by (symmetry; apply Z.leb_le; lia).
  reflexivity.
Qed.

(** The digits of a number below [2 ^ 53]. *)
Lemma digits_below_2_53 (p : positive) :
  Zpos p < 2 ^ 53 -> Zpos (digits2_pos p) <= 53.
Proof.
  intros Hp. pose proof (digits2_pos_bounds p) as [Hlo _].
  destruct (Z.le_gt_cases (Zpos (digits2_pos p)) 53) as [H|H]; [exact H|].
  assert (2 ^ 53 <= 2 ^ (Zpos (digits2_pos p) - 1))
    by (apply Z.pow_le_mono_r; lia).
  lia.
Qed.

End FloatExact.

(** ** sb_kite.c: the two limits of a sub-block *)

Module KiteLimits.
Import Word Ieee Kite WordFacts FloatFacts FloatExact.

(** X13. For every sample rate below 2^53 the product
    [0.25 * kite->sample_rate] is exact, so [MIN_BLOCK_START] is the
    quarter of the rate rounded down, and [MAX_BLOCK_END] is that plus
    twice the rate. *)
Theorem block_limits_of_the_rate :
  forall rate : Z,
    0 <= rate < 2 ^ 53 ->
    MIN_BLOCK_START rate = Some (rate / 4)
    /\ MAX_BLOCK_END (rate / 4) rate = rate / 4 + 2 * rate.
Proof.
  intros rate Hrate. change (2 ^ 53) with 9007199254740992 in Hrate. split.
  - destruct rate as [|p|p]; [reflexivity| |lia].
    assert (Hd : Zpos (digits2_pos p) <= 53)
      by (apply digits_below_2_53; change (2 ^ 53) with 9007199254740992; lia).
    set (d := Zpos (digits2_pos p)) in *.
    assert (Hd1 : 1 <= d) by (subst d; lia).
    destruct (double_of_positive p d eq_refl Hd) as [M [HM [HdM HdZ]]].
    unfold MIN_BLOCK_START. rewrite HdZ.
    unfold double_mul, SFmul, double_0_25. cbn [xorb].
    rewrite (round_shifted M (4503599627370496 * M) 52 (-54 + (d - 53)) HdM);
      [|lia|rewrite Pos2Z.inj_mul; change (2 ^ 52) with 4503599627370496; lia
       |lia].
    unfold to_ulong, truncate. cbn [cond_Zopp].
    replace (0 <=? -54 + (d - 53) + 52) with false
      by (symmetry; apply Z.leb_gt; lia).
    replace (- (-54 + (d - 53) + 52)) with (55 - d) by lia.
    assert (Hq : Zpos M / 2 ^ (55 - d) = Zpos p / 4).
    { rewrite HM. replace (55 - d) with (2 + (53 - d)) by lia.
      rewrite Z.pow_add_r by lia. change (2 ^ 2) with 4.
      assert (0 < 2 ^ (53 - d)) by (apply Z.pow_pos_nonneg; lia).
      apply Z.div_mul_cancel_r; lia. }
    rewrite Hq. rewrite ULONG_MOD_eq.
    assert (0 <= Zpos p / 4 < 9007199254740992)
      by (split; [apply Z.div_pos; lia|apply Z.div_lt_upper_bound; lia]).
    replace (0 <=? Zpos p / 4) with true by (symmetry; apply Z.leb_le; lia).
    replace (Zpos p / 4 <? 18446744073709551616) with true
      by (symmetry; apply Z.ltb_lt; lia).
    reflexivity.
  - unfold MAX_BLOCK_END. pose proof ULONG_MOD_eq as HM.
    assert (0 <= rate / 4 < 9007199254740992)
      by (split; [apply Z.div_pos; lia|apply Z.div_lt_upper_bound; lia]).
    rewrite (wrap_small (2 * rate)) by lia. apply wrap_small. lia.
Qed.

Lemma block_limits_of_the_rate_witness :
  0 <= 44100 < 2 ^ 53
  /\ MIN_BLOCK_START 44100 = Some 11025
  /\ MAX_BLOCK_END 11025 44100 = 99225.
Proof.
  assert (H : 0 <= 44100 < 2 ^ 53)
    by (change (2 ^ 53) with 9007199254740992; lia).
  split; [exact H|]. exact (block_limits_of_the_rate 44100 H).
Defined.

End KiteLimits.

(** ** xorgens.c: [xor4096r] *)

Module XorgensRealFacts.
Import Word Xorgens XorgensReal Ieee WordFacts FloatFacts FloatExact.

Lemma SCALE_eq : SCALE = S754_finite false 4503599627370496 (-105).
Proof. vm_compute. reflexivity. Qed.

(** The top 53 bits of a 64-bit value, scaled: a number strictly between
    0.0 and 1.0 unless the bits are all zero. *)
Lemma scaled_bits (k : Z) :
  1 <= k < 2 ^ 53 ->
  SFeqb (double_of_Z k) (double_of_Z 0) = false
  /\ SFltb (double_of_Z 0) (double_mul SCALE (double_of_Z k)) = true
  /\ SFltb (double_mul SCALE (double_of_Z k)) (double_of_Z 1) = true.
Proof.
  intros Hk. destruct k as [|p|p]; [lia| |lia].
  assert (Hd : Zpos (digits2_pos p) <= 53) by (apply digits_below_2_53; lia).
  set (d := Zpos (digits2_pos p)) in *.
  assert (Hd1 : 1 <= d) by (subst d; lia).
  destruct (double_of_positive p d eq_refl Hd) as [M [HM [HdM HdZ]]].
  rewrite HdZ, SCALE_eq. split; [reflexivity|].
  unfold double_mul, SFmul. cbn [xorb].
  rewrite (round_shifted M (4503599627370496 * M) 52 (-105 + (d - 53)) HdM);
    [|lia|rewrite Pos2Z.inj_mul; change (2 ^ 52) with 4503599627370496; lia
     |lia].
  split; [reflexivity|].
  change (double_of_Z 1) with (S754_finite false 4503599627370496 (-52)).
  unfold SFltb, SFcompare.
  replace (-105 + (d - 53) + 52 ?= -52) with Lt
    by (symmetry; apply Z.compare_lt_iff; lia).
  reflexivity.
Qed.

Lemma xor4096i_value_range seed st : is_ulong (fst (xor4096i seed st)).
Proof.
  unfold xor4096i. destruct (_ || _); unfold generator; cbn [fst];
    apply wrap_range.
Qed.

Lemma top_bits_range v : is_ulong v -> 0 <= shr v sr < 2 ^ 53.
Proof.
  unfold is_ulong. rewrite ULONG_MOD_eq. intros Hv.
  unfold shr. change sr with 11. rewrite Z.shiftr_div_pow2 by lia.
  change (2 ^ 11) with 2048. change (2 ^ 53) with 9007199254740992.
  split; [apply Z.div_pos; lia|apply Z.div_lt_upper_bound; lia].
Qed.

Lemma xor4096r_loop_result : forall (fuel : nat) (k seed : Z) (st : state)
    (res : spec_float) (st' : state),
  0 <= k < 2 ^ 53 ->
  xor4096r_loop fuel (double_of_Z k) seed st = Some (res, st') ->
  SFltb (double_of_Z 0) res = true /\ SFltb res (double_of_Z 1) = true.
Proof.
  induction fuel as [|fuel IH]; intros k seed st res st' Hk Hrun.
  - discriminate Hrun.
  - cbn [xor4096r_loop] in Hrun.
    destruct (Z.eq_dec k 0) as [->|Hnz].
    + change (SFeqb (double_of_Z 0) (double_of_Z 0)) with true in Hrun.
      cbv iota in Hrun.
      pose proof (xor4096i_value_range seed st) as Hv.
      destruct (xor4096i seed st) as [v st1]. cbn [fst] in Hv.
      change (negb (UINT32 =? 0) && negb (UREAL64 =? 0)) with false in Hrun.
      cbv iota in Hrun.
      apply (IH (shr v sr) 0 st1 res st' (top_bits_range v Hv) Hrun).
    + destruct (scaled_bits k ltac:(lia)) as [Hne [H0 H1]].
      rewrite Hne in Hrun. injection Hrun as <- <-. auto.
Qed.

(** X3. [xor4096r] never returns 0.0 or 1.0: whatever it returns lies
    strictly between them.  It returns after one call of [xor4096i] when
    the 53 high bits of the value drawn are not all zero. *)
Theorem xor4096r_strictly_between_0_and_1 :
  forall (seed : Z) (st : state),
    (forall (fuel : nat) (res : spec_float) (st' : state),
        xor4096r fuel seed st = Some (res, st') ->
        SFltb (double_of_Z 0) res = true /\ SFltb res (double_of_Z 1) = true)
    /\ (shr (fst (xor4096i seed st)) sr <> 0 ->
        exists res,
          xor4096r 2 seed st = Some (res, snd (xor4096i seed st))).
Proof.
  intros seed st. split.
  - intros fuel res st' Hrun. unfold xor4096r in Hrun.
    apply (xor4096r_loop_result fuel 0 seed st res st'); [|exact Hrun].
    change (2 ^ 53) with 9007199254740992. lia.
  - intros Hbits. unfold xor4096r. cbn [xor4096r_loop].
    change (SFeqb (double_of_Z 0) (double_of_Z 0)) with true. cbv iota.
    pose proof (xor4096i_value_range seed st) as Hv.
    destruct (xor4096i seed st) as [v st1]. cbn [fst snd] in *.
    change (negb (UINT32 =? 0) && negb (UREAL64 =? 0)) with false. cbv iota.
    pose proof (top_bits_range v Hv) as Hr.
    destruct (scaled_bits (shr v sr) ltac:(lia)) as [Hne _].
    rewrite Hne. eexists. reflexivity.
Qed.

End XorgensRealFacts.

(** ** sb_esreveR.c: what [run_Reverse] writes *)

Module ReverseContent.
Import Word Ieee Machine Reverse Plan WordFacts MachineFacts.
Local Open Scope machine_scope.

Section Buffers.

Variables input_reader output_writer : pointer.
Hypothesis separate : input_reader <> output_writer.
Variable bi : list LADSPA_Data.
Hypothesis bi_length : Z.of_nat (length bi) < ULONG_MOD.

(** The inner loop on the [n] samples from [start_position] on: they are
    found backwards in the output from [out_index] on. *)
Lemma reverse_block_content : forall (n : nat) (start_position out_index : Z)
    (fuel : nat) (w : world) (bo : list LADSPA_Data),
  heap w !! input_reader = Some bi -> heap w !! output_writer = Some bo ->
  Z.of_nat (length bo) < ULONG_MOD ->
  0 <= start_position -> start_position + Z.of_nat n <= Z.of_nat (length bi) ->
  0 <= out_index -> out_index + Z.of_nat n <= Z.of_nat (length bo) ->
  (n < fuel)%nat ->
  exists w',
    reverse_block fuel input_reader output_writer start_position
                  (wrap (start_position + Z.of_nat n - 1)) out_index w
    = Done ((wrap (start_position - 1), out_index + Z.of_nat n), w')
    /\ heap w'
       = <[output_writer :=
             take (Z.to_nat out_index) bo
               ++ rev (take n (drop (Z.to_nat start_position) bi))
               ++ drop (Z.to_nat out_index + n) bo]> (heap w)
    /\ stdout w' = stdout w /\ clock w' = clock w
    /\ ticks w' = ticks w /\ rng w' = rng w.
Proof.
  pose proof ULONG_MOD_eq as HM.
  induction n as [|n IH]; intros start_position out_index fuel w bo
    Hi Ho Lo Hs Hsn Hoi Hon Hf.
  - destruct fuel as [|fuel]; [lia|]. cbn [reverse_block].
    replace (start_position + Z.of_nat 0 - 1) with (start_position - 1) by lia.
    assert (Hexit : (start_position <=? wrap (start_position - 1))
                    && negb (wrap (start_position - 1) =? 0xFFFFFFFFFFFFFFFF)
                    = false).
    { destruct (Z.eq_dec start_position 0) as [->|Hnz].
      - reflexivity.
      - rewrite wrap_small by lia.
        apply andb_false_iff. left. apply Z.leb_gt. lia. }
    rewrite Hexit. exists w. split.
    + unfold ret. do 3 f_equal. lia.
    + split; [|auto]. rewrite take_0. cbn [rev app].
      rewrite Nat.add_0_r, take_drop.
      symmetry. apply list_insert_id. exact Ho.
  - destruct fuel as [|fuel]; [lia|]. cbn [reverse_block].
    assert (Hidx : wrap (start_position + Z.of_nat (S n) - 1)
                   = start_position + Z.of_nat n)
      by (rewrite wrap_small by lia; lia).
    rewrite Hidx.
    replace ((start_position <=? start_position + Z.of_nat n)
             && negb (start_position + Z.of_nat n =? 0xFFFFFFFFFFFFFFFF))
      with true.
    2:{ symmetry. apply andb_true_iff. split; [apply Z.leb_le; lia|].
        apply negb_true_iff. apply Z.eqb_neq. lia. }
    destruct (load_in_range input_reader (start_position + Z.of_nat n) w bi Hi)
      as [v [Hv Hload]]; [lia|].
    rewrite (bind_Done _ _ _ _ _ Hload).
    pose proof (store_Done output_writer out_index v w bo Ho ltac:(lia))
      as Hstore.
    rewrite (bind_Done _ _ _ _ _ Hstore).
    set (w1 := mkWorld _ _ _ _ _ _) in *.
    assert (Hlt : (output_writer < length (heap w))%nat)
      by (eapply lookup_lt_Some; eauto).
    rewrite (wrap_small (out_index + 1)) by lia.
    destruct (IH start_position (out_index + 1) fuel w1
                 (<[Z.to_nat out_index := v]> bo))
      as [w' [Hrun [Hh H]]]; try lia.
    + subst w1. cbn [heap]. rewrite list_lookup_insert_ne by auto. exact Hi.
    + subst w1. cbn [heap]. apply list_lookup_insert_eq. exact Hlt.
    + rewrite length_insert. lia.
    + rewrite length_insert. lia.
    + exists w'. split.
      * rewrite Hrun. do 3 f_equal. lia.
      * split; [|subst w1; cbn in H; exact H].
        rewrite Hh. subst w1. cbn [heap]. rewrite list_insert_insert_eq.
        f_equal.
        replace (Z.to_nat (out_index + 1)) with (S (Z.to_nat out_index))
          by lia.
        rewrite (take_S_r (<[Z.to_nat out_index := v]> bo)
                          (Z.to_nat out_index) v)
          by (apply list_lookup_insert_eq; lia).
        rewrite take_insert_ge by lia.
        rewrite drop_insert_lt by lia.
        assert (Hv' : drop (Z.to_nat start_position) bi !! n = Some v).
        { rewrite lookup_drop. rewrite <- Hv. f_equal. lia. }
        rewrite (take_S_r _ n v Hv'). rewrite rev_app_distr.
        cbn [rev app]. rewrite <- app_assoc. cbn [app].
        replace (S (Z.to_nat out_index) + n)%nat
          with (Z.to_nat out_index + S n)%nat by lia.
        reflexivity.
Qed.

Variable N : Z.
Hypothesis N_ulong : 1 < N < ULONG_MOD.
Hypothesis bi_holds : N <= Z.of_nat (length bi).
Variables MIN MAX : Z.
Hypothesis MIN_pos : 1 <= MIN.
Hypothesis MIN_MAX : MIN <= MAX < ULONG_MOD.
Hypothesis no_wrap :
  forall c, 0 <= c -> c + 2 * MIN < N -> c + MAX < ULONG_MOD.

(** The outer loop entered with [start_position = out_index = c]: the
    sub-blocks it goes through and the output it leaves. *)
Lemma reverse_loop_content : forall (m : nat) (c j : Z) (plan : list segment)
    (fuel : nat) (w : world) (bo : list LADSPA_Data),
  N - c <= Z.of_nat m -> 0 <= c < N ->
  c = 0 \/ (MIN < N /\ c <= N - MIN) ->
  heap w !! input_reader = Some bi -> heap w !! output_writer = Some bo ->
  Z.of_nat (length bo) < ULONG_MOD -> N <= Z.of_nat (length bo) ->
  (Z.to_nat (N - c) + 2 <= fuel)%nat ->
  exists segs w',
    reverse_loop fuel input_reader output_writer N MIN MAX c j c plan w
    = Done (plan ++ segs, w')
    /\ tiles segs c N
    /\ heap w'
       = <[output_writer :=
             take (Z.to_nat c) bo ++ reversed_by segs bi
               ++ drop (Z.to_nat N) bo]> (heap w)
    /\ stdout w' = stdout w /\ clock w' = clock w.
Proof.
  pose proof ULONG_MOD_eq as HM.
  induction m as [|m IH]; intros c j plan fuel w bo Hm Hc Hinv Hi Ho Lo Lo'
    Hf; [lia|].
  destruct fuel as [|fuel]; [lia|]. cbn [reverse_loop].
  replace (c <? N) with true by (symmetry; apply Z.ltb_lt; lia).
  assert (Hlt : (output_writer < length (heap w))%nat)
    by (eapply lookup_lt_Some; eauto).
  destruct ((N <=? MIN) || (wrap (N - MIN) <=? wrap (c + MIN))) eqn:Hfinal.
  - (* the sub-block runs to the end of the buffer *)
    unfold bind at 1. unfold ret at 1.
    rewrite (wrap_small (N - 1)) by lia.
    destruct (reverse_block_content (Z.to_nat (N - c)) c c fuel w bo)
      as [w1 [Hrun [Hh [H1 [H2 _]]]]]; try lia; try assumption.
    replace (c + Z.of_nat (Z.to_nat (N - c)) - 1) with (N - 1) in Hrun by lia.
    rewrite (wrap_small (N - 1)) in Hrun by lia.
    rewrite (bind_Done _ _ _ _ _ Hrun).
    destruct fuel as [|fuel]; [lia|]. cbn [reverse_loop].
    replace (c + Z.of_nat (Z.to_nat (N - c)) <? N) with false
      by (symmetry; apply Z.ltb_ge; lia).
    exists [(c, N - 1)], w1. split; [reflexivity|].
    split; [cbn; repeat split; lia|]. split; [|auto].
    rewrite Hh. f_equal. unfold reversed_by, section. cbn [map concat fst snd].
      rewrite app_nil_r.
      replace (Z.to_nat (N - 1 - c + 1)) with (Z.to_nat (N - c)) by lia.
      replace (Z.to_nat c + Z.to_nat (N - c))%nat with (Z.to_nat N) by lia.
      reflexivity.
  - (* the end of the sub-block is drawn *)
    apply orb_false_iff in Hfinal. destruct Hfinal as [F1 F2].
    apply Z.leb_gt in F1. rewrite (wrap_small (N - MIN)) in * by lia.
    rewrite (wrap_small (c + MIN)) in * by lia.
    apply Z.leb_gt in F2.
    assert (HcM : c + MAX < ULONG_MOD) by (apply no_wrap; lia).
    rewrite (wrap_small (c + MAX)) by lia.
    set (upper := if N - MIN <? c + MAX then N - MIN else c + MAX).
    assert (Hup : c + MIN <= upper <= N - MIN /\ upper <= c + MAX).
    { subst upper. destruct (N - MIN <? c + MAX) eqn:E;
        [apply Z.ltb_lt in E|apply Z.ltb_ge in E]; lia. }
    destruct (GetRandomNaturalNumber_between (c + MIN) upper w)
      as [v [w1 [Hdraw [Hv [Hd1 [Hd2 [Hd3 Hd4]]]]]]]; try lia.
    unfold bind at 1. unfold bind at 1. rewrite Hdraw. unfold ret at 1.
    rewrite (wrap_small (v - 1)) by lia.
    destruct (reverse_block_content (Z.to_nat (v - c)) c c fuel w1 bo)
      as [w2 [Hrun [Hh [H1 [H2 _]]]]]; try lia; try assumption;
      try (rewrite Hd1; assumption).
    replace (c + Z.of_nat (Z.to_nat (v - c)) - 1) with (v - 1) in Hrun by lia.
    rewrite (wrap_small (v - 1)) in Hrun by lia.
    rewrite (bind_Done _ _ _ _ _ Hrun).
    replace (c + Z.of_nat (Z.to_nat (v - c))) with v by lia.
    set (bo2 := take (Z.to_nat c) bo
                  ++ rev (take (Z.to_nat (v - c)) (drop (Z.to_nat c) bi))
                  ++ drop (Z.to_nat c + Z.to_nat (v - c)) bo) in *.
    assert (Lrev : length (rev (take (Z.to_nat (v - c))
                                     (drop (Z.to_nat c) bi)))
                   = Z.to_nat (v - c))
      by (rewrite length_rev, length_take, length_drop; lia).
    assert (Lbo2 : length bo2 = length bo).
    { subst bo2. rewrite !length_app, Lrev, length_take, length_drop. lia. }
    destruct (IH v (wrap (c - 1)) (plan ++ [(c, v - 1)]) fuel w2 bo2)
      as [segs [w3 [Hloop [Ht [Hh3 [G1 G2]]]]]]; try lia.
    + rewrite Hh, Hd1. rewrite list_lookup_insert_ne by auto. exact Hi.
    + rewrite Hh, Hd1. apply list_lookup_insert_eq. exact Hlt.
    + exists ((c, v - 1) :: segs), w3. split.
      * rewrite Hloop. rewrite <- app_assoc. reflexivity.
      * split; [|split].
        -- cbn [tiles]. split; [reflexivity|]. split; [lia|].
           replace (v - 1 + 1) with v by lia. exact Ht.
        -- rewrite Hh3, Hh, Hd1. rewrite list_insert_insert_eq. f_equal.
           unfold reversed_by at 2. cbn [map concat]. fold (reversed_by segs bi).
           unfold section. cbn [fst snd].
           replace (Z.to_nat (v - 1 - c + 1)) with (Z.to_nat (v - c)) by lia.
           subst bo2.
           set (A := take (Z.to_nat c) bo) in *.
           set (B := rev (take (Z.to_nat (v - c)) (drop (Z.to_nat c) bi)))
             in *.
           assert (LA : length A = Z.to_nat c)
             by (subst A; rewrite length_take; lia).
           assert (LAB : length (A ++ B) = Z.to_nat v)
             by (rewrite length_app, LA, Lrev; lia).
           rewrite (app_assoc A B).
           rewrite (take_app_length' (A ++ B)) by (symmetry; exact LAB).
           rewrite (drop_app_ge (A ++ B)) by lia.
           rewrite drop_drop, LAB.
           replace (Z.to_nat c + Z.to_nat (v - c) + (Z.to_nat N - Z.to_nat v))%nat
             with (Z.to_nat N) by lia.
           rewrite <- !app_assoc. reflexivity.
        -- rewrite G1, G2, H1, H2, Hd3, Hd4. auto.
Qed.

End Buffers.

End ReverseContent.

(** ** sb_esreveR.c: the lengths of the sub-blocks *)

Module ReverseLengths.
Import Word Ieee Machine Reverse Plan WordFacts MachineFacts.
Local Open Scope machine_scope.

(** What a bind that ends has gone through. *)
Lemma bind_inv {A B : Type} (c : M A) (k : A -> M B) w b w' :
  bind c k w = Done (b, w') ->
  exists a w1, c w = Done (a, w1) /\ k a w1 = Done (b, w').
Proof.
  unfold bind. destruct (c w) as [[a w1]| |]; [|discriminate|discriminate].
  intros H. exists a, w1. auto.
Qed.

(** The indexes the inner loop leaves, when it ends. *)
Lemma reverse_block_indexes (input_reader output_writer : pointer) :
  forall (n : nat) (start_position out_index : Z) (fuel : nat) (w w' : world)
         (a b : Z),
  0 <= start_position -> start_position + Z.of_nat n < ULONG_MOD ->
  0 <= out_index -> out_index + Z.of_nat n < ULONG_MOD ->
  reverse_block fuel input_reader output_writer start_position
                (wrap (start_position + Z.of_nat n - 1)) out_index w
  = Done ((a, b), w') ->
  a = wrap (start_position - 1) /\ b = out_index + Z.of_nat n.
Proof.
  pose proof ULONG_MOD_eq as HM.
  induction n as [|n IH]; intros start_position out_index fuel w w' a b
    Hs Hsn Ho Hon Hrun.
  - destruct fuel as [|fuel]; [discriminate Hrun|]. cbn [reverse_block] in Hrun.
    replace (start_position + Z.of_nat 0 - 1) with (start_position - 1)
      in Hrun by lia.
    assert (Hexit : (start_position <=? wrap (start_position - 1))
                    && negb (wrap (start_position - 1) =? 0xFFFFFFFFFFFFFFFF)
                    = false).
    { destruct (Z.eq_dec start_position 0) as [->|Hnz].
      - reflexivity.
      - rewrite wrap_small by lia.
        apply andb_false_iff. left. apply Z.leb_gt. lia. }
    rewrite Hexit in Hrun. injection Hrun as <- <- _. split; lia.
  - destruct fuel as [|fuel]; [discriminate Hrun|]. cbn [reverse_block] in Hrun.
    assert (Hidx : wrap (start_position + Z.of_nat (S n) - 1)
                   = start_position + Z.of_nat n)
      by (rewrite wrap_small by lia; lia).
    rewrite Hidx in Hrun.
    replace ((start_position <=? start_position + Z.of_nat n)
             && negb (start_position + Z.of_nat n =? 0xFFFFFFFFFFFFFFFF))
      with true in Hrun.
    2:{ symmetry. apply andb_true_iff. split; [apply Z.leb_le; lia|].
        apply negb_true_iff. apply Z.eqb_neq. lia. }
    apply bind_inv in Hrun. destruct Hrun as [v [w1 [_ Hrun]]].
    apply bind_inv in Hrun. destruct Hrun as [[] [w2 [_ Hrun]]].
    rewrite (wrap_small (out_index + 1)) in Hrun by lia.
    replace (start_position + Z.of_nat n - 1)
      with (start_position + Z.of_nat n - 1) in Hrun by reflexivity.
    destruct (IH start_position (out_index + 1) fuel w2 w' a b Hs
                 ltac:(lia) ltac:(lia) ltac:(lia) Hrun) as [Ea Eb].
    split; [exact Ea|lia].
Qed.

Section Lengths.

Variables input_reader output_writer : pointer.
Variable N : Z.
Hypothesis N_ulong : 1 < N < ULONG_MOD.
Variables MIN MAX : Z.
Hypothesis MIN_pos : 1 <= MIN.
Hypothesis MIN_MAX : MIN <= MAX < ULONG_MOD.
Hypothesis no_wrap :
  forall c, 0 <= c -> c + 2 * MIN < N -> c + MAX < ULONG_MOD.

Lemma wrap_below z : 0 <= z -> wrap z <= z.
Proof. intros Hz. unfold wrap. apply Z.mod_le; [exact Hz|reflexivity]. Qed.

(** The sub-blocks the outer loop has gone through when it ends. *)
Lemma reverse_loop_lengths : forall (fuel : nat) (c j : Z)
    (plan out : list segment) (w w' : world),
  0 <= c <= N -> c = 0 \/ (MIN < N /\ c <= N - MIN) \/ c = N ->
  reverse_loop fuel input_reader output_writer N MIN MAX c j c plan w
  = Done (out, w') ->
  exists segs,
    out = plan ++ segs /\ block_lengths MIN MAX (c =? 0) segs
    /\ (c < N -> segs <> []).
Proof.
  pose proof ULONG_MOD_eq as HM.
  induction fuel as [|fuel IH]; intros c j plan out w w' Hc Hinv Hrun;
    [discriminate Hrun|].
  cbn [reverse_loop] in Hrun.
  destruct (c <? N) eqn:Ec; [apply Z.ltb_lt in Ec|].
  2:{ apply Z.ltb_ge in Ec. injection Hrun as <- _. exists [].
      rewrite app_nil_r. split; [reflexivity|]. split; [exact I|lia]. }
  assert (Hinv' : c = 0 \/ (MIN < N /\ c <= N - MIN)) by lia.
  destruct ((N <=? MIN) || (wrap (N - MIN) <=? wrap (c + MIN))) eqn:Hfinal.
  - (* the sub-block runs to the end of the buffer *)
    apply bind_inv in Hrun. destruct Hrun as [[random_num in_index] [w0 [E0 Hrun]]].
    injection E0 as <- <- <-.
    rewrite (wrap_small (N - 1)) in Hrun by lia.
    apply bind_inv in Hrun. destruct Hrun as [[a b] [w1 [Hblk Hrun]]].
    replace (N - 1) with (c + Z.of_nat (Z.to_nat (N - c)) - 1) in Hblk at 1
      by lia.
    rewrite <- (wrap_small (c + Z.of_nat (Z.to_nat (N - c)) - 1)) in Hblk
      by lia.
    apply reverse_block_indexes in Hblk; try lia.
    destruct Hblk as [-> ->].
    replace (c + Z.of_nat (Z.to_nat (N - c))) with N in Hrun by lia.
    destruct fuel as [|fuel]; [discriminate Hrun|]. cbn [reverse_loop] in Hrun.
    rewrite Z.ltb_irrefl in Hrun. injection Hrun as <- _.
    exists [(c, N - 1)]. split; [reflexivity|]. split; [|discriminate].
    cbn [block_lengths]. split.
    + apply orb_true_iff in Hfinal. destruct Hfinal as [F|F].
      * apply Z.leb_le in F. lia.
      * apply Z.leb_le in F.
        destruct (Z.le_gt_cases N MIN) as [Hle|Hgt]; [lia|].
        rewrite (wrap_small (N - MIN)) in F by lia.
        pose proof (wrap_below (c + MIN) ltac:(lia)). lia.
    + intros Hc0. apply Z.eqb_neq in Hc0. lia.
  - (* the end of the sub-block is drawn *)
    apply orb_false_iff in Hfinal. destruct Hfinal as [F1 F2].
    apply Z.leb_gt in F1. rewrite (wrap_small (N - MIN)) in * by lia.
    rewrite (wrap_small (c + MIN)) in * by lia.
    apply Z.leb_gt in F2.
    assert (HcM : c + MAX < ULONG_MOD) by (apply no_wrap; lia).
    rewrite (wrap_small (c + MAX)) in Hrun by lia.
    set (upper := if N - MIN <? c + MAX then N - MIN else c + MAX) in *.
    assert (Hup : c + MIN <= upper <= N - MIN /\ upper <= c + MAX).
    { subst upper. destruct (N - MIN <? c + MAX) eqn:E;
        [apply Z.ltb_lt in E|apply Z.ltb_ge in E]; lia. }
    apply bind_inv in Hrun. destruct Hrun as [[random_num in_index] [w0 [E0 Hrun]]].
    apply bind_inv in E0. destruct E0 as [v [w1 [Hdraw E0]]].
    injection E0 as <- <- <-.
    destruct (GetRandomNaturalNumber_between (c + MIN) upper w)
      as [v' [w1' [Hdraw' [Hv _]]]]; try lia.
    rewrite Hdraw in Hdraw'. injection Hdraw' as <- <-.
    rewrite (wrap_small (v - 1)) in Hrun by lia.
    apply bind_inv in Hrun. destruct Hrun as [[a b] [w2 [Hblk Hrun]]].
    replace (v - 1) with (c + Z.of_nat (Z.to_nat (v - c)) - 1) in Hblk at 1
      by lia.
    rewrite <- (wrap_small (c + Z.of_nat (Z.to_nat (v - c)) - 1)) in Hblk
      by lia.
    apply reverse_block_indexes in Hblk; try lia.
    destruct Hblk as [-> ->].
    replace (c + Z.of_nat (Z.to_nat (v - c))) with v in Hrun by lia.
    destruct (IH v (wrap (c - 1)) (plan ++ [(c, v - 1)]) out w2 w')
      as [segs [Hout [Hbl Hnil]]]; [lia|lia|exact Hrun|].
    exists ((c, v - 1) :: segs). split; [|split; [|discriminate]].
    + rewrite Hout, <- app_assoc. reflexivity.
    + cbn [block_lengths].
      replace (v =? 0) with false in Hbl by (symmetry; apply Z.eqb_neq; lia).
      destruct segs as [|s1 rest]; [exfalso; apply Hnil; [lia|reflexivity]|].
      split; [lia|exact Hbl].
Qed.

End Lengths.
End ReverseLengths.

(** ** sb_esreveR.c: [run_Reverse] on a valid call *)

Module ReverseOutput.
Import Word Ieee Machine Reverse Plan WordFacts MachineFacts.
Import FloatLengths ReverseRun ReverseContent ReverseLengths.
Local Open Scope machine_scope.

(** [run_Reverse] past its guards is the outer loop. *)
Lemma run_Reverse_is_the_loop (reverse : Reverse) (N MIN MAX : Z) (fuel : nat)
    (w : world) :
  1 < N -> SFltb (sample_rate reverse) (float_of_Z 10) = false ->
  MIN_SAMPLES (sample_rate reverse) = Some MIN ->
  MAX_SAMPLES (sample_rate reverse) = Some MAX ->
  run_Reverse fuel (Some reverse) N w
  = reverse_loop fuel (Input reverse) (Output reverse) N MIN MAX 0 0 0 [] w.
Proof.
  intros HN Hrate Hmin Hmax. unfold run_Reverse.
  replace (N <=? 1) with false by (symmetry; apply Z.leb_gt; lia).
  rewrite Hrate, Hmin, Hmax. reflexivity.
Qed.

(** The sub-blocks of a plan that tiles [lo .. hi-1] have [hi - lo]
    samples in all. *)
Lemma reversed_by_length (bi : list LADSPA_Data) :
  forall (plan : list segment) (lo hi : Z),
    tiles plan lo hi -> 0 <= lo -> hi <= Z.of_nat (length bi) ->
    length (reversed_by plan bi) = Z.to_nat (hi - lo).
Proof.
  induction plan as [|[s e] plan IH]; intros lo hi Ht Hlo Hhi.
  - cbn in Ht. subst hi. rewrite Z.sub_diag. reflexivity.
  - cbn [tiles] in Ht. destruct Ht as [-> [Hse Ht]].
    pose proof (tiles_inside plan (e + 1) hi) as Hin.
    assert (He : e + 1 <= hi).
    { destruct plan as [|[s1 e1] rest]; [cbn in Ht; lia|].
      destruct (Hin s1 e1 Ht ltac:(left)) as [? [? ?]]. lia. }
    unfold reversed_by. cbn [map concat]. fold (reversed_by plan bi).
    rewrite length_app, (IH (e + 1) hi Ht ltac:(lia) Hhi).
    unfold section. cbn [fst snd].
    rewrite length_rev, length_take, length_drop. lia.
Qed.

(** X6. On a valid call with the input and the output in different
    buffers, [run_Reverse] leaves in the output the sub-blocks of its plan,
    each one with its samples in reverse order, one after the other; the
    samples of the output beyond the count, and every other buffer, the
    input among them, are as they were. *)
Theorem run_Reverse_writes_each_block_backwards :
  forall (reverse : Reverse) (N : Z) (w : world) (bi bo : list LADSPA_Data),
    valid_call reverse N w ->
    Input reverse <> Output reverse ->
    heap w !! Input reverse = Some bi -> heap w !! Output reverse = Some bo ->
    Z.of_nat (length bi) < ULONG_MOD -> Z.of_nat (length bo) < ULONG_MOD ->
    exists (fuel : nat) (plan : list segment) (w' : world),
      run_Reverse fuel (Some reverse) N w = Done (plan, w')
      /\ tiles plan 0 N
      /\ heap w'
         = <[Output reverse := reversed_by plan bi ++ drop (Z.to_nat N) bo]>
           (heap w)
      /\ length (reversed_by plan bi) = Z.to_nat N
      /\ stdout w' = stdout w.
Proof.
  intros reverse N w bi bo Hv Hsep Hi Ho Li Lo.
  destruct (valid_call_lengths reverse N w Hv)
    as [HN [MIN [MAX [Hmin [Hmax [HMM Hnw]]]]]].
  pose proof (to_ulong_range _ _ Hmax) as HMAX.
  destruct Hv as [_ _ Hrate _ [[bi' [Hi' Li']] [bo' [Ho' Lo']]]].
  rewrite Hi in Hi'. injection Hi' as <-.
  rewrite Ho in Ho'. injection Ho' as <-.
  assert (HMIN1 : 1 <= MIN) by lia.
  assert (HMINMAX : MIN <= MAX < ULONG_MOD) by lia.
  destruct (reverse_loop_content (Input reverse) (Output reverse) Hsep bi Li
              N HN Li' MIN MAX HMIN1 HMINMAX Hnw
              (Z.to_nat N) 0 0 [] (Z.to_nat N + 2) w bo)
    as [segs [w' [Hrun [Ht [Hh [H1 _]]]]]]; try lia; try assumption.
  exists (Z.to_nat N + 2)%nat, segs, w'.
  rewrite (run_Reverse_is_the_loop reverse N MIN MAX) by (assumption || lia).
  split; [exact Hrun|]. split; [exact Ht|]. split; [exact Hh|].
  split; [|exact H1].
  rewrite (reversed_by_length bi segs 0 N Ht) by lia. f_equal. lia.
Qed.

(** X7. The sub-blocks [run_Reverse] goes through on a valid call: every
    one but the last has between [MIN_SAMPLES] and [MAX_SAMPLES] samples
    (0.2 and 1.5 seconds of sound); the last has no more than twice
    [MIN_SAMPLES], and no fewer than [MIN_SAMPLES] unless it is the whole
    buffer. *)
Theorem run_Reverse_block_lengths :
  forall (reverse : Reverse) (N : Z) (w : world),
    valid_call reverse N w ->
    exists MIN MAX : Z,
      MIN_SAMPLES (sample_rate reverse) = Some MIN
      /\ MAX_SAMPLES (sample_rate reverse) = Some MAX
      /\ (exists (fuel : nat) (plan : list segment) (w' : world),
            run_Reverse fuel (Some reverse) N w = Done (plan, w'))
      /\ (forall (fuel : nat) (plan : list segment) (w' : world),
            run_Reverse fuel (Some reverse) N w = Done (plan, w') ->
            block_lengths MIN MAX true plan).
Proof.
  intros reverse N w Hv.
  destruct (valid_call_lengths reverse N w Hv)
    as [HN [MIN [MAX [Hmin [Hmax [HMM Hnw]]]]]].
  pose proof (to_ulong_range _ _ Hmax) as HMAX.
  exists MIN, MAX. split; [exact Hmin|]. split; [exact Hmax|]. split.
  - destruct (run_Reverse_valid reverse N w (Z.to_nat N + 2) Hv (le_n _))
      as [plan [w' [Hrun _]]].
    exists (Z.to_nat N + 2)%nat, plan, w'. exact Hrun.
  - intros fuel plan w' Hrun. destruct Hv as [_ _ Hrate _ _].
    rewrite (run_Reverse_is_the_loop reverse N MIN MAX) in Hrun
      by (assumption || lia).
    assert (HMIN1 : 1 <= MIN) by lia.
    assert (HMINMAX : MIN <= MAX < ULONG_MOD) by lia.
    destruct (reverse_loop_lengths (Input reverse) (Output reverse) N HN
                MIN MAX HMIN1 HMINMAX Hnw fuel 0 0 [] plan w w'
                ltac:(lia) ltac:(left; reflexivity) Hrun)
      as [segs [-> [Hbl _]]].
    exact Hbl.
Qed.


End ReverseOutput.

(** ** [GetRandomNaturalNumber] (sb_esreveR.c, sb_kite.c) *)

Module DrawFacts.
Import Word Machine Draw WordFacts MachineFacts XorgensInvariant.
Local Open Scope machine_scope.

(** X4. [GetRandomNaturalNumber] seeds the generator anew at every call,
    so the number it returns is a function of the clock reading and the
    bounds alone: two calls that make the same nonzero seed of their clock
    readings return the same number and leave the same generator state,
    whatever was drawn before. *)
Theorem GetRandomNaturalNumber_depends_on_the_clock_alone :
  forall (lower_bound upper_bound : Z) (w1 w2 : world),
    next_seed w1 = next_seed w2 -> next_seed w1 <> 0 ->
    length (Xorgens.x (rng w1)) = Z.to_nat Xorgens.r ->
    length (Xorgens.x (rng w2)) = Z.to_nat Xorgens.r ->
    drawn (GetRandomNaturalNumber lower_bound upper_bound w1)
    = drawn (GetRandomNaturalNumber lower_bound upper_bound w2).
Proof.
  intros lower upper w1 w2 Hseed Hnz H1 H2.
  unfold GetRandomNaturalNumber, gettimeofday, call_xor4096i.
  unfold bind. cbn [heap stores stdout clock ticks rng].
  fold (next_seed w1). fold (next_seed w2). rewrite <- Hseed.
  rewrite (xor4096i_reseeded (next_seed w1) (rng w1) (rng w2) Hnz H1 H2).
  destruct (Xorgens.xor4096i (next_seed w1) (rng w2)) as [rand_num st].
  destruct (wrap (upper - lower + 1) =? 0); reflexivity.
Qed.

Lemma GetRandomNaturalNumber_depends_on_the_clock_alone_witness :
  let w1 := Scenario.kite_world 4 in
  let w2 := {| heap := []; stores := []; stdout := [];
               clock := fun _ => {| tv_sec := 1; tv_usec := 1 |};
               ticks := 5;
               rng := snd (Xorgens.xor4096i 9 Xorgens.fresh) |} in
  drawn (GetRandomNaturalNumber 3 8 w1) = drawn (GetRandomNaturalNumber 3 8 w2).
Proof.
  apply GetRandomNaturalNumber_depends_on_the_clock_alone.
  - reflexivity.
  - discriminate.
  - reflexivity.
  - vm_compute. reflexivity.
Defined.

(** X5. The bounds of [GetRandomNaturalNumber]: with
    [lower_bound <= upper_bound] and a range that is not the whole type the
    number returned lies between the bounds, one clock reading is used and
    no buffer changes; when [upper_bound - lower_bound + 1] is zero in
    64-bit arithmetic (the bounds are crossed by one, or they are 0 and
    0xFFFFFFFFFFFFFFFF) the [%] divides by zero. *)
Theorem GetRandomNaturalNumber_bounds :
  forall (lower_bound upper_bound : Z) (w : world),
    is_ulong lower_bound -> is_ulong upper_bound ->
    (lower_bound <= upper_bound ->
     ~ (lower_bound = 0 /\ upper_bound = ULONG_MAX) ->
     exists v w',
       GetRandomNaturalNumber lower_bound upper_bound w = Done (v, w')
       /\ lower_bound <= v <= upper_bound
       /\ heap w' = heap w /\ stores w' = stores w /\ stdout w' = stdout w
       /\ ticks w' = S (ticks w))
    /\ (lower_bound = upper_bound + 1
        \/ (lower_bound = 0 /\ upper_bound = ULONG_MAX) ->
        GetRandomNaturalNumber lower_bound upper_bound w
        = Fault DivisionByZero).
Proof.
  intros lower upper w [Hl0 Hl] [Hu0 Hu]. pose proof ULONG_MOD_eq as HM.
  rewrite ULONG_MAX_eq. split.
  - intros Hle Hnot.
    unfold GetRandomNaturalNumber, gettimeofday, call_xor4096i.
    unfold bind at 1. unfold bind at 1.
    cbn [heap stores stdout clock ticks rng].
    destruct (Xorgens.xor4096i _ (rng w)) as [rand_num st].
    rewrite (wrap_small (upper - lower + 1)) by lia.
    replace (upper - lower + 1 =? 0) with false
      by (symmetry; apply Z.eqb_neq; lia).
    pose proof (Z.mod_pos_bound rand_num (upper - lower + 1)) as Hr.
    rewrite wrap_small by lia.
    eexists _, _. split; [reflexivity|]. split; [lia|]. repeat split.
  - intros Hcross.
    unfold GetRandomNaturalNumber, gettimeofday, call_xor4096i.
    unfold bind at 1. unfold bind at 1.
    cbn [heap stores stdout clock ticks rng].
    destruct (Xorgens.xor4096i _ (rng w)) as [rand_num st].
    replace (wrap (upper - lower + 1)) with 0; [reflexivity|].
    destruct Hcross as [->|[-> ->]].
    + replace (upper - (upper + 1) + 1) with 0 by lia. reflexivity.
    + reflexivity.
Qed.

Lemma GetRandomNaturalNumber_bounds_witness :
  (exists v w',
      GetRandomNaturalNumber 3 8 (Scenario.kite_world 4) = Done (v, w')
      /\ 3 <= v <= 8)
  /\ GetRandomNaturalNumber 20 19 (Scenario.kite_world 4)
     = Fault DivisionByZero.
Proof.
  assert (H3 : is_ulong 3) by (unfold is_ulong; rewrite ULONG_MOD_eq; lia).
  assert (H8 : is_ulong 8) by (unfold is_ulong; rewrite ULONG_MOD_eq; lia).
  assert (H20 : is_ulong 20) by (unfold is_ulong; rewrite ULONG_MOD_eq; lia).
  assert (H19 : is_ulong 19) by (unfold is_ulong; rewrite ULONG_MOD_eq; lia).
  split.
  - destruct (GetRandomNaturalNumber_bounds 3 8 (Scenario.kite_world 4) H3 H8)
      as [Hin _].
    destruct Hin as [v [w' [Hrun [Hv _]]]]; [lia|intros [E _]; discriminate E|].
    exists v, w'. split; assumption.
  - destruct (GetRandomNaturalNumber_bounds 20 19 (Scenario.kite_world 4)
                H20 H19) as [_ Hz].
    apply Hz. left. reflexivity.
Defined.

End DrawFacts.

(** ** sb_adt.c: the left channel, and an offset beyond the buffers *)

Module AdtEdges.
Import Word Ieee Machine Adt WordFacts MachineFacts AdtFacts.
Local Open Scope machine_scope.

(** A copying loop whose test still holds when one of the two blocks is
    used up reads or writes past the end of that block. *)
Lemma copy_while_overruns (destination source : pointer)
    (test : Z -> Z -> bool) (bs : list LADSPA_Data) :
  destination <> source ->
  forall (m dn sn fuel : nat) (w : world) (bd : list LADSPA_Data),
  heap w !! destination = Some bd -> heap w !! source = Some bs ->
  (dn + m <= length bd)%nat -> (sn + m <= length bs)%nat ->
  (dn + m = length bd \/ sn + m = length bs)%nat ->
  (forall j : nat, (j <= m)%nat ->
     test (Z.of_nat (dn + j)) (Z.of_nat (sn + j)) = true) ->
  (m < fuel)%nat ->
  copy_while fuel test destination source (Z.of_nat dn) (Z.of_nat sn) w
  = Fault OutOfBounds.
Proof.
  intros Hne. induction m as [|m IH];
    intros dn sn fuel w bd Hd Hs Ld Ls Hend Ht Hfuel.
  - destruct fuel as [|fuel]; [lia|]. cbn [copy_while].
    pose proof (Ht 0%nat ltac:(lia)) as Ht0. rewrite !Nat.add_0_r in Ht0.
    rewrite Ht0. rewrite !Nat.add_0_r in Hend.
    destruct (Z.lt_ge_cases (Z.of_nat sn) (Z.of_nat (length bs))) as [Hin|Hout].
    + destruct (load_in_range source (Z.of_nat sn) w bs Hs) as [v [Hv Hload]];
        [lia|].
      rewrite (bind_Done _ _ _ _ _ Hload). apply bind_Fault.
      unfold store. rewrite Hd.
      replace (Z.of_nat dn <? Z.of_nat (length bd)) with false
        by (symmetry; apply Z.ltb_ge; lia).
      rewrite andb_false_r. reflexivity.
    + apply bind_Fault. unfold load. rewrite Hs.
      replace (Z.of_nat sn <? Z.of_nat (length bs)) with false
        by (symmetry; apply Z.ltb_ge; lia).
      rewrite andb_false_r. reflexivity.
  - destruct fuel as [|fuel]; [lia|]. cbn [copy_while].
    pose proof (Ht 0%nat ltac:(lia)) as Ht0. rewrite !Nat.add_0_r in Ht0.
    rewrite Ht0.
    destruct (load_in_range source (Z.of_nat sn) w bs Hs) as [v [Hv Hload]];
      [lia|].
    rewrite (bind_Done _ _ _ _ _ Hload).
    pose proof (store_Done destination (Z.of_nat dn) v w bd Hd ltac:(lia))
      as Hstore.
    rewrite (bind_Done _ _ _ _ _ Hstore). rewrite Nat2Z.id in *.
    set (w1 := mkWorld _ _ _ _ _ _) in *.
    assert (Hlt : (destination < length (heap w))%nat)
      by (eapply lookup_lt_Some; eauto).
    replace (Z.of_nat dn + 1) with (Z.of_nat (S dn)) by lia.
    replace (Z.of_nat sn + 1) with (Z.of_nat (S sn)) by lia.
    apply (IH (S dn) (S sn) fuel w1 (<[dn := v]> bd)).
    + subst w1. cbn [heap]. apply list_lookup_insert_eq. exact Hlt.
    + subst w1. cbn [heap]. rewrite list_lookup_insert_ne by exact Hne.
      exact Hs.
    + rewrite length_insert. lia.
    + lia.
    + rewrite length_insert. lia.
    + intros j Hj. specialize (Ht (S j) ltac:(lia)).
      replace (S dn + j)%nat with (dn + S j)%nat by lia.
      replace (S sn + j)%nat with (sn + S j)%nat by lia. exact Ht.
    + lia.
Qed.


(** X17. An offset that exceeds the right output buffer (a host that
    asks for fewer samples than the delay, with a buffer of that size), or
    the run off buffer, makes [run_Adt] copy past the end of that buffer:
    the loop that empties the run off buffer is bounded by the offset
    alone. *)
Theorem run_Adt_offset_beyond_a_buffer :
  forall (adt : Adt) (N o : Z) (w : world) (control : LADSPA_Data)
         (il ir ol or carry : list LADSPA_Data) (fuel : nat),
    connected adt N w control il ir ol or carry ->
    1 < N -> SFltb (sample_rate adt) (float_of_Z 1000) = false ->
    GetOffsetInSamples (sample_rate adt) control = Some o ->
    Z.of_nat (length or) < o \/ Z.of_nat (length carry) < o ->
    (Z.to_nat N < fuel)%nat -> (length or < fuel)%nat ->
    run_Adt fuel (Some adt) N w = Fault OutOfBounds.
Proof.
  intros adt N o w control il ir ol or carry fuel
    [Hnd [rest Hoff] Hil Hir Hol Hor Hcarry Lil Lir Lol Lor]
    HN Hrate Ho Hbeyond Hfuel Hfuel'.
  set (Nn := Z.to_nat N). assert (EN : N = Z.of_nat Nn) by lia.
  clearbody Nn. subst N.
  unfold run_Adt.
  replace (Z.of_nat Nn <=? 1) with false by (symmetry; apply Z.leb_gt; lia).
  rewrite Hrate.
  rewrite (bind_Done _ _ w control w
             (load_Done _ 0 w _ control Hoff ltac:(lia) eq_refl)).
  rewrite Ho. cbn [lift_option]. unfold bind at 1. unfold ret at 1.
  destruct (copy_while_copies (Output_Left adt) (Input_Left adt)
              (fun _ in_index => in_index <? Z.of_nat Nn) il ltac:(differ Hnd)
              Nn 0%nat 0%nat fuel w ol Hol Hil)
    as [w1 [R1 [H1 _]]];
    [lia|lia|intros j Hj; apply Z.ltb_lt; lia|apply Z.ltb_ge; lia|lia|].
  change (Z.of_nat 0) with 0 in R1. rewrite (bind_Done _ _ _ _ _ R1).
  destruct (insert_lookups _ _ _ _ _ H1 Hol) as [L1 O1].
  assert (Hor1 : heap w1 !! Output_Right adt = Some or)
    by (rewrite O1 by differ Hnd; exact Hor).
  assert (Hc1 : heap w1 !! block_run_off adt = Some carry)
    by (rewrite O1 by differ Hnd; exact Hcarry).
  apply bind_Fault.
  apply (copy_while_overruns (Output_Right adt) (block_run_off adt)
           (fun _ run_off_index => run_off_index <? o) carry
           ltac:(differ Hnd) (Nat.min (length or) (length carry))
           0%nat 0%nat fuel w1 or Hor1 Hc1); try lia.
  intros j Hj. apply Z.ltb_lt. lia.
Qed.

End AdtEdges.

(** ** Rounding in binary32, as arithmetic on integers *)

Module RoundingFacts.
Import Word Ieee Rounding FloatFacts.

(** A remainder, as its high bit and the rest. *)
Lemma mod_pow2_split (P n : Z) :
  1 <= n ->
  P mod 2 ^ n
  = P mod 2 ^ (n - 1) + 2 ^ (n - 1) * ((P / 2 ^ (n - 1)) mod 2).
Proof.
  intros Hn.
  assert (E : 2 ^ n = 2 ^ (n - 1) * 2).
  { replace n with ((n - 1) + 1) at 1 by lia.
    rewrite Z.pow_add_r by lia. reflexivity. }
  rewrite E. apply Z.rem_mul_r; [|lia].
  assert (0 < 2 ^ (n - 1)) by (apply Z.pow_pos_nonneg; lia). lia.
Qed.

(** [n] steps of [shr_1]: the quotient, the last bit shifted out, and
    whether a bit below it was set. *)
Lemma iter_shr_1_bits (P : Z) (n : positive) :
  0 <= P ->
  let mrs := SpecFloat.iter_pos shr_1 n (Build_shr_record P false false) in
  shr_m mrs = P / 2 ^ Zpos n
  /\ shr_r mrs = Z.odd (P / 2 ^ (Zpos n - 1))
  /\ shr_s mrs = negb (P mod 2 ^ (Zpos n - 1) =? 0).
Proof.
  intros HP. cbn zeta. rewrite iter_pos_is_iter.
  induction n as [|n IH] using Pos.peano_ind.
  - cbn [Pos.iter].
    destruct (shr_1_halves (Build_shr_record P false false) HP)
      as [H1 [H2 H3]].
    cbn [shr_m shr_r shr_s] in *. rewrite H1, H2, H3.
    change (2 ^ 1) with 2. change (1 - 1) with 0.
    rewrite Z.pow_0_r, Z.div_1_r, Z.mod_1_r. auto.
  - rewrite Pos.iter_succ. destruct IH as [IHm [IHr IHs]].
    set (mrs := Pos.iter shr_1 (Build_shr_record P false false) n) in *.
    assert (Hpow : 0 < 2 ^ Z.pos n) by (apply Z.pow_pos_nonneg; lia).
    assert (Hq : 0 <= shr_m mrs)
      by (rewrite IHm; apply Z.div_pos; [exact HP|exact Hpow]).
    destruct (shr_1_halves mrs Hq) as [H1 [H2 H3]].
    rewrite H1, H2, H3, IHm, IHr, IHs.
    rewrite Pos2Z.inj_succ.
    replace (Z.succ (Z.pos n) - 1) with (Z.pos n) by lia.
    rewrite Z.pow_succ_r by lia.
    split; [rewrite Z.div_div by lia; f_equal; lia|].
    split; [reflexivity|].
    rewrite (mod_pow2_split P (Z.pos n)) by lia.
    rewrite Zmod_odd.
    assert (Hlow : 0 <= P mod 2 ^ (Z.pos n - 1)).
    { apply Z.mod_pos_bound. apply Z.pow_pos_nonneg; lia. }
    assert (Hp1 : 0 < 2 ^ (Z.pos n - 1)) by (apply Z.pow_pos_nonneg; lia).
    destruct (Z.odd (P / 2 ^ (Z.pos n - 1))); cbn [orb].
    + symmetry. apply negb_true_iff. apply Z.eqb_neq. lia.
    + rewrite Z.mul_0_r, Z.add_0_r. reflexivity.
Qed.

(** The rounding [binary_round_aux] makes after a shift by [n >= 1]. *)
Lemma round_after_shift (P : Z) (n : positive) :
  0 <= P ->
  let mrs := SpecFloat.iter_pos shr_1 n (Build_shr_record P false false) in
  round_nearest_even (shr_m mrs) (loc_of_shr_record mrs)
  = nearest_even P (Zpos n).
Proof.
  intros HP. cbn zeta.
  destruct (iter_shr_1_bits P n HP) as [Hm [Hr Hs]].
  destruct (SpecFloat.iter_pos shr_1 n _) as [m0 r0 s0].
  cbn [shr_m shr_r shr_s] in *. subst m0 r0 s0.
  unfold nearest_even.
  rewrite (mod_pow2_split P (Zpos n)) by lia. rewrite Zmod_odd.
  assert (Hp1 : 0 < 2 ^ (Z.pos n - 1)) by (apply Z.pow_pos_nonneg; lia).
  pose proof (Z.mod_pos_bound P (2 ^ (Z.pos n - 1)) Hp1) as Hlow.
  set (low := P mod 2 ^ (Z.pos n - 1)) in *.
  set (half := 2 ^ (Z.pos n - 1)) in *.
  destruct (Z.odd (P / half)); cbn [loc_of_shr_record].
  - rewrite Z.mul_1_r.
    replace (low + half <? half) with false
      by (symmetry; apply Z.ltb_ge; lia).
    destruct (low =? 0) eqn:E0; cbn [negb round_nearest_even].
    + apply Z.eqb_eq in E0. rewrite E0, Z.add_0_l, Z.eqb_refl. reflexivity.
    + apply Z.eqb_neq in E0.
      replace (low + half =? half) with false
        by (symmetry; apply Z.eqb_neq; lia).
      reflexivity.
  - rewrite Z.mul_0_r, Z.add_0_r.
    replace (low <? half) with true by (symmetry; apply Z.ltb_lt; lia).
    destruct (low =? 0); reflexivity.
Qed.

Lemma nearest_even_near (P s : Z) :
  P / 2 ^ s <= nearest_even P s <= P / 2 ^ s + 1.
Proof.
  unfold nearest_even.
  destruct (_ <? _); [lia|]. destruct (_ =? _); [|lia].
  destruct (Z.even _); lia.
Qed.

(** Rounding to nearest keeps the order. *)
Lemma nearest_even_mono (P1 P2 s : Z) :
  0 <= s -> P1 <= P2 -> nearest_even P1 s <= nearest_even P2 s.
Proof.
  intros Hs HP.
  assert (HB : 0 < 2 ^ s) by (apply Z.pow_pos_nonneg; lia).
  pose proof (Z.div_le_mono P1 P2 (2 ^ s) HB HP) as Hq.
  pose proof (nearest_even_near P1 s) as N1.
  pose proof (nearest_even_near P2 s) as N2.
  destruct (Z.eq_dec (P1 / 2 ^ s) (P2 / 2 ^ s)) as [Eq|Ne]; [|lia].
  assert (Hrem : P1 mod 2 ^ s <= P2 mod 2 ^ s).
  { pose proof (Z.div_mod P1 (2 ^ s) ltac:(lia)) as D1.
    pose proof (Z.div_mod P2 (2 ^ s) ltac:(lia)) as D2.
    rewrite Eq in D1. lia. }
  unfold nearest_even. rewrite Eq.
  set (q := P2 / 2 ^ s). set (r1 := P1 mod 2 ^ s) in *.
  set (r2 := P2 mod 2 ^ s) in *. set (half := 2 ^ (s - 1)).
  destruct (r1 <? half) eqn:A1; destruct (r2 <? half) eqn:A2;
    destruct (r1 =? half) eqn:B1; destruct (r2 =? half) eqn:B2;
    destruct (Z.even q); lia.
Qed.

(** Scaling the number and the shift alike does not change the rounding. *)
Lemma nearest_even_scale (P s k : Z) :
  1 <= s -> 0 <= k -> nearest_even (P * 2 ^ k) (s + k) = nearest_even P s.
Proof.
  intros Hs Hk. unfold nearest_even.
  assert (HB : 0 < 2 ^ s) by (apply Z.pow_pos_nonneg; lia).
  assert (HK : 0 < 2 ^ k) by (apply Z.pow_pos_nonneg; lia).
  assert (HH : 0 < 2 ^ (s - 1)) by (apply Z.pow_pos_nonneg; lia).
  rewrite (Z.pow_add_r 2 s k) by lia.
  rewrite Z.div_mul_cancel_r by lia.
  rewrite Z.mul_mod_distr_r by lia.
  replace (s + k - 1) with ((s - 1) + k) by lia.
  rewrite (Z.pow_add_r 2 (s - 1) k) by lia.
  set (rem := P mod 2 ^ s). set (half := 2 ^ (s - 1)) in *.
  replace (rem * 2 ^ k <? half * 2 ^ k) with (rem <? half).
  2:{ destruct (rem <? half) eqn:E; symmetry;
        [apply Z.ltb_lt in E; apply Z.ltb_lt; nia
        |apply Z.ltb_ge in E; apply Z.ltb_ge; nia]. }
  replace (rem * 2 ^ k =? half * 2 ^ k) with (rem =? half).
  2:{ destruct (rem =? half) eqn:E; symmetry;
        [apply Z.eqb_eq in E; apply Z.eqb_eq; nia
        |apply Z.eqb_neq in E; apply Z.eqb_neq; nia]. }
  reflexivity.
Qed.

(** The integral part keeps the order, in the number and in the exponent. *)
Lemma scaled_mono (M M' g : Z) : M <= M' -> scaled M g <= scaled M' g.
Proof.
  intros H. unfold scaled. destruct (0 <=? g) eqn:E.
  - apply Z.leb_le in E.
    assert (0 < 2 ^ g) by (apply Z.pow_pos_nonneg; lia). nia.
  - apply Z.leb_gt in E. apply Z.div_le_mono; [|exact H].
    apply Z.pow_pos_nonneg; lia.
Qed.

Lemma scaled_nonneg (M g : Z) : 0 <= M -> 0 <= scaled M g.
Proof.
  intros HM. unfold scaled. destruct (0 <=? g) eqn:E.
  - apply Z.leb_le in E.
    assert (0 < 2 ^ g) by (apply Z.pow_pos_nonneg; lia). nia.
  - apply Z.leb_gt in E. apply Z.div_pos; [exact HM|].
    apply Z.pow_pos_nonneg; lia.
Qed.

Lemma scaled_double (M g : Z) : scaled (2 * M) g = scaled M (g + 1).
Proof.
  unfold scaled. destruct (0 <=? g) eqn:E.
  - apply Z.leb_le in E.
    replace (0 <=? g + 1) with true by (symmetry; apply Z.leb_le; lia).
    rewrite Z.pow_add_r by lia. change (2 ^ 1) with 2. lia.
  - apply Z.leb_gt in E. destruct (Z.eq_dec g (-1)) as [->|Hg].
    + change (0 <=? -1 + 1) with true. cbv iota.
      change (2 ^ (- -1)) with 2. change (2 ^ (-1 + 1)) with 1.
      rewrite (Z.mul_comm 2 M), Z.div_mul by lia. lia.
    + replace (0 <=? g + 1) with false by (symmetry; apply Z.leb_gt; lia).
      replace (- g) with (1 + - (g + 1)) by lia.
      rewrite Z.pow_add_r by lia. change (2 ^ 1) with 2.
      assert (0 < 2 ^ (- (g + 1))) by (apply Z.pow_pos_nonneg; lia).
      apply Z.div_mul_cancel_l; lia.
Qed.

Lemma scaled_mono_exponent (M g g' : Z) :
  0 <= M -> g <= g' -> scaled M g <= scaled M g'.
Proof.
  intros HM Hg. unfold scaled.
  destruct (0 <=? g) eqn:E; destruct (0 <=? g') eqn:E';
    try apply Z.leb_le in E; try apply Z.leb_gt in E;
    try apply Z.leb_le in E'; try apply Z.leb_gt in E'.
  - assert (2 ^ g <= 2 ^ g') by (apply Z.pow_le_mono_r; lia). nia.
  - lia.
  - assert (0 < 2 ^ (- g)) by (apply Z.pow_pos_nonneg; lia).
    assert (0 < 2 ^ g') by (apply Z.pow_pos_nonneg; lia).
    assert (M / 2 ^ (- g) <= M).
    { apply Z.div_le_upper_bound; [lia|]. nia. }
    nia.
  - apply Z.div_le_compat_l; [exact HM|].
    split; [apply Z.pow_pos_nonneg; lia|apply Z.pow_le_mono_r; lia].
Qed.

(** [binary_round_aux] in binary32 on a mantissa of [d >= 25] digits, in
    the normal range, followed by the conversion to an integer. *)
Lemma float_round_then_truncate (P : positive) (E d : Z) :
  Zpos (digits2_pos P) = d -> 25 <= d -> -149 <= d + E - 24 ->
  d + E <= 127 ->
  truncate (binary_round_aux float_prec float_emax false (Zpos P) E loc_Exact)
  = Some (scaled (nearest_even (Zpos P) (d - 24)) (E + (d - 24))).
Proof.
  intros Hd H25 Hmin Hmax.
  set (n := d - 24) in *. set (g := E + n) in *.
  assert (Hpow : 0 < 2 ^ n) by (apply Z.pow_pos_nonneg; lia).
  pose proof (digits2_pos_bounds P) as [Blo Bhi]. rewrite Hd in Blo, Bhi.
  assert (Hq : 2 ^ 23 <= Zpos P / 2 ^ n < 2 ^ 24).
  { split.
    - apply Z.div_le_lower_bound; [lia|].
      rewrite <- Z.pow_add_r by lia. replace (n + 23) with (d - 1) by lia.
      exact Blo.
    - apply Z.div_lt_upper_bound; [lia|].
      rewrite <- Z.pow_add_r by lia. replace (n + 24) with d by lia.
      exact Bhi. }
  pose proof (nearest_even_near (Zpos P) n) as Hnear.
  unfold binary_round_aux.
  unfold shr_fexp at 1. unfold fexp, emin, float_prec, float_emax.
  cbn [Zdigits2 shr_record_of_loc]. rewrite Hd.
  rewrite Z.max_l by lia.
  replace (d + E - 24 - E) with n by lia.
  destruct n as [|pn|pn] eqn:En; [lia| |lia].
  cbn [SpecFloat.shr].
  rewrite (round_after_shift (Zpos P) pn ltac:(lia)).
  set (mz := nearest_even (Zpos P) (Zpos pn)) in *.
  change (2 ^ 23) with 8388608 in Hq. change (2 ^ 24) with 16777216 in Hq.
  destruct mz as [|pm|pm] eqn:Emz; [lia| |lia].
  destruct (Z.eq_dec (Zpos pm) 16777216) as [Etop|Hlt].
  - (* the rounding carried into a 25th digit *)
    injection Etop as ->.
    unfold shr_fexp. change (Zdigits2 16777216) with 25.
    unfold fexp, emin. cbn [shr_record_of_loc].
    rewrite Z.max_l by lia.
    replace (25 + (E + Z.pos pn) - 24 - (E + Z.pos pn)) with 1 by lia.
    cbn [SpecFloat.shr SpecFloat.iter_pos shr_1 shr_m].
    replace (E + Z.pos pn + 1 <=? 128 - 24) with true
      by (symmetry; apply Z.leb_le; lia).
    cbn [truncate cond_Zopp]. f_equal.
    change 16777216 with (2 * 8388608). rewrite scaled_double.
    reflexivity.
  - assert (Hdig : Zpos (digits2_pos pm) = 24).
    { apply digits2_pos_unique. change (2 ^ (24 - 1)) with 8388608.
      change (2 ^ 24) with 16777216. lia. }
    unfold shr_fexp, fexp, emin.
    cbn [Zdigits2 shr_record_of_loc]. rewrite Hdig.
    rewrite Z.max_l by lia.
    replace (24 + (E + Z.pos pn) - 24 - (E + Z.pos pn)) with 0 by lia.
    cbn [SpecFloat.shr shr_m].
    replace (E + Z.pos pn <=? 128 - 24) with true
      by (symmetry; apply Z.leb_le; lia).
    cbn [truncate cond_Zopp]. reflexivity.
Qed.

End RoundingFacts.

(** ** sb_adt.c: the offset in samples and the run off buffer *)

Module AdtOffset.
Import Word Ieee Machine Adt Rounding WordFacts FloatFacts RoundingFacts.
Import FloatLengths MachineFacts AdtFacts.

(** The digits of a product of two 24-digit mantissas. *)
Lemma product_digits_24 (m x : positive) :
  8388608 <= Zpos m < 16777216 -> 8388608 <= Zpos x < 16777216 ->
  (Zpos (m * x) < 2 ^ 47 /\ Zpos (digits2_pos (m * x)) = 47)
  \/ (2 ^ 47 <= Zpos (m * x) /\ Zpos (digits2_pos (m * x)) = 48).
Proof.
  intros Hm Hx. rewrite Pos2Z.inj_mul.
  assert (Hlo : 2 ^ 46 <= Zpos m * Zpos x)
    by (change (2 ^ 46) with (8388608 * 8388608); nia).
  assert (Hhi : Zpos m * Zpos x < 2 ^ 48)
    by (change (2 ^ 48) with (16777216 * 16777216); nia).
  destruct (Z.lt_ge_cases (Zpos m * Zpos x) (2 ^ 47)) as [Hlt|Hge].
  - left. split; [exact Hlt|]. apply digits2_pos_unique.
    rewrite Pos2Z.inj_mul. change (47 - 1) with 46. lia.
  - right. split; [exact Hge|]. apply digits2_pos_unique.
    rewrite Pos2Z.inj_mul. change (48 - 1) with 47. lia.
Qed.

(** The mantissa a rounding to 24 digits leaves. *)
Lemma nearest_even_range (P d : Z) :
  25 <= d -> 2 ^ (d - 1) <= P < 2 ^ d ->
  8388608 <= nearest_even P (d - 24) <= 16777216.
Proof.
  intros Hd [Blo Bhi]. set (n := d - 24).
  assert (Hpow : 0 < 2 ^ n) by (apply Z.pow_pos_nonneg; lia).
  assert (Hq : 2 ^ 23 <= P / 2 ^ n < 2 ^ 24).
  { split.
    - apply Z.div_le_lower_bound; [lia|].
      rewrite <- Z.pow_add_r by lia. replace (n + 23) with (d - 1) by lia.
      exact Blo.
    - apply Z.div_lt_upper_bound; [lia|].
      rewrite <- Z.pow_add_r by lia. replace (n + 24) with d by lia.
      exact Bhi. }
  change (2 ^ 23) with 8388608 in Hq. change (2 ^ 24) with 16777216 in Hq.
  pose proof (nearest_even_near P n). lia.
Qed.

(** The integral part of a binary32 product of two normal numbers. *)
Lemma float_mul_truncate (m x : positive) (e ex : Z) :
  8388608 <= Zpos m < 16777216 -> 8388608 <= Zpos x < 16777216 ->
  -172 <= e + ex -> e + ex <= 79 ->
  exists d,
    (d = 47 \/ d = 48)
    /\ 2 ^ (d - 1) <= Zpos (m * x) < 2 ^ d
    /\ truncate (float_mul (S754_finite false m e) (S754_finite false x ex))
       = Some (scaled (nearest_even (Zpos (m * x)) (d - 24))
                      (e + ex + (d - 24))).
Proof.
  intros Hm Hx Hlo Hhi.
  assert (Hall : 2 ^ 46 <= Zpos (m * x) < 2 ^ 48).
  { rewrite Pos2Z.inj_mul. split.
    - change (2 ^ 46) with (8388608 * 8388608). nia.
    - change (2 ^ 48) with (16777216 * 16777216). nia. }
  unfold float_mul, SFmul. cbn [xorb].
  destruct (product_digits_24 m x Hm Hx) as [[Hr Hd]|[Hr Hd]].
  - exists 47. split; [left; reflexivity|]. split; [change (47 - 1) with 46; lia|].
    apply float_round_then_truncate; [exact Hd|lia|lia|lia].
  - exists 48. split; [right; reflexivity|]. split; [change (48 - 1) with 47; lia|].
    apply float_round_then_truncate; [exact Hd|lia|lia|lia].
Qed.

(** The integral part of a binary32 product grows with the second
    factor. *)
Lemma float_mul_truncate_mono (m x1 x2 : positive) (e e1 e2 : Z) :
  8388608 <= Zpos m < 16777216 ->
  8388608 <= Zpos x1 < 16777216 -> 8388608 <= Zpos x2 < 16777216 ->
  -172 <= e + e1 -> e + e2 <= 79 ->
  e1 < e2 \/ (e1 = e2 /\ Zpos x1 <= Zpos x2) ->
  exists t1 t2,
    truncate (float_mul (S754_finite false m e) (S754_finite false x1 e1))
    = Some t1
    /\ truncate (float_mul (S754_finite false m e) (S754_finite false x2 e2))
       = Some t2
    /\ 0 <= t1 <= t2.
Proof.
  intros Hm Hx1 Hx2 Hlo Hhi Hle.
  destruct (float_mul_truncate m x1 e e1 Hm Hx1 ltac:(lia) ltac:(lia))
    as [d1 [Hd1 [B1 T1]]].
  destruct (float_mul_truncate m x2 e e2 Hm Hx2 ltac:(lia) ltac:(lia))
    as [d2 [Hd2 [B2 T2]]].
  rewrite T1, T2. eexists _, _. split; [reflexivity|]. split; [reflexivity|].
  pose proof (nearest_even_range (Zpos (m * x1)) d1 ltac:(lia) B1) as R1.
  pose proof (nearest_even_range (Zpos (m * x2)) d2 ltac:(lia) B2) as R2.
  set (mz1 := nearest_even (Zpos (m * x1)) (d1 - 24)) in *.
  set (mz2 := nearest_even (Zpos (m * x2)) (d2 - 24)) in *.
  set (g1 := e + e1 + (d1 - 24)). set (g2 := e + e2 + (d2 - 24)).
  split; [apply scaled_nonneg; lia|].
  destruct (Z.lt_trichotomy g1 g2) as [Hlt|[Heq|Hgt]].
  - (* the second product is in a higher binade *)
    apply Z.le_trans with (scaled 16777216 g1); [apply scaled_mono; lia|].
    change 16777216 with (2 * 8388608). rewrite scaled_double.
    apply Z.le_trans with (scaled 8388608 g2);
      [apply scaled_mono_exponent; lia|apply scaled_mono; lia].
  - (* the same binade *)
    rewrite <- Heq. apply scaled_mono. subst mz1 mz2.
    destruct Hle as [Hlt|[He Hx]].
    + assert (Ed : d1 = 48 /\ d2 = 47 /\ e2 = e1 + 1) by (subst g1 g2; lia).
      destruct Ed as [-> [-> ->]].
      change (48 - 24) with (23 + 1). change (47 - 24) with 23.
      rewrite <- (nearest_even_scale (Zpos (m * x2)) 23 1) by lia.
      apply nearest_even_mono; [lia|].
      rewrite !Pos2Z.inj_mul. change (2 ^ 1) with 2. nia.
    + assert (Ed : d1 = d2) by (subst g1 g2; lia). subst d2.
      apply nearest_even_mono; [lia|].
      rewrite !Pos2Z.inj_mul. nia.
  - (* the first product cannot be in a higher binade *)
    exfalso. destruct Hle as [Hlt|[He Hx]]; [subst g1 g2; lia|].
    assert (Ed : d1 = 48 /\ d2 = 47) by (subst g1 g2; lia).
    destruct Ed as [-> ->].
    change (48 - 1) with 47 in B1.
    rewrite !Pos2Z.inj_mul in *.
    assert (Zpos m * Zpos x1 <= Zpos m * Zpos x2) by nia. lia.
Qed.

Lemma float_mul_finite_comm (m x : positive) (e ex : Z) :
  float_mul (S754_finite false m e) (S754_finite false x ex)
  = float_mul (S754_finite false x ex) (S754_finite false m e).
Proof.
  unfold float_mul, SFmul. rewrite Pos.mul_comm, Z.add_comm. reflexivity.
Qed.

(** The offset in seconds, for each number of milliseconds the macro
    [LIMIT_BETWEEN_5_AND_200] lets through: a normal binary32 number
    between the ones for 5 and for 200. *)
Lemma offset_seconds_table (c : Z) :
  5 <= c -> c <= 200 ->
  exists (x : positive) (ex : Z),
    float_div (float_of_Z c) (float_of_Z 1000) = S754_finite false x ex
    /\ 8388608 <= Zpos x < 16777216 /\ -31 <= ex <= -26
    /\ (ex < -26 \/ (ex = -26 /\ Zpos x <= 13421773))
    /\ (-31 < ex \/ (-31 = ex /\ 10737418 <= Zpos x)).
Proof.
  intros Hlo Hhi.
  for_each_exponent c 5 200 Hlo
    ltac:(fun k =>
            clear Hhi; eexists _, _;
            split; [vm_compute; reflexivity|];
            split; [lia|]; split; [lia|];
            split; [first [left; lia|right; lia]
                   |first [left; lia|right; lia]]).
Qed.

Lemma LIMIT_range (ms : Z) : 5 <= LIMIT_BETWEEN_5_AND_200 ms <= 200.
Proof.
  unfold LIMIT_BETWEEN_5_AND_200.
  destruct (ms <? 5) eqn:E1; [lia|]. apply Z.ltb_ge in E1.
  destruct (200 <? ms) eqn:E2; [lia|]. apply Z.ltb_ge in E2. lia.
Qed.

(** A binary32 number that is not below 1000.0. *)
Lemma float_at_least_1000 (rate : spec_float) :
  valid_binary float_prec float_emax rate = true ->
  SFltb rate (float_of_Z 1000) = false ->
  rate = S754_nan \/ rate = S754_infinity false
  \/ exists (m : positive) (e : Z),
       rate = S754_finite false m e
       /\ 8388608 <= Zpos m < 16777216 /\ -14 <= e <= 104
       /\ (-14 < e \/ (-14 = e /\ 16384000 <= Zpos m)).
Proof.
  intros Hvalid Hlt.
  change (float_of_Z 1000) with (S754_finite false 16384000 (-14)) in Hlt.
  destruct rate as [sg|sg| |sg m e].
  - discriminate Hlt.
  - destruct sg; [discriminate Hlt|]. right. left. reflexivity.
  - left. reflexivity.
  - right. right. destruct sg; [discriminate Hlt|].
    unfold SFltb, SFcompare in Hlt.
    cbn [valid_binary] in Hvalid. unfold bounded, canonical_mantissa in Hvalid.
    apply andb_true_iff in Hvalid. destruct Hvalid as [Hcan Hbound].
    apply Z.eqb_eq in Hcan. apply Z.leb_le in Hbound.
    unfold fexp, emin, float_prec, float_emax in *.
    pose proof (digits2_pos_bounds m) as Hdig.
    destruct (Z.compare_spec e (-14)) as [He|He|He]; [| discriminate Hlt|].
    + subst e. assert (Hd : Zpos (digits2_pos m) = 24) by lia.
      rewrite Hd in Hdig. change (2 ^ (24 - 1)) with 8388608 in Hdig.
      change (2 ^ 24) with 16777216 in Hdig.
      exists m, (-14). split; [reflexivity|]. split; [lia|]. split; [lia|].
      right. split; [reflexivity|].
      rewrite Pos.compare_cont_spec in Hlt.
      destruct (Pos.compare_spec m 16384000) as [Ec|Ec|Ec];
        [subst m; lia|discriminate Hlt|lia].
    + assert (Hd : Zpos (digits2_pos m) = 24) by lia.
      rewrite Hd in Hdig. change (2 ^ (24 - 1)) with 8388608 in Hdig.
      change (2 ^ 24) with 16777216 in Hdig.
      exists m, e. split; [reflexivity|]. split; [lia|]. split; lia.
Qed.

Lemma to_int_truncate (f : spec_float) (z : Z) :
  to_int f = Some z -> truncate f = Some z /\ INT_MIN <= z <= INT_MAX.
Proof.
  unfold to_int. destruct (truncate f) as [t|]; [|discriminate].
  destruct ((INT_MIN <=? t) && (t <=? INT_MAX)) eqn:E; [|discriminate].
  intros [= <-]. apply andb_true_iff in E. destruct E as [E1 E2].
  apply Z.leb_le in E1. apply Z.leb_le in E2. auto.
Qed.

(** The offset in samples lies between the one for 5 milliseconds at 1000
    samples a second and the one for [MAX_OFFSET] at the same rate. *)
Lemma offset_between (rate control : LADSPA_Data) (cap ms : Z) :
  valid_binary float_prec float_emax rate = true ->
  SFltb rate (float_of_Z 1000) = false ->
  GetOffsetInSamples rate (float_of_Z MAX_OFFSET) = Some cap ->
  to_int control = Some ms ->
  exists o,
    GetOffsetInSamples rate control = Some o /\ 5 <= o <= cap.
Proof.
  intros Hvalid Hrate Hcap Hms.
  destruct (float_at_least_1000 rate Hvalid Hrate)
    as [->|[->|[m [e [-> [Hm [He Hge]]]]]]].
  - vm_compute in Hcap. discriminate Hcap.
  - vm_compute in Hcap. discriminate Hcap.
  - unfold GetOffsetInSamples in *. rewrite Hms.
    change (to_int (float_of_Z MAX_OFFSET)) with (Some 200) in Hcap.
    cbv beta iota in Hcap.
    change (LIMIT_BETWEEN_5_AND_200 200) with 200 in Hcap.
    change (float_div (float_of_Z 200) (float_of_Z 1000))
      with (S754_finite false 13421773 (-26)) in Hcap.
    apply to_int_truncate in Hcap. destruct Hcap as [Tcap Rcap].
    pose proof (LIMIT_range ms) as Hc.
    set (c := LIMIT_BETWEEN_5_AND_200 ms) in *.
    destruct (offset_seconds_table c ltac:(lia) ltac:(lia))
      as [x [ex [Hx [Rx [Rex [Hup Hdown]]]]]].
    rewrite Hx.
    (* against the offset for 200 milliseconds *)
    destruct (float_mul_truncate_mono m x 13421773 e ex (-26) Hm Rx
                ltac:(lia) ltac:(lia) ltac:(lia) Hup)
      as [t1 [t2 [T1 [T2 Hle]]]].
    rewrite Tcap in T2. injection T2 as <-.
    (* against the offset for 5 milliseconds at 1000 samples a second *)
    destruct (float_mul_truncate_mono m 10737418 x e (-31) ex Hm
                ltac:(lia) Rx ltac:(lia) ltac:(lia) Hdown)
      as [t5 [t1' [T5 [T1' Hle5]]]].
    rewrite T1 in T1'. injection T1' as <-.
    rewrite float_mul_finite_comm in T5.
    destruct (float_mul_truncate_mono 10737418 16384000 m (-31) (-14) e
                ltac:(lia) ltac:(lia) Hm ltac:(lia) ltac:(lia) Hge)
      as [t0 [t5' [T0 [T5' Hle0]]]].
    rewrite T5 in T5'. injection T5' as <-.
    assert (E0 : t0 = 5) by (vm_compute in T0; congruence).
    exists t1. split; [|lia].
    unfold to_int. rewrite T1.
    unfold INT_MIN, INT_MAX in *.
    change (2 ^ 31) with 2147483648 in *.
    destruct ((_ <=? t1) && (t1 <=? _)) eqn:E; [reflexivity|].
    apply andb_false_iff in E.
    destruct E as [E|E]; apply Z.leb_gt in E; lia.
Qed.


(** X18. The offset in samples [run_Adt] works with grows with the number
    of milliseconds: for every sample rate of 1000 or more and every
    control value it is at least 5 samples and at most the offset for
    [MAX_OFFSET], the size [instantiate_Adt] gives the run off buffer and
    [activate_Adt] fills with zeros. *)
Theorem offset_within_the_run_off_buffer :
  forall (rate control : LADSPA_Data) (cap ms : Z),
    valid_binary float_prec float_emax rate = true ->
    SFltb rate (float_of_Z 1000) = false ->
    GetOffsetInSamples rate (float_of_Z MAX_OFFSET) = Some cap ->
    to_int control = Some ms ->
    exists o,
      GetOffsetInSamples rate control = Some o /\ 5 <= o <= cap.
Proof.
  intros rate control cap ms. apply offset_between.
Qed.

Lemma offset_within_the_run_off_buffer_witness :
  exists o,
    GetOffsetInSamples (float_of_Z 44100) (float_of_Z 30) = Some o
    /\ 5 <= o <= 8820.
Proof.
  apply (offset_within_the_run_off_buffer (float_of_Z 44100) (float_of_Z 30)
           8820 30).
  - reflexivity.
  - reflexivity.
  - vm_compute. reflexivity.
  - vm_compute. reflexivity.
Defined.



End AdtOffset.

(** ** sb_kite.c: the choice of a sub-block *)

Module KiteChoice.
Import Word Machine Kite WordFacts MachineFacts.
Local Open Scope machine_scope.

(** X14. Where [run_Kite] chooses its sub-block safely.  With more than
    twice [MIN_BLOCK_START] and no more than [MAX_BLOCK_END] samples left,
    the sub-block starts at a drawn position that leaves [MIN_BLOCK_START]
    samples on either side and runs to the last sample left.  With at
    least [2 * MAX_BLOCK_END - MIN_BLOCK_START] samples left, both ends
    are drawn and the sub-block lies inside what is left. *)
Theorem choose_block_inside_what_is_left :
  forall (MIN MAX remaining : Z) (w : world),
    1 <= MIN -> 2 * MIN < MAX -> 2 * MAX < ULONG_MOD ->
    0 <= remaining < ULONG_MOD ->
    (2 * MIN < remaining <= MAX ->
     exists start w',
       choose_block MIN MAX remaining w = Done ((start, remaining - 1), w')
       /\ MIN <= start <= remaining - MIN /\ drew w w')
    /\ (2 * MAX - MIN <= remaining ->
        exists start end_ w',
          choose_block MIN MAX remaining w = Done ((start, end_), w')
          /\ MIN <= start <= MAX
          /\ start + MIN <= end_ <= start + MAX - MIN - 1
          /\ end_ < remaining /\ drew w w').
Proof.
  intros MIN MAX remaining w HMIN HMAX Hwrap Hrem.
  pose proof ULONG_MOD_eq as HM. split.
  - intros Hmid. unfold choose_block.
    rewrite (wrap_small (MIN * 2)) by lia.
    replace (remaining <=? MIN * 2) with false
      by (symmetry; apply Z.leb_gt; lia).
    replace (remaining <=? MAX) with true by (symmetry; apply Z.leb_le; lia).
    rewrite (wrap_small (remaining - MIN)) by lia.
    destruct (GetRandomNaturalNumber_between MIN (remaining - MIN) w)
      as [v [w1 [Hdraw [Hv Hd]]]]; try lia.
    rewrite (bind_Done _ _ _ _ _ Hdraw). unfold ret.
    rewrite (wrap_small (remaining - 1)) by lia.
    exists v, w1. auto.
  - intros Hfar. unfold choose_block.
    rewrite (wrap_small (MIN * 2)) by lia.
    replace (remaining <=? MIN * 2) with false
      by (symmetry; apply Z.leb_gt; lia).
    replace (remaining <=? MAX) with false by (symmetry; apply Z.leb_gt; lia).
    destruct (GetRandomNaturalNumber_between MIN MAX w)
      as [v [w1 [Hdraw [Hv Hd]]]]; try lia.
    rewrite (bind_Done _ _ _ _ _ Hdraw).
    unfold end_position_bounds.
    rewrite (wrap_small (v + MIN)) by lia.
    rewrite (wrap_small (v + MAX)) by lia.
    rewrite (wrap_small (v + MAX - MIN)) by lia.
    replace (remaining <? v + MAX - MIN) with false
      by (symmetry; apply Z.ltb_ge; lia).
    rewrite (wrap_small (v + MAX - MIN - 1)) by lia.
    destruct (GetRandomNaturalNumber_between (v + MIN) (v + MAX - MIN - 1) w1)
      as [e [w2 [Hdraw2 [He Hd2]]]]; try lia.
    rewrite (bind_Done _ _ _ _ _ Hdraw2). unfold ret.
    exists v, e, w2. split; [reflexivity|]. split; [lia|]. split; [lia|].
    split; [lia|].
    destruct Hd as [A1 [A2 [A3 A4]]]. destruct Hd2 as [B1 [B2 [B3 B4]]].
    repeat split; congruence.
Qed.

End KiteChoice.

(** ** sb_adt.c: a block that is no longer than the offset *)

Module AdtShortBlock.
Import Word Ieee Machine Adt WordFacts MachineFacts AdtFacts.
Local Open Scope machine_scope.





End AdtShortBlock.

(** ** sb_esreveR.c: [run_Reverse] with the output in the input's buffer *)

Module ReverseInPlace.
Import Word Ieee Machine Reverse Plan InPlace WordFacts MachineFacts.
Import FloatLengths ReverseRun ReverseOutput.
Local Open Scope machine_scope.

Lemma rev_lookup {A : Type} (l : list A) (i : nat) :
  (i < length l)%nat -> rev l !! i = l !! (length l - S i)%nat.
Proof.
  intros Hi. rewrite rev_alt. apply (reverse_lookup l i Hi).
Qed.

Lemma folded_length (blk : list LADSPA_Data) :
  length (folded blk) = length blk.
Proof.
  unfold folded. pose proof (Nat.div2_odd (length blk)) as H.
  destruct (Nat.odd (length blk)); cbn [Nat.b2n] in H;
    rewrite length_app, length_rev, !length_drop; lia.
Qed.

Section Buffer.

Variable p : pointer.

(** The first turns of the inner loop, as long as the samples read lie
    above the samples written: [h] samples, the last one read first, go to
    the indexes from [out_index] on. *)
Lemma reverse_block_apart : forall (h : nat) (start_position in_index
    out_index : Z) (fuel : nat) (w : world) (b : list LADSPA_Data),
  heap w !! p = Some b ->
  0 <= out_index -> 0 <= start_position ->
  start_position <= in_index - Z.of_nat h + 1 ->
  out_index + Z.of_nat h <= in_index - Z.of_nat h + 1 ->
  0 <= in_index - Z.of_nat h ->
  in_index < Z.of_nat (length b) -> Z.of_nat (length b) < ULONG_MOD ->
  exists w',
    reverse_block (h + fuel) p p start_position in_index out_index w
    = reverse_block fuel p p start_position (in_index - Z.of_nat h)
                    (out_index + Z.of_nat h) w'
    /\ heap w'
       = <[p := take (Z.to_nat out_index) b
                  ++ rev (take h (drop (Z.to_nat (in_index - Z.of_nat h + 1))
                                       b))
                  ++ drop (Z.to_nat out_index + h) b]> (heap w)
    /\ stdout w' = stdout w /\ clock w' = clock w
    /\ ticks w' = ticks w /\ rng w' = rng w.
Proof.
  pose proof ULONG_MOD_eq as HM.
  induction h as [|h IH]; intros s i o fuel w b Hb Ho Hs Hsi Hoi Hi0 Hi Lb.
  - exists w. split.
    + cbn [Nat.add]. do 2 f_equal; lia.
    + split; [|auto]. rewrite take_0. cbn [rev app].
      rewrite Nat.add_0_r, take_drop. symmetry. apply list_insert_id.
      exact Hb.
  - cbn [Nat.add reverse_block].
    replace ((s <=? i) && negb (i =? 0xFFFFFFFFFFFFFFFF)) with true.
    2:{ symmetry. apply andb_true_iff. split; [apply Z.leb_le; lia|].
        apply negb_true_iff. apply Z.eqb_neq. lia. }
    destruct (load_in_range p i w b Hb) as [v [Hv Hload]]; [lia|].
    rewrite (bind_Done _ _ _ _ _ Hload).
    pose proof (store_Done p o v w b Hb ltac:(lia)) as Hstore.
    rewrite (bind_Done _ _ _ _ _ Hstore).
    set (w1 := mkWorld _ _ _ _ _ _) in *.
    assert (Hlt : (p < length (heap w))%nat)
      by (eapply lookup_lt_Some; eauto).
    rewrite (wrap_small (o + 1)) by lia.
    rewrite (wrap_small (i - 1)) by lia.
    destruct (IH s (i - 1) (o + 1) fuel w1 (<[Z.to_nat o := v]> b))
      as [w' [Hrun [Hh H]]]; try lia.
    + subst w1. cbn [heap]. apply list_lookup_insert_eq. exact Hlt.
    + rewrite length_insert. lia.
    + rewrite length_insert. lia.
    + exists w'. split.
      * rewrite Hrun. f_equal; lia.
      * split; [|subst w1; cbn in H; exact H].
        rewrite Hh. subst w1. cbn [heap]. rewrite list_insert_insert_eq.
        f_equal.
        replace (Z.to_nat (o + 1)) with (S (Z.to_nat o)) by lia.
        rewrite (take_S_r (<[Z.to_nat o := v]> b) (Z.to_nat o) v)
          by (apply list_lookup_insert_eq; lia).
        rewrite take_insert_ge by lia.
        rewrite !drop_insert_lt by lia.
        replace (Z.to_nat (i - 1 - Z.of_nat h + 1))
          with (Z.to_nat (i - Z.of_nat (S h) + 1)) by lia.
        assert (Hv' : drop (Z.to_nat (i - Z.of_nat (S h) + 1)) b !! h
                      = Some v).
        { rewrite lookup_drop. rewrite <- Hv. f_equal. lia. }
        rewrite (take_S_r _ h v Hv'). rewrite rev_app_distr.
        cbn [rev app]. rewrite <- app_assoc. cbn [app].
        replace (S (Z.to_nat o) + h)%nat with (Z.to_nat o + S h)%nat by lia.
        reflexivity.
Qed.

(** The turns of the inner loop that store what is there already: the
    sample read and the sample written over are equal at every turn, and
    the buffer stays as it is. *)
Lemma reverse_block_mirrored : forall (m : nat) (start_position out_index : Z)
    (fuel : nat) (w : world) (b : list LADSPA_Data),
  heap w !! p = Some b ->
  0 <= start_position -> 0 <= out_index ->
  start_position + Z.of_nat m <= Z.of_nat (length b) ->
  out_index + Z.of_nat m <= Z.of_nat (length b) ->
  Z.of_nat (length b) < ULONG_MOD ->
  (forall j : nat, (j < m)%nat ->
     b !! Z.to_nat (start_position + Z.of_nat m - 1 - Z.of_nat j)
     = b !! Z.to_nat (out_index + Z.of_nat j)) ->
  (m < fuel)%nat ->
  exists w',
    reverse_block fuel p p start_position
                  (wrap (start_position + Z.of_nat m - 1)) out_index w
    = Done ((wrap (start_position - 1), out_index + Z.of_nat m), w')
    /\ heap w' = heap w
    /\ stdout w' = stdout w /\ clock w' = clock w
    /\ ticks w' = ticks w /\ rng w' = rng w.
Proof.
  pose proof ULONG_MOD_eq as HM.
  induction m as [|m IH]; intros s o fuel w b Hb Hs Ho Ls Lo Lb Hsym Hf.
  - destruct fuel as [|fuel]; [lia|]. cbn [reverse_block].
    replace (s + Z.of_nat 0 - 1) with (s - 1) by lia.
    assert (Hexit : (s <=? wrap (s - 1))
                    && negb (wrap (s - 1) =? 0xFFFFFFFFFFFFFFFF) = false).
    { destruct (Z.eq_dec s 0) as [->|Hnz].
      - reflexivity.
      - rewrite wrap_small by lia.
        apply andb_false_iff. left. apply Z.leb_gt. lia. }
    rewrite Hexit. exists w. split.
    + unfold ret. do 3 f_equal. lia.
    + auto.
  - destruct fuel as [|fuel]; [lia|]. cbn [reverse_block].
    assert (Hidx : wrap (s + Z.of_nat (S m) - 1) = s + Z.of_nat m)
      by (rewrite wrap_small by lia; lia).
    rewrite Hidx.
    replace ((s <=? s + Z.of_nat m)
             && negb (s + Z.of_nat m =? 0xFFFFFFFFFFFFFFFF)) with true.
    2:{ symmetry. apply andb_true_iff. split; [apply Z.leb_le; lia|].
        apply negb_true_iff. apply Z.eqb_neq. lia. }
    destruct (load_in_range p (s + Z.of_nat m) w b Hb) as [v [Hv Hload]];
      [lia|].
    rewrite (bind_Done _ _ _ _ _ Hload).
    pose proof (store_Done p o v w b Hb ltac:(lia)) as Hstore.
    rewrite (bind_Done _ _ _ _ _ Hstore).
    set (w1 := mkWorld _ _ _ _ _ _) in *.
    assert (Hsame : b !! Z.to_nat o = Some v).
    { rewrite <- Hv. pose proof (Hsym 0%nat ltac:(lia)) as H0.
      replace (s + Z.of_nat (S m) - 1 - Z.of_nat 0) with (s + Z.of_nat m)
        in H0 by lia.
      replace (o + Z.of_nat 0) with o in H0 by lia. symmetry. exact H0. }
    assert (Hh1 : heap w1 = heap w).
    { subst w1. cbn [heap]. rewrite (list_insert_id b _ v Hsame).
      apply list_insert_id. exact Hb. }
    rewrite (wrap_small (o + 1)) by lia.
    replace (wrap (s + Z.of_nat m - 1)) with (wrap (s + Z.of_nat m - 1))
      by reflexivity.
    destruct (IH s (o + 1) fuel w1 b) as [w' [Hrun [Hh H]]]; try lia.
    + rewrite Hh1. exact Hb.
    + intros j Hj. pose proof (Hsym (S j) ltac:(lia)) as HS.
      replace (s + Z.of_nat m - 1 - Z.of_nat j)
        with (s + Z.of_nat (S m) - 1 - Z.of_nat (S j)) by lia.
      replace (o + 1 + Z.of_nat j) with (o + Z.of_nat (S j)) by lia.
      exact HS.
    + exists w'. split.
      * rewrite Hrun. do 3 f_equal. lia.
      * split; [rewrite Hh; exact Hh1|]. subst w1. cbn in H. exact H.
Qed.

(** The inner loop on the [h + m] samples from [c] on, [m] being [h] or
    [h + 1], reading and writing the same buffer. *)
Lemma reverse_block_folds (h m : nat) (c : Z) (fuel : nat) (w : world)
    (b : list LADSPA_Data) :
  heap w !! p = Some b -> Z.of_nat (length b) < ULONG_MOD ->
  (h <= m <= S h)%nat -> (1 <= m)%nat ->
  0 <= c -> c + Z.of_nat (h + m) <= Z.of_nat (length b) ->
  (h + m < fuel)%nat ->
  exists w',
    reverse_block fuel p p c (wrap (c + Z.of_nat (h + m) - 1)) c w
    = Done ((wrap (c - 1), c + Z.of_nat (h + m)), w')
    /\ heap w'
       = <[p := take (Z.to_nat c) b
                  ++ rev (take h (drop (Z.to_nat c + m) b))
                  ++ drop (Z.to_nat c + h) b]> (heap w)
    /\ stdout w' = stdout w /\ clock w' = clock w
    /\ ticks w' = ticks w /\ rng w' = rng w.
Proof.
  pose proof ULONG_MOD_eq as HM.
  intros Hb Lb Hhm Hm Hc Hlen Hfuel.
  rewrite (wrap_small (c + Z.of_nat (h + m) - 1)) by lia.
  destruct (reverse_block_apart h c (c + Z.of_nat (h + m) - 1) c
              (fuel - h) w b Hb)
    as [w1 [Hrun1 [Hh1 [A1 [A2 [A3 A4]]]]]]; try lia.
  replace (h + (fuel - h))%nat with fuel in Hrun1 by lia.
  rewrite Hrun1.
  replace (Z.to_nat (c + Z.of_nat (h + m) - 1 - Z.of_nat h + 1))
    with (Z.to_nat c + m)%nat in Hh1 by lia.
  set (b1 := take (Z.to_nat c) b
               ++ rev (take h (drop (Z.to_nat c + m) b))
               ++ drop (Z.to_nat c + h) b) in *.
  assert (Lrev : length (rev (take h (drop (Z.to_nat c + m) b))) = h)
    by (rewrite length_rev, length_take, length_drop; lia).
  assert (Ltake : length (take (Z.to_nat c) b) = Z.to_nat c)
    by (rewrite length_take; lia).
  assert (Lb1 : length b1 = length b).
  { subst b1. rewrite !length_app, Lrev, Ltake, length_drop. lia. }
  assert (Hb1 : heap w1 !! p = Some b1).
  { rewrite Hh1. apply list_lookup_insert_eq. eapply lookup_lt_Some; eauto. }
  assert (Hupper : forall k : nat,
            (h <= k)%nat -> b1 !! (Z.to_nat c + k)%nat
                            = b !! (Z.to_nat c + k)%nat).
  { intros k Hk. subst b1.
    rewrite lookup_app_r by (rewrite Ltake; lia).
    rewrite lookup_app_r by (rewrite Ltake, Lrev; lia).
    rewrite lookup_drop, Ltake, Lrev. f_equal. lia. }
  destruct (reverse_block_mirrored m c (c + Z.of_nat h) (fuel - h) w1 b1 Hb1)
    as [w2 [Hrun2 [Hh2 [B1 [B2 [B3 B4]]]]]]; try lia.
  - intros j Hj.
    replace (Z.to_nat (c + Z.of_nat h + Z.of_nat j))
      with (Z.to_nat c + (h + j))%nat by lia.
    rewrite (Hupper (h + j)%nat) by lia.
    destruct (Nat.lt_ge_cases (m - 1 - j) h) as [Hlow|Hmid].
    + replace (Z.to_nat (c + Z.of_nat m - 1 - Z.of_nat j))
        with (Z.to_nat c + (m - 1 - j))%nat by lia.
      subst b1. rewrite lookup_app_r by (rewrite Ltake; lia).
      rewrite Ltake.
      replace (Z.to_nat c + (m - 1 - j) - Z.to_nat c)%nat
        with (m - 1 - j)%nat by lia.
      rewrite lookup_app_l by (rewrite Lrev; exact Hlow).
      rewrite rev_lookup by (rewrite length_take, length_drop; lia).
      rewrite length_take, length_drop.
      rewrite lookup_take_lt by lia.
      rewrite lookup_drop. f_equal. lia.
    + replace (Z.to_nat (c + Z.of_nat m - 1 - Z.of_nat j))
        with (Z.to_nat c + (m - 1 - j))%nat by lia.
      rewrite (Hupper (m - 1 - j)%nat) by lia. f_equal. lia.
  - replace (c + Z.of_nat h + Z.of_nat m) with (c + Z.of_nat (h + m))
      in Hrun2 by lia.
    replace (c + Z.of_nat (h + m) - 1 - Z.of_nat h)
      with (c + Z.of_nat m - 1) by lia.
    rewrite (wrap_small (c + Z.of_nat m - 1)) in Hrun2 by lia.
    exists w2. split; [exact Hrun2|]. split; [rewrite Hh2; exact Hh1|].
    rewrite B1, B2, B3, B4. auto.
Qed.

End Buffer.

(** The buffer after the inner loop, in the words of [folded]. *)
Lemma folded_section (b : list LADSPA_Data) (c n : nat) :
  (c + n <= length b)%nat ->
  take c b
    ++ rev (take (Nat.div2 n) (drop (c + (n - Nat.div2 n)) b))
    ++ drop (c + Nat.div2 n) b
  = take c b ++ folded (take n (drop c b)) ++ drop (c + n) b.
Proof.
  intros Hlen. pose proof (Nat.div2_odd n) as Hn.
  assert (Hh : (Nat.div2 n <= n)%nat)
    by (destruct (Nat.odd n); cbn [Nat.b2n] in Hn; lia).
  set (h := Nat.div2 n) in *. f_equal. unfold folded.
  rewrite length_take, length_drop.
  replace (n `min` (length b - c))%nat with n by lia. fold h.
  rewrite !skipn_firstn_comm, !drop_drop.
  replace (n - (n - h))%nat with h by lia.
  rewrite <- app_assoc. f_equal.
  rewrite <- (take_drop (n - h) (drop (c + h) b)) at 1.
  rewrite drop_drop. do 2 f_equal. lia.
Qed.

(** Sub-blocks from [lo] on are the same in two buffers that agree from
    [lo] on. *)
Lemma folded_by_agree (b b' : list LADSPA_Data) :
  forall (plan : list segment) (lo hi : Z),
    tiles plan lo hi -> 0 <= lo ->
    drop (Z.to_nat lo) b = drop (Z.to_nat lo) b' ->
    folded_by plan b = folded_by plan b'.
Proof.
  induction plan as [|[s e] plan IH]; intros lo hi Ht Hlo Hd; [reflexivity|].
  cbn [tiles] in Ht. destruct Ht as [-> [Hse Ht]].
  unfold folded_by. cbn [map concat].
  fold (folded_by plan b). fold (folded_by plan b').
  unfold section. cbn [fst snd]. rewrite Hd. f_equal.
  apply (IH (e + 1) hi Ht); [lia|].
  replace (Z.to_nat (e + 1)) with (Z.to_nat lo + Z.to_nat (e + 1 - lo))%nat
    by lia.
  rewrite <- !drop_drop, Hd. reflexivity.
Qed.

Section Loop.

Variable p : pointer.
Variable N : Z.
Hypothesis N_ulong : 1 < N < ULONG_MOD.
Variables MIN MAX : Z.
Hypothesis MIN_pos : 1 <= MIN.
Hypothesis MIN_MAX : MIN <= MAX < ULONG_MOD.
Hypothesis no_wrap :
  forall c, 0 <= c -> c + 2 * MIN < N -> c + MAX < ULONG_MOD.

(** One sub-block [c .. last], in the words of [folded]. *)
Lemma reverse_block_in_place (c last : Z) (fuel : nat) (w : world)
    (b : list LADSPA_Data) :
  heap w !! p = Some b -> Z.of_nat (length b) < ULONG_MOD ->
  0 <= c <= last -> last < Z.of_nat (length b) ->
  (Z.to_nat (last - c + 1) < fuel)%nat ->
  exists w',
    reverse_block fuel p p c last c w
    = Done ((wrap (c - 1), last + 1), w')
    /\ heap w'
       = <[p := take (Z.to_nat c) b
                  ++ folded (section b (c, last))
                  ++ drop (Z.to_nat (last + 1)) b]> (heap w)
    /\ stdout w' = stdout w /\ clock w' = clock w
    /\ ticks w' = ticks w /\ rng w' = rng w.
Proof.
  pose proof ULONG_MOD_eq as HM.
  intros Hb Lb Hc Hlast Hfuel.
  set (n := Z.to_nat (last - c + 1)) in *.
  pose proof (Nat.div2_odd n) as Hn.
  assert (Hh : (Nat.div2 n <= n - Nat.div2 n <= S (Nat.div2 n))%nat)
    by (destruct (Nat.odd n); cbn [Nat.b2n] in Hn; lia).
  destruct (reverse_block_folds p (Nat.div2 n) (n - Nat.div2 n) c fuel w b
              Hb Lb Hh)
    as [w' [Hrun [Hh' H]]]; try lia.
  replace (Nat.div2 n + (n - Nat.div2 n))%nat with n in Hrun by lia.
  replace (c + Z.of_nat n - 1) with last in Hrun by lia.
  rewrite (wrap_small last) in Hrun by lia.
  replace (c + Z.of_nat n) with (last + 1) in Hrun by lia.
  exists w'. split; [exact Hrun|]. split; [|exact H].
  rewrite Hh'. f_equal. rewrite (folded_section b (Z.to_nat c) n) by lia.
  unfold section. cbn [fst snd]. fold n. do 3 f_equal. lia.
Qed.

(** The outer loop entered with [start_position = out_index = c], the
    output being the input's buffer. *)
Lemma reverse_loop_in_place : forall (m : nat) (c j : Z)
    (plan : list segment) (fuel : nat) (w : world) (b : list LADSPA_Data),
  N - c <= Z.of_nat m -> 0 <= c < N ->
  c = 0 \/ (MIN < N /\ c <= N - MIN) ->
  heap w !! p = Some b ->
  Z.of_nat (length b) < ULONG_MOD -> N <= Z.of_nat (length b) ->
  (Z.to_nat (N - c) + 2 <= fuel)%nat ->
  exists segs w',
    reverse_loop fuel p p N MIN MAX c j c plan w = Done (plan ++ segs, w')
    /\ tiles segs c N
    /\ heap w'
       = <[p := take (Z.to_nat c) b ++ folded_by segs b
                  ++ drop (Z.to_nat N) b]> (heap w)
    /\ stdout w' = stdout w /\ clock w' = clock w.
Proof.
  pose proof ULONG_MOD_eq as HM.
  induction m as [|m IH]; intros c j plan fuel w b Hm Hc Hinv Hb Lb Lb'
    Hf; [lia|].
  destruct fuel as [|fuel]; [lia|]. cbn [reverse_loop].
  replace (c <? N) with true by (symmetry; apply Z.ltb_lt; lia).
  assert (Hlt : (p < length (heap w))%nat)
    by (eapply lookup_lt_Some; eauto).
  destruct ((N <=? MIN) || (wrap (N - MIN) <=? wrap (c + MIN))) eqn:Hfinal.
  - (* the sub-block runs to the end of the buffer *)
    unfold bind at 1. unfold ret at 1.
    rewrite (wrap_small (N - 1)) by lia.
    destruct (reverse_block_in_place c (N - 1) fuel w b Hb Lb)
      as [w1 [Hrun [Hh [H1 [H2 _]]]]]; try lia.
    rewrite (bind_Done _ _ _ _ _ Hrun).
    destruct fuel as [|fuel]; [lia|]. cbn [reverse_loop].
    replace (N - 1 + 1 <? N) with false by (symmetry; apply Z.ltb_ge; lia).
    exists [(c, N - 1)], w1. split; [reflexivity|].
    split; [cbn; repeat split; lia|]. split; [|auto].
    rewrite Hh. unfold folded_by. cbn [map concat]. rewrite app_nil_r.
    replace (N - 1 + 1) with N by lia. reflexivity.
  - (* the end of the sub-block is drawn *)
    apply orb_false_iff in Hfinal. destruct Hfinal as [F1 F2].
    apply Z.leb_gt in F1. rewrite (wrap_small (N - MIN)) in * by lia.
    rewrite (wrap_small (c + MIN)) in * by lia.
    apply Z.leb_gt in F2.
    assert (HcM : c + MAX < ULONG_MOD) by (apply no_wrap; lia).
    rewrite (wrap_small (c + MAX)) by lia.
    set (upper := if N - MIN <? c + MAX then N - MIN else c + MAX).
    assert (Hup : c + MIN <= upper <= N - MIN /\ upper <= c + MAX).
    { subst upper. destruct (N - MIN <? c + MAX) eqn:E;
        [apply Z.ltb_lt in E|apply Z.ltb_ge in E]; lia. }
    destruct (GetRandomNaturalNumber_between (c + MIN) upper w)
      as [v [w1 [Hdraw [Hv [Hd1 [Hd2 [Hd3 Hd4]]]]]]]; try lia.
    unfold bind at 1. unfold bind at 1. rewrite Hdraw. unfold ret at 1.
    rewrite (wrap_small (v - 1)) by lia.
    assert (Hb1 : heap w1 !! p = Some b) by (rewrite Hd1; exact Hb).
    destruct (reverse_block_in_place c (v - 1) fuel w1 b Hb1 Lb)
      as [w2 [Hrun [Hh [H1 [H2 _]]]]]; try lia.
    rewrite (bind_Done _ _ _ _ _ Hrun).
    replace (v - 1 + 1) with v in * by lia.
    set (b2 := take (Z.to_nat c) b ++ folded (section b (c, v - 1))
                 ++ drop (Z.to_nat v) b) in *.
    assert (Lsec : length (folded (section b (c, v - 1))) = Z.to_nat (v - c)).
    { rewrite folded_length. unfold section. cbn [fst snd].
      rewrite length_take, length_drop. lia. }
    assert (LA : length (take (Z.to_nat c) b) = Z.to_nat c)
      by (rewrite length_take; lia).
    assert (Lb2 : length b2 = length b).
    { subst b2. rewrite !length_app, Lsec, LA, length_drop. lia. }
    assert (LAF : length (take (Z.to_nat c) b
                            ++ folded (section b (c, v - 1)))
                  = Z.to_nat v)
      by (rewrite length_app, LA, Lsec; lia).
    assert (Hdrop : drop (Z.to_nat v) b = drop (Z.to_nat v) b2).
    { subst b2. rewrite app_assoc.
      rewrite drop_app_length' by (symmetry; exact LAF).
      reflexivity. }
    assert (Htake : take (Z.to_nat v) b2
                    = take (Z.to_nat c) b ++ folded (section b (c, v - 1))).
    { subst b2. rewrite app_assoc. apply take_app_length'.
      symmetry. exact LAF. }
    destruct (IH v (wrap (c - 1)) (plan ++ [(c, v - 1)]) fuel w2 b2)
      as [segs [w3 [Hloop [Ht [Hh3 [G1 G2]]]]]]; try lia.
    + rewrite Hh, Hd1. apply list_lookup_insert_eq. exact Hlt.
    + exists ((c, v - 1) :: segs), w3. split.
      * rewrite Hloop. rewrite <- app_assoc. reflexivity.
      * split; [|split].
        -- cbn [tiles]. split; [reflexivity|]. split; [lia|].
           replace (v - 1 + 1) with v by lia. exact Ht.
        -- rewrite Hh3, Hh, Hd1. rewrite list_insert_insert_eq. f_equal.
           rewrite <- (folded_by_agree b b2 segs v N Ht ltac:(lia) Hdrop).
           unfold folded_by at 2. cbn [map concat].
           fold (folded_by segs b).
           replace (drop (Z.to_nat N) b2) with (drop (Z.to_nat N) b).
           2:{ replace (Z.to_nat N)
                 with (Z.to_nat v + Z.to_nat (N - v))%nat by lia.
               rewrite <- !drop_drop, Hdrop. reflexivity. }
           rewrite Htake, <- !app_assoc. reflexivity.
        -- rewrite G1, G2, H1, H2, Hd3, Hd4. auto.
Qed.

End Loop.

(** X21. [run_Reverse] with the output port connected to the input's own
    buffer, which the plugin's descriptor does not rule out.  On a valid
    call the run ends, but no sub-block comes out reversed: the copy reads,
    past the middle of a sub-block, the samples it has just written, so
    each sub-block is left as its second half backwards followed by its
    second half as it was, and the first half of every sub-block is
    lost. *)
Theorem run_Reverse_in_place_folds_each_block :
  forall (reverse : Reverse) (N : Z) (w : world) (b : list LADSPA_Data),
    valid_call reverse N w ->
    Output reverse = Input reverse ->
    heap w !! Input reverse = Some b ->
    Z.of_nat (length b) < ULONG_MOD ->
    exists (fuel : nat) (plan : list segment) (w' : world),
      run_Reverse fuel (Some reverse) N w = Done (plan, w')
      /\ tiles plan 0 N
      /\ heap w'
         = <[Input reverse := folded_by plan b ++ drop (Z.to_nat N) b]>
           (heap w)
      /\ stdout w' = stdout w.
Proof.
  intros reverse N w b Hv Hsame Hb Lb.
  destruct (valid_call_lengths reverse N w Hv)
    as [HN [MIN [MAX [Hmin [Hmax [HMM Hnw]]]]]].
  pose proof (to_ulong_range _ _ Hmax) as HMAX.
  destruct Hv as [_ _ Hrate _ [[b' [Hb' Lb']] _]].
  rewrite Hb in Hb'. injection Hb' as <-.
  assert (HMIN1 : 1 <= MIN) by lia.
  assert (HMINMAX : MIN <= MAX < ULONG_MOD) by lia.
  destruct (reverse_loop_in_place (Input reverse) N HN MIN MAX HMIN1 HMINMAX
              Hnw (Z.to_nat N) 0 0 [] (Z.to_nat N + 2) w b)
    as [segs [w' [Hrun [Ht [Hh [H1 _]]]]]]; try lia; try assumption.
  exists (Z.to_nat N + 2)%nat, segs, w'.
  rewrite (run_Reverse_is_the_loop reverse N MIN MAX) by (assumption || lia).
  rewrite Hsame.
  split; [exact Hrun|]. split; [exact Ht|]. split; [exact Hh|exact H1].
Qed.

End ReverseInPlace.

(** ** sb_esreveR.c: the two lengths for a whole sample rate *)

Module ReverseLimits.
Import Word Ieee Machine Reverse WordFacts FloatFacts FloatExact FloatLengths.

(** A 24-digit mantissa in the normal range of [float] is not rounded. *)
Lemma float_round_exact (P : positive) (E : Z) :
  Zpos (digits2_pos P) = 24 -> -149 <= E <= 104 ->
  binary_round_aux float_prec float_emax false (Zpos P) E loc_Exact
  = S754_finite false P E.
Proof.
  intros Hd HE. unfold binary_round_aux, shr_fexp, fexp, emin.
  unfold float_prec, float_emax.
  cbn [Zdigits2 shr_record_of_loc]. rewrite Hd.
  rewrite Z.max_l by lia. replace (24 + E - 24 - E) with 0 by lia.
  cbn [SpecFloat.shr shr_m loc_of_shr_record round_nearest_even
       Zdigits2 shr_record_of_loc].
  rewrite Hd. rewrite Z.max_l by lia. replace (24 + E - 24 - E) with 0 by lia.
  cbn [SpecFloat.shr shr_m].
  replace (E <=? 128 - 24) with true by (symmetry; apply Z.leb_le; lia).
  reflexivity.
Qed.

(** A whole number below 2^24 converts to [float] without rounding: the
    mantissa is the number shifted to 24 digits. *)
Lemma float_of_positive (p : positive) (d : Z) :
  Zpos (digits2_pos p) = d -> d <= 24 ->
  exists M : positive,
    Zpos M = Zpos p * 2 ^ (24 - d)
    /\ Zpos (digits2_pos M) = 24
    /\ float_of_Z (Zpos p) = S754_finite false M (d - 24).
Proof.
  intros Hd H24. pose proof (digits2_pos_bounds p) as Hb. rewrite Hd in Hb.
  assert (Hd1 : 1 <= d) by (subst d; lia).
  unfold float_of_Z, binary_normalize, binary_round.
  rewrite Hd. unfold fexp, emin, float_prec, float_emax.
  rewrite Z.max_l by lia. unfold shl_align.
  destruct (d + 0 - 24 - 0) as [|k|k] eqn:Ek.
  - assert (E24 : d = 24) by lia. exists p.
    split; [replace (24 - d) with 0 by lia; lia|].
    split; [rewrite Hd; exact E24|].
    replace (d - 24) with 0 by lia.
    apply float_round_exact; [rewrite Hd; exact E24|lia].
  - lia.
  - assert (Hk : Zpos k = 24 - d) by lia.
    assert (HM : Zpos (Pos.iter xO p k) = Zpos p * 2 ^ (24 - d)).
    { rewrite iter_xO, Hk. reflexivity. }
    assert (Hdig : Zpos (digits2_pos (Pos.iter xO p k)) = 24).
    { apply digits2_pos_unique. rewrite HM.
      assert (E1 : 2 ^ (24 - 1) = 2 ^ (d - 1) * 2 ^ (24 - d))
        by (rewrite <- Z.pow_add_r by lia; f_equal; lia).
      assert (E2 : 2 ^ 24 = 2 ^ d * 2 ^ (24 - d))
        by (rewrite <- Z.pow_add_r by lia; f_equal; lia).
      rewrite E1, E2.
      assert (0 < 2 ^ (24 - d)) by (apply Z.pow_pos_nonneg; lia). nia. }
    exists (Pos.iter xO p k). split; [exact HM|]. split; [exact Hdig|].
    replace (d + 0 - 24) with (d - 24) by lia.
    apply float_round_exact; [exact Hdig|lia].
Qed.

(** The two lengths at one exponent [e] of the rate, a closed number, for
    the whole rate [p] whose mantissa is [M]. *)
Ltac limits_at_exponent e M p HM :=
  rewrite (MAX_SAMPLES_product M e) by lia;
  rewrite (MIN_SAMPLES_product M e) by lia;
  evaluate_in HM;
  set (P := (7205759403792794 * (M * 536870912))%positive) in *;
  set (P' := (6755399441055744 * (M * 536870912))%positive) in *;
  assert (HP : Zpos P = 7205759403792794 * (Zpos M * 536870912))
    by (subst P; rewrite !Pos2Z.inj_mul; reflexivity);
  assert (HP' : Zpos P' = 6755399441055744 * (Zpos M * 536870912))
    by (subst P'; rewrite !Pos2Z.inj_mul; reflexivity);
  assert (HPr : 2 ^ 104 <= Zpos P < 2 ^ 106)
    by (change (2 ^ 104) with 20282409603651670423947251286016;
        change (2 ^ 106) with 81129638414606681695789005144064; lia);
  assert (HPr' : 2 ^ 104 <= Zpos P' < 2 ^ 106)
    by (change (2 ^ 104) with 20282409603651670423947251286016;
        change (2 ^ 106) with 81129638414606681695789005144064; lia);
  destruct (product_digits P HPr) as [[Hr Hd]|[Hr Hd]];
  destruct (product_digits P' HPr') as [[Hr' Hd']|[Hr' Hd']];
  clear HPr HPr' Hr Hr';
  (destruct (round_then_truncate P (-55 + (e - 29)) _ Hd)
     as [mz [Hmz [_ Ht]]]; [lia|lia|lia|]);
  (destruct (round_then_truncate P' (-52 + (e - 29)) _ Hd')
     as [mz' [Hmz' [_ Ht']]]; [lia|lia|lia|]);
  evaluate_in Ht; evaluate_in Ht'; evaluate_in Hmz; evaluate_in Hmz';
  unfold to_ulong; rewrite Ht, Ht';
  clear Ht Ht' Hd Hd'; clearbody P P';
  unfold ULONG_MOD, ULONG_BITS;
  change (2 ^ 64) with 18446744073709551616;
  match goal with
  | |- (if (0 <=? ?t) && (?t <? _) then _ else _) = _
       /\ (if (0 <=? ?t') && (?t' <? _) then _ else _) = _ =>
      let E1 := fresh "E1" in
      let E2 := fresh "E2" in
      assert (E1 : t = Zpos p / 5)
        by (Z.to_euclidean_division_equations; lia);
      assert (E2 : t' = Zpos p + Zpos p / 2)
        by (Z.to_euclidean_division_equations; lia);
      rewrite E1, E2
  end;
  replace ((0 <=? Zpos p / 5) && (Zpos p / 5 <? 18446744073709551616))
    with true
    by (symmetry; apply andb_true_iff;
        split; [apply Z.leb_le|apply Z.ltb_lt];
        Z.to_euclidean_division_equations; lia);
  replace ((0 <=? Zpos p + Zpos p / 2)
           && (Zpos p + Zpos p / 2 <? 18446744073709551616))
    with true
    by (symmetry; apply andb_true_iff;
        split; [apply Z.leb_le|apply Z.ltb_lt];
        Z.to_euclidean_division_equations; lia);
  split; reflexivity.

(** X22. For every whole sample rate from 10 to 2^24 - 1 (the rates a
    [float] holds exactly), the roundings of [0.2 * rate] and [1.5 * rate]
    in [double] do not show in the two lengths: [MIN_SAMPLES] is the fifth
    of the rate and [MAX_SAMPLES] is one and a half times the rate, both
    rounded down. *)
Theorem sub_block_lengths_of_the_rate :
  forall rate : Z,
    10 <= rate < 2 ^ 24 ->
    MIN_SAMPLES (float_of_Z rate) = Some (rate / 5)
    /\ MAX_SAMPLES (float_of_Z rate) = Some (rate + rate / 2).
Proof.
  intros rate Hrate. change (2 ^ 24) with 16777216 in Hrate.
  destruct rate as [|p|p]; [lia| |lia].
  pose proof (digits2_pos_bounds p) as Hb.
  set (d := Zpos (digits2_pos p)) in *.
  assert (Hd4 : 4 <= d).
  { destruct (Z.le_gt_cases 4 d) as [H|H]; [exact H|].
    assert (2 ^ d <= 2 ^ 3) by (apply Z.pow_le_mono_r; subst d; lia).
    change (2 ^ 3) with 8 in *. lia. }
  assert (Hd24 : d <= 24).
  { destruct (Z.le_gt_cases d 24) as [H|H]; [exact H|].
    assert (2 ^ 24 <= 2 ^ (d - 1)) by (apply Z.pow_le_mono_r; lia).
    change (2 ^ 24) with 16777216 in *. lia. }
  destruct (float_of_positive p d eq_refl Hd24) as [M [HM [HdM HfZ]]].
  rewrite HfZ.
  pose proof (digits2_pos_bounds M) as HbM. rewrite HdM in HbM.
  change (2 ^ (24 - 1)) with 8388608 in HbM.
  change (2 ^ 24) with 16777216 in HbM.
  set (e := d - 24) in *.
  assert (Hlo : -20 <= e) by (subst e; lia).
  assert (Hhi : e <= 0) by (subst e; lia).
  replace (24 - d) with (- e) in HM by (subst e; lia).
  clear HfZ HdM Hb Hd4 Hd24. clearbody e. clear d.
  for_each_exponent e (-20) 0 Hlo
    ltac:(fun k => clear Hhi; limits_at_exponent k M p HM).
Qed.

Lemma sub_block_lengths_of_the_rate_witness :
  10 <= 44100 < 2 ^ 24
  /\ MIN_SAMPLES (float_of_Z 44100) = Some 8820
  /\ MAX_SAMPLES (float_of_Z 44100) = Some 66150.
Proof.
  assert (H : 10 <= 44100 < 2 ^ 24)
    by (change (2 ^ 24) with 16777216; lia).
  split; [exact H|]. exact (sub_block_lengths_of_the_rate 44100 H).
Defined.

End ReverseLimits.

(** ** sb_kite.c: one sample left *)

Module KiteLastSample.
Import Word Ieee Machine Kite WordFacts MachineFacts KiteBlocks.
Local Open Scope machine_scope.

(** X23. A turn of the loop of [run_Kite] entered with one sample left
    (as after a sub-block that ends one sample short of what remained):
    the sub-block is [0 .. 0], and when the draw for the reversal gives 0
    [ApplyReverse] is called on it and the turn reads outside the input
    buffer. *)
Theorem run_Kite_reverses_a_last_single_sample :
  forall (kite : Kite) (N MIN MAX out_index : Z) (plan : list segment)
         (fuel : nat) (w w1 : world) (v : Z) (il : list LADSPA_Data),
    out_index < N -> 1 <= wrap (MIN * 2) ->
    GetRandomNaturalNumber 0 2 w = Done (v, w1) -> to_short v = 0 ->
    heap w1 !! Input_Left kite = Some il ->
    Z.of_nat (length il) <= ULONG_MAX ->
    (3 <= fuel)%nat ->
    kite_loop fuel kite N MIN MAX out_index 1 plan w = Fault OutOfBounds.
Proof.
  intros kite N MIN MAX out_index plan fuel w w1 v il
    Hout Hmin Hdraw Hzero Hil Hlen Hfuel.
  destruct fuel as [|fuel]; [lia|]. cbn [kite_loop].
  replace (out_index <? N) with true by (symmetry; apply Z.ltb_lt; lia).
  unfold choose_block.
  replace (1 <=? wrap (MIN * 2)) with true
    by (symmetry; apply Z.leb_le; exact Hmin).
  unfold bind at 1. unfold ret at 1.
  change (wrap (1 - 1)) with 0.
  apply bind_Fault. unfold process_block.
  rewrite (bind_Done _ _ _ _ _ Hdraw). rewrite Hzero.
  change (0 =? 0) with true. cbv iota.
  apply bind_Fault. apply bind_Fault.
  apply (ApplyReverse_first_sample (Input_Left kite) il fuel w1 Hil Hlen).
  lia.
Qed.

End KiteLastSample.

(** ** The theorems above on the inputs of the scenarios *)

Module MoreWitnesses.
Import Word Ieee Machine Scenario WordFacts MachineFacts.
Local Open Scope machine_scope.

Lemma ApplyReverse_reverses_the_section_witness :
  exists w',
    Kite.ApplyReverse 5 0 1 3 (kite_world 4) = Done (tt, w')
    /\ heap w' !! 0%nat = Some (map float_of_Z [0; 3; 2; 1]).
Proof.
  destruct (KiteBlocks.ApplyReverse_reverses_the_section 0 (ramp 4) 1 3 5
              (kite_world 4))
    as [w' [Hrun [Hh _]]].
  - reflexivity.
  - lia.
  - lia.
  - vm_compute. reflexivity.
  - vm_compute. reflexivity.
  - vm_compute. lia.
  - exists w'. split; [exact Hrun|]. rewrite Hh. reflexivity.
Defined.

Lemma ApplyReverse_runs_off_after_the_first_sample_witness :
  Kite.ApplyReverse 2 0 0 0 (kite_world 4) = Fault OutOfBounds.
Proof.
  apply (KiteBlocks.ApplyReverse_runs_off_after_the_first_sample 0 (ramp 4)).
  - reflexivity.
  - vm_compute. discriminate.
  - lia.
Defined.

Lemma CopySubBlock_between_buffers_witness :
  (exists w',
      Kite.CopySubBlock 5 2 0 0 1 3 (kite_world 4) = Done (tt, w')
      /\ heap w' !! 2%nat = Some (map float_of_Z [1; 2; 3; 77]))
  /\ Kite.CopySubBlock 5 2 1 0 1 3 (kite_world 4) = Done (tt, kite_world 4).
Proof.
  assert (Hd : heap (kite_world 4) !! 2%nat = Some (untouched 4))
    by reflexivity.
  assert (Hs : heap (kite_world 4) !! 0%nat = Some (ramp 4)) by reflexivity.
  assert (Ld : Z.of_nat (length (untouched 4)) < ULONG_MOD)
    by (vm_compute; reflexivity).
  assert (Ls : Z.of_nat (length (ramp 4)) < ULONG_MOD)
    by (vm_compute; reflexivity).
  assert (Hend : 3 < Z.of_nat (length (ramp 4))) by (vm_compute; reflexivity).
  split.
  - pose proof (KiteBlocks.CopySubBlock_between_buffers 2 0 (untouched 4)
                  (ramp 4) 0 1 3 5 (kite_world 4) ltac:(discriminate) Hd Hs
                  Ld Ls ltac:(lia) ltac:(lia) Hend
                  ltac:(vm_compute; discriminate) ltac:(vm_compute; lia))
      as [Hcopy _].
    destruct Hcopy as [w' [Hrun [Hh _]]]; [lia|].
    exists w'. split; [exact Hrun|]. rewrite Hh. reflexivity.
  - pose proof (KiteBlocks.CopySubBlock_between_buffers 2 0 (untouched 4)
                  (ramp 4) 1 1 3 5 (kite_world 4) ltac:(discriminate) Hd Hs
                  Ld Ls ltac:(lia) ltac:(lia) Hend
                  ltac:(vm_compute; discriminate) ltac:(vm_compute; lia))
      as [_ Hsame].
    exact (Hsame eq_refl).
Defined.

Lemma CopySubBlock_moves_a_section_down_witness :
  exists w',
    Kite.CopySubBlock 5 0 0 0 2 3 (kite_world 4) = Done (tt, w')
    /\ heap w' !! 0%nat = Some (map float_of_Z [2; 3; 2; 3]).
Proof.
  destruct (KiteBlocks.CopySubBlock_moves_a_section_down 0 (ramp 4) 0 2 3 5
              (kite_world 4))
    as [w' [Hrun [Hh _]]];
    try reflexivity; try lia; try (vm_compute; reflexivity);
    try (vm_compute; lia).
  exists w'. split; [exact Hrun|]. rewrite Hh. reflexivity.
Defined.

Lemma run_Kite_short_buffer_witness :
  exists w',
    Kite.run_Kite 6 (Some (kite 44100)) 4 (kite_world 4)
    = Done ([(0, 3)], w')
    /\ stdout w' = stdout (kite_world 4).
Proof.
  destruct (KiteShort.run_Kite_short_buffer (kite 44100) 4 11025
              (ramp 4) (ramp_down 4) 6 (kite_world 4)
              ltac:(lia) ltac:(vm_compute; reflexivity)
              ltac:(discriminate) ltac:(vm_compute; reflexivity)
              ltac:(vm_compute; discriminate) ltac:(discriminate)
              eq_refl eq_refl
              ltac:(vm_compute; discriminate) ltac:(vm_compute; discriminate)
              ltac:(vm_compute; lia))
    as [w' [Hrun [_ [_ Hout]]]].
  exists w'. split; [exact Hrun|exact Hout].
Defined.

Lemma valid_reverse_call (n : nat) :
  (2 <= n <= 12)%nat ->
  Reverse.valid_call (reverse 10) (Z.of_nat n) (reverse_world n).
Proof.
  intros Hn. constructor.
  - change (2 ^ 62) with 4611686018427387904. lia.
  - reflexivity.
  - reflexivity.
  - exists 15. reflexivity.
  - split; eexists; (split; [reflexivity|]).
    + unfold ramp. rewrite length_map, length_seq. lia.
    + unfold untouched. rewrite length_replicate. lia.
Defined.

Lemma run_Reverse_writes_each_block_backwards_witness :
  exists (fuel : nat) (plan : list segment) (w' : world),
    Reverse.run_Reverse fuel (Some (reverse 10)) 12 (reverse_world 12)
    = Done (plan, w')
    /\ tiles plan 0 12
    /\ length (Plan.reversed_by plan (ramp 12)) = Z.to_nat 12.
Proof.
  destruct (ReverseOutput.run_Reverse_writes_each_block_backwards
              (reverse 10) 12 (reverse_world 12) (ramp 12) (untouched 12)
              (valid_reverse_call 12 ltac:(lia))
              ltac:(discriminate) eq_refl eq_refl
              ltac:(vm_compute; reflexivity) ltac:(vm_compute; reflexivity))
    as [fuel [plan [w' [Hrun [Ht [_ [Hl _]]]]]]].
  exists fuel, plan, w'. split; [exact Hrun|]. split; [exact Ht|exact Hl].
Defined.

Lemma run_Reverse_block_lengths_witness :
  exists (MIN MAX : Z) (fuel : nat) (plan : list segment) (w' : world),
    Reverse.run_Reverse fuel (Some (reverse 10)) 12 (reverse_world 12)
    = Done (plan, w')
    /\ Plan.block_lengths MIN MAX true plan.
Proof.
  destruct (ReverseOutput.run_Reverse_block_lengths
              (reverse 10) 12 (reverse_world 12)
              (valid_reverse_call 12 ltac:(lia)))
    as [MIN [MAX [_ [_ [[fuel [plan [w' Hrun]]] Hall]]]]].
  exists MIN, MAX, fuel, plan, w'. split; [exact Hrun|].
  exact (Hall _ _ _ Hrun).
Defined.




Lemma run_Adt_offset_beyond_a_buffer_witness :
  Adt.run_Adt 4 (Some (adt 1000)) 3 (adt_world 200 5 3) = Fault OutOfBounds.
Proof.
  apply (AdtEdges.run_Adt_offset_beyond_a_buffer (adt 1000) 3 5
           (adt_world 200 5 3) (float_of_Z 5) (ramp_down 3) (ramp 3)
           (untouched 3) (untouched 3) (untouched 200)).
  - constructor; try reflexivity; try (vm_compute; discriminate).
    + apply (bool_decide_unpack _). vm_compute. exact I.
    + eexists. reflexivity.
  - lia.
  - reflexivity.
  - vm_compute. reflexivity.
  - left. vm_compute. reflexivity.
  - vm_compute. lia.
  - vm_compute. lia.
Defined.

Lemma xor4096r_strictly_between_0_and_1_witness :
  exists res,
    XorgensReal.xor4096r 2 1 Xorgens.fresh
    = Some (res, snd (Xorgens.xor4096i 1 Xorgens.fresh))
    /\ SFltb (double_of_Z 0) res = true /\ SFltb res (double_of_Z 1) = true.
Proof.
  destruct (XorgensRealFacts.xor4096r_strictly_between_0_and_1
              1 Xorgens.fresh) as [Hin Hone].
  destruct Hone as [res Hres]; [vm_compute; discriminate|].
  exists res. split; [exact Hres|]. exact (Hin 2%nat res _ Hres).
Defined.

Lemma choose_block_inside_what_is_left_witness :
  (exists start w',
      Kite.choose_block 1 9 5 (kite_world 5) = Done ((start, 4), w')
      /\ 1 <= start <= 4)
  /\ (exists start end_ w',
         Kite.choose_block 1 9 17 (kite_world 17) = Done ((start, end_), w')
         /\ start <= end_ < 17).
Proof.
  split.
  - destruct (KiteChoice.choose_block_inside_what_is_left 1 9 5 (kite_world 5)
                ltac:(lia) ltac:(lia) ltac:(vm_compute; reflexivity)
                ltac:(split; [lia | vm_compute; reflexivity]))
      as [Hmid _].
    destruct (Hmid ltac:(lia)) as [start [w' [Hrun [Hs _]]]].
    exists start, w'. split; [exact Hrun | lia].
  - destruct (KiteChoice.choose_block_inside_what_is_left 1 9 17 (kite_world 17)
                ltac:(lia) ltac:(lia) ltac:(vm_compute; reflexivity)
                ltac:(split; [lia | vm_compute; reflexivity]))
      as [_ Hfar].
    destruct (Hfar ltac:(lia)) as [start [end_ [w' [Hrun [Hs [He [Hlt _]]]]]]].
    exists start, end_, w'. split; [exact Hrun | lia].
Defined.


Lemma run_Reverse_in_place_folds_each_block_witness :
  (exists (fuel : nat) (plan : list segment) (w' : world),
      Reverse.run_Reverse fuel
        (Some {| Reverse.sample_rate := float_of_Z 10;
                 Reverse.Input := 0; Reverse.Output := 0 |})
        4 (reverse_world 4)
      = Done (plan, w')
      /\ tiles plan 0 4
      /\ heap w' !! 0%nat
         = Some (InPlace.folded_by plan (ramp 4) ++ drop 4 (ramp 4)))
  /\ InPlace.folded (ramp 4) = map float_of_Z [3; 2; 2; 3].
Proof.
  split; [|vm_compute; reflexivity].
  set (r := {| Reverse.sample_rate := float_of_Z 10;
               Reverse.Input := 0; Reverse.Output := 0 |}).
  assert (Hv : Reverse.valid_call r 4 (reverse_world 4)).
  { constructor.
    - change (2 ^ 62) with 4611686018427387904. lia.
    - reflexivity.
    - reflexivity.
    - exists 15. reflexivity.
    - split; eexists; (split; [reflexivity|]); vm_compute; discriminate. }
  destruct (ReverseInPlace.run_Reverse_in_place_folds_each_block r 4
              (reverse_world 4) (ramp 4) Hv eq_refl eq_refl
              ltac:(vm_compute; reflexivity))
    as [fuel [plan [w' [Hrun [Ht [Hh _]]]]]].
  exists fuel, plan, w'. split; [exact Hrun|]. split; [exact Ht|].
  rewrite Hh. reflexivity.
Defined.

Lemma run_Kite_reverses_a_last_single_sample_witness :
  Kite.kite_loop 3 (kite 4) 3 1 9 2 1 [(1, 2)]
    {| heap := heap (kite_world 3); stores := []; stdout := [];
       clock := ticking; ticks := 2; rng := Xorgens.fresh |}
  = Fault OutOfBounds
  /\ Kite.run_Kite 30 (Some (kite 4)) 3 (kite_world 3) = Fault OutOfBounds.
Proof.
  split; [|vm_compute; reflexivity].
  set (w := {| heap := heap (kite_world 3); stores := []; stdout := [];
               clock := ticking; ticks := 2; rng := Xorgens.fresh |}).
  assert (Hd : exists w1, GetRandomNaturalNumber 0 2 w = Done (0, w1)
                          /\ heap w1 !! 0%nat = Some (ramp 3)).
  { vm_compute. eexists. split; reflexivity. }
  destruct Hd as [w1 [Hdraw Hil]].
  exact (KiteLastSample.run_Kite_reverses_a_last_single_sample
           (kite 4) 3 1 9 2 [(1, 2)] 3 w w1 0 (ramp 3)
           ltac:(lia) ltac:(vm_compute; discriminate) Hdraw eq_refl Hil
           ltac:(vm_compute; discriminate) ltac:(lia)).
Defined.

End MoreWitnesses.
